(** * buflsp: a shallow embedding of the Protobuf language server's file-state core

    The development follows the Go packages under [private/buf/buflsp]:
    - [file]    : URI normalisation, overlays, the overlay file system;
    - [parser]  : the parsed-file cache ([File], [Parser]) and the position queries;
    - [buflsp]  : multi-source composition, the folder/filesystem facade, the
                  diagnostic client, the file manager, the LSP handlers and the
                  semantic-token encoder.

    Go values are modelled as the code has them: [uint32]/[int32]/[int] as [Z]
    (with the 32-bit wrap-around written out where the code can wrap), strings
    as [string], Go maps as [gmap], slices as [list], [(value, error)] results
    as [option] or a small result type, pointers to shared objects by explicit
    state passing. *)

From Stdlib Require Import ZArith Ascii String List Lia Bool Sorted.
From stdpp Require Import base option list gmap strings countable.

Local Open Scope Z_scope.

(* ===================================================================== *)
(** * Machine integers *)

(** Arithmetic on Go's [uint32] wraps modulo 2^32. *)
Definition uint32_wrap (z : Z) : Z := z mod 2 ^ 32.

Definition is_uint32 (z : Z) : Prop := 0 <= z < 2 ^ 32.

(* ===================================================================== *)
(** * Results *)

(** Go's [(value, error)] returns. The error values the code distinguishes
    are kept apart; wrapped errors keep the message prefix the code puts in
    front ([fmt.Errorf("...: %w", err)]). *)
Inductive error : Type :=
| ErrNotExist                       (* os.ErrNotExist *)
| ErrInvalidSource                  (* reporter.ErrInvalidSource *)
| ErrUnParseFile                    (* parser.ErrUnParseFile *)
| ErrMsg (msg : string)             (* errors.New(msg) *)
| ErrWrap (msg : string) (e : error) (* fmt.Errorf(msg + ": %w", e) *).

Inductive result (A : Type) : Type :=
| Ok (a : A)
| Err (e : error).
Arguments Ok {A} a.
Arguments Err {A} e.

Definition is_Ok {A} (r : result A) : bool :=
  match r with Ok _ => true | Err _ => false end.

Definition is_Err {A} (r : result A) : bool := negb (is_Ok r).

(* ===================================================================== *)
(** * The Go library functions the package calls

    [strings.HasPrefix], [net/url]'s path escaping and [go.lsp.dev/uri.New]
    are pure string functions and are written out. The functions that depend
    on the host (the working directory, the path separator, the URL parser)
    are the fields of [GoLib]. *)

Module golib.

(** [strings.HasPrefix(s, prefix)]. *)
Fixpoint HasPrefix (s p : string) {struct p} : bool :=
  match p with
  | EmptyString => true
  | String a p' =>
      match s with
      | EmptyString => false
      | String b s' => Ascii.eqb a b && HasPrefix s' p'
      end
  end.

(** [net/url]: [ishex] and [unhex]. *)
Definition ishex (c : ascii) : bool :=
  let n := nat_of_ascii c in
  ((48 <=? n) && (n <=? 57) || (97 <=? n) && (n <=? 102)
   || (65 <=? n) && (n <=? 70))%nat.

Definition unhex (c : ascii) : nat :=
  let n := nat_of_ascii c in
  (if (48 <=? n) && (n <=? 57) then n - 48
   else if (97 <=? n) && (n <=? 102) then n - 97 + 10
   else if (65 <=? n) && (n <=? 70) then n - 65 + 10
   else 0)%nat.

(** [url.PathUnescape]: every [%XY] becomes the byte it spells; a [%] that is
    not followed by two hex digits is an error ([None]). *)
Fixpoint PathUnescape (s : string) : option string :=
  match s with
  | EmptyString => Some EmptyString
  | String c rest =>
      if Ascii.eqb c "%" then
        match rest with
        | String h1 (String h2 rest') =>
            if ishex h1 && ishex h2 then
              match PathUnescape rest' with
              | Some t => Some (String (ascii_of_nat (unhex h1 * 16 + unhex h2)) t)
              | None => None
              end
            else None
        | _ => None
        end
      else
        match PathUnescape rest with
        | Some t => Some (String c t)
        | None => None
        end
  end.

(** The string has no [%]. *)
Fixpoint no_percent (s : string) : bool :=
  match s with
  | EmptyString => true
  | String c rest => negb (Ascii.eqb c "%") && no_percent rest
  end.

(** [url.shouldEscape(c, encodePath)]. *)
Definition shouldEscape_path (c : ascii) : bool :=
  let n := nat_of_ascii c in
  if ((97 <=? n) && (n <=? 122) || (65 <=? n) && (n <=? 90)
      || (48 <=? n) && (n <=? 57))%nat then false
  else if existsb (Ascii.eqb c) ["-"; "_"; "."; "~"]%char then false
  else if existsb (Ascii.eqb c)
            ["$"; "&"; "+"; ","; "/"; ":"; ";"; "="; "?"; "@"]%char
       then Ascii.eqb c "?"
  else true.

(** The digits of [upperhex]. *)
Definition upperhex (n : nat) : ascii :=
  (if n <? 10 then ascii_of_nat (48 + n) else ascii_of_nat (65 + (n - 10)))%nat.

(** [url.escape(s, encodePath)]. *)
Fixpoint escape_path (s : string) : string :=
  match s with
  | EmptyString => EmptyString
  | String c rest =>
      if shouldEscape_path c then
        String "%" (String (upperhex (nat_of_ascii c / 16))
          (String (upperhex (nat_of_ascii c mod 16)) (escape_path rest)))
      else String c (escape_path rest)
  end.

(** [url.URL{Scheme: "file", Path: path}.String()]: the scheme, [//] when the
    path is not empty, and the escaped path ([*] is not escaped). *)
Definition file_URL_String (path : string) : string :=
  ("file:" +:+ (if String.eqb path "" then "" else "//")
   +:+ (if String.eqb path "*" then "*" else escape_path path))%string.

End golib.

(** The host-dependent library functions. [uri_File] is [uri.File] (it makes
    the path absolute against the working directory); [uri_Filename] is
    [URI.Filename()] (the decoded path of a file URI; the Go method panics on
    a URI that does not parse, the model leaves its value there to the
    instance); [filepath_Rel] is [None] where [filepath.Rel] returns an error. *)
Class GoLib : Type := {
  uri_File : string -> string;
  uri_Filename : string -> string;
  filepath_IsAbs : string -> bool;
  filepath_Join : string -> string -> string;
  filepath_Rel : string -> string -> option string;
}.

(* ===================================================================== *)
(** * semantic_token.go *)

Module SemanticTokens.

(** [SemanticTokenModifiers.Value]: the bitwise OR of the modifiers. *)
Definition Value (ms : list Z) : Z :=
  if (length ms =? 0)%nat then 0
  else fold_left (fun val v => Z.lor val v) ms 0.

(** [type SemanticToken struct]. [Typ] is the Go field [Type]. *)
Record SemanticToken := mkTok {
  Line : Z;
  Start : Z;
  Len : Z;
  Raw : string;
  Typ : Z;
  Modifiers : list Z;
}.

(** Go's zero value, the initial [var last SemanticToken]. *)
Definition zeroToken : SemanticToken := mkTok 0 0 0 "" 0 [].

#[export] Instance SemanticToken_inhabited : Inhabited SemanticToken :=
  populate zeroToken.

(** The state of the loop of [EncodeSemanticTokens]: the output array [x],
    the write index [j] and the previous token [last]. *)
Record enc_state := mkEnc {
  x : list Z;
  j : nat;
  last : SemanticToken;
}.

(** One iteration of the loop body, for [item := toks[i]]. Writes to [x] are
    in-place updates [x[k] = v]; the array has been allocated with
    [5*len(toks)] cells, so every index written is in range. *)
Definition enc_step (toks : list SemanticToken) (st : enc_state)
    (item : SemanticToken) : enc_state :=
  let j := st.(j) in
  let last := st.(last) in
  let x := st.(x) in
  let x :=
    if (j =? 0)%nat then <[0%nat := (toks !!! 0%nat).(Line)]> x
    else <[j := uint32_wrap (item.(Line) - last.(Line))]> x in
  let x := <[(j + 1)%nat := item.(Start)]> x in
  let x :=
    if (0 <? j)%nat && (x !!! j =? 0)
    then <[(j + 1)%nat := uint32_wrap (item.(Start) - last.(Start))]> x
    else x in
  let x := <[(j + 2)%nat := item.(Len)]> x in
  let x := <[(j + 3)%nat := item.(Typ)]> x in
  let x := <[(j + 4)%nat := Value item.(Modifiers)]> x in
  mkEnc x (j + 5)%nat item.

(** [func EncodeSemanticTokens(toks []SemanticToken) []uint32]. *)
Definition EncodeSemanticTokens (toks : list SemanticToken) : list Z :=
  let st :=
    fold_left (enc_step toks) toks
      (mkEnc (replicate (5 * length toks) 0) 0%nat zeroToken) in
  take st.(j) st.(x).

(** The five integers emitted for [item] when [first] tells whether it is the
    first token ([j == 0]) and [last] is the token before it. *)
Definition enc_cells (first : bool) (last item : SemanticToken) : list Z :=
  let dl := if first then item.(Line)
            else uint32_wrap (item.(Line) - last.(Line)) in
  let ds := if negb first && (dl =? 0)
            then uint32_wrap (item.(Start) - last.(Start))
            else item.(Start) in
  [dl; ds; item.(Len); item.(Typ); Value item.(Modifiers)].

(** The encoder as a plain recursion over the tokens; [encode_array] below
    shows that the array loop computes exactly this. *)
Fixpoint enc_stream (first : bool) (last : SemanticToken)
    (toks : list SemanticToken) : list Z :=
  match toks with
  | [] => []
  | item :: rest => enc_cells first last item ++ enc_stream false item rest
  end.

(** The decoder of the LSP integer encoding. It is the client's side and not
    part of the server; it follows the protocol: a running absolute
    position, the line advanced by the line delta, the start column advanced
    by the start delta only when the line delta is zero. *)
Fixpoint decode_from (line start : Z) (data : list Z)
    : list (Z * Z * Z * Z * Z) :=
  match data with
  | dl :: ds :: len :: ty :: md :: rest =>
      let line' := line + dl in
      let start' := if dl =? 0 then start + ds else ds in
      (line', start', len, ty, md) :: decode_from line' start' rest
  | _ => []
  end.

Definition DecodeSemanticTokens (data : list Z) : list (Z * Z * Z * Z * Z) :=
  decode_from 0 0 data.

(** What the encoding carries of a token. *)
Definition tuple_of (t : SemanticToken) : Z * Z * Z * Z * Z :=
  (t.(Line), t.(Start), t.(Len), t.(Typ), Value t.(Modifiers)).

(** Ascending order by (line, start). *)
Definition tok_le (a b : SemanticToken) : Prop :=
  a.(Line) < b.(Line) \/ (a.(Line) = b.(Line) /\ a.(Start) <= b.(Start)).

(** The position fields are [uint32]. *)
Definition tok_wf (t : SemanticToken) : Prop :=
  is_uint32 t.(Line) /\ is_uint32 t.(Start).

End SemanticTokens.
(* ===================================================================== *)
(** * go.lsp.dev/uri *)

Section uri.
Context `{GoLib}.

(** [uri.New], which [NormalURIStr] and [URI2Relative] call. The library is
    a dependency of the repository; the function is written out from it:
    the string is replaced by its [url.PathUnescape] when that succeeds;
    with the [file://] prefix it is then the URI, otherwise it is taken as a
    path ([uri.File]). *)
Definition uri_New (s : string) : string :=
  let s := match golib.PathUnescape s with Some u => u | None => s end in
  if golib.HasPrefix s "file://" then s else uri_File s.

(** [uri.FileScheme]. *)
Definition uri_FileScheme : string := "file".

End uri.

(* ===================================================================== *)
(** * Package file: uri.go *)

Module file.
Section file.
Context `{GoLib}.

(** [func URI2Filename(u protocol.URI) string]. *)
Definition URI2Filename (u : string) : string :=
  if golib.HasPrefix u uri_FileScheme then uri_Filename u else u.

(** [func NormalURIStr(u string) protocol.URI]. *)
Definition NormalURIStr (u : string) : string :=
  if golib.HasPrefix u uri_FileScheme then uri_New u
  else if filepath_IsAbs u then uri_New (golib.file_URL_String u)
  else u.

(** [func NormalURI(u protocol.URI) protocol.URI]. *)
Definition NormalURI (u : string) : string := NormalURIStr u.

(** [func IsDocumentURI(u protocol.URI) bool]. *)
Definition IsDocumentURI (u : string) : bool :=
  golib.HasPrefix u uri_FileScheme && filepath_IsAbs (uri_Filename u).

(** [func URI2Relative(u protocol.URI, base string) (RelativeURI, error)]. *)
Definition URI2Relative (u base : string) : result string :=
  let filename := URI2Filename u in
  if negb (filepath_IsAbs filename) then Ok filename
  else match filepath_Rel base filename with
       | None => Err (ErrMsg "Rel")
       | Some rel => Ok (uri_New rel)
       end.

End file.
End file.

(* ===================================================================== *)
(** * Package file: overlay.go, file.go *)

(** [storage.ObjectInfo], by the methods the package calls. *)
Record ObjectInfo := mkObjectInfo {
  Path : string;
  ExternalPath : string;
  LocalPath : string;
}.

Module Overlay.
Section Overlay.
Context `{GoLib}.

(** [type Overlay struct]. *)
Record t := mk {
  root : string;
  uri : string;
  content : string;
  version : Z;
}.

(** [func NewOverlay]. *)
Definition NewOverlay (uri : string) (content : string) (version : Z) : t :=
  mk "" uri content version.

(** [func (o *Overlay) Change]. *)
Definition Change (o : t) (content : string) (version : Z) : t :=
  mk o.(root) o.(uri) content version.

(** [func (o *Overlay) Path() string]; the error of [filepath.Rel] is dropped. *)
Definition Path (o : t) : string :=
  match filepath_Rel o.(root) (uri_Filename o.(uri)) with
  | Some rel => rel
  | None => ""
  end.

(** [func (o *Overlay) LocalPath() string]. *)
Definition LocalPath (o : t) : string := uri_Filename o.(uri).

(** An overlay seen through [storage.ObjectInfo]. *)
Definition info (o : t) : ObjectInfo := mkObjectInfo (Path o) "" (LocalPath o).

End Overlay.
End Overlay.

Module simplefile.

(** [type simplefile struct], the handle of disk and module files. *)
Record t := mk {
  uri : string;
  content : string;
  err : option error;
}.

End simplefile.

(** [type Handle interface]: its implementations are [*Overlay] and the disk
    and module files, which embed [simplefile]. *)
Inductive Handle : Type :=
| HOverlay (o : Overlay.t)
| HFile (f : simplefile.t).

Module Handle.

Definition URI (h : Handle) : string :=
  match h with
  | HOverlay o => o.(Overlay.uri)
  | HFile f => f.(simplefile.uri)
  end.

Definition Version (h : Handle) : Z :=
  match h with
  | HOverlay o => o.(Overlay.version)
  | HFile _ => -1
  end.

Definition Content (h : Handle) : result string :=
  match h with
  | HOverlay o => Ok o.(Overlay.content)
  | HFile f =>
      match f.(simplefile.err) with
      | Some e => Err e
      | None => Ok f.(simplefile.content)
      end
  end.

End Handle.

(** The disk source and the module sources are read-through caches over the
    bucket and the modules of the workspace, which are external. They are
    kept abstract: a value of [Lower] is one such source with whatever it
    holds, read through [lower_ReadFile] and [lower_Stat]. *)
Class LowerSources : Type := {
  Lower : Type;
  lower_ReadFile : Lower -> string -> result simplefile.t;
  lower_Stat : Lower -> string -> result ObjectInfo;
}.

(* ===================================================================== *)
(** * Sources: [file.Source], [file.OverlayFS], [buflsp.MultiSource] *)

Section Sources.
Context `{GoLib} `{LowerSources}.

(** [type Source interface] with its implementations as variants, and
    [type OverlayFS struct]: the root, the delegate source and the overlay
    map, keyed by document URI. *)
#[warnings="-register-all"]
Inductive Source : Type :=
| SLower (s : Lower)
| SOverlayFS (fs : OverlayFS)
| SMulti (sources : list Source)
with OverlayFS : Type :=
| mkOverlayFS (root : string) (delegate : Source)
    (overlays : gmap string Overlay.t).

Definition OverlayFS_root (fs : OverlayFS) : string :=
  match fs with mkOverlayFS root _ _ => root end.

Definition OverlayFS_delegate (fs : OverlayFS) : Source :=
  match fs with mkOverlayFS _ delegate _ => delegate end.

Definition OverlayFS_overlays (fs : OverlayFS) : gmap string Overlay.t :=
  match fs with mkOverlayFS _ _ overlays => overlays end.

(** [func NewOverlayFS(root string, delegate Source) *OverlayFS]. *)
Definition NewOverlayFS (root : string) (delegate : Source) : OverlayFS :=
  mkOverlayFS root delegate ∅.

(** [func (fs *OverlayFS) checkURI(u protocol.URI) protocol.DocumentURI]. *)
Definition checkURI (fs : OverlayFS) (u : string) : string :=
  if negb (file.IsDocumentURI u)
  then file.NormalURIStr (filepath_Join (OverlayFS_root fs) u)
  else u.

(** [ReadFile] of every source. [OverlayFS_ReadFile] is
    [func (fs *OverlayFS) ReadFile]; the [SMulti] case is
    [func (m *MultiSource) ReadFile]: the first source that succeeds wins,
    and [os.ErrNotExist] is returned when none does. *)
Fixpoint Source_ReadFile (s : Source) (uri : string) : result Handle :=
  match s with
  | SLower l =>
      match lower_ReadFile l uri with
      | Ok f => Ok (HFile f)
      | Err e => Err e
      end
  | SOverlayFS fs => OverlayFS_ReadFile fs uri
  | SMulti sources =>
      (fix each (ss : list Source) : result Handle :=
         match ss with
         | [] => Err ErrNotExist
         | s :: ss' =>
             match Source_ReadFile s uri with
             | Ok h => Ok h
             | Err _ => each ss'
             end
         end) sources
  end
with OverlayFS_ReadFile (fs : OverlayFS) (uri : string) : result Handle :=
  match fs with
  | mkOverlayFS root delegate overlays =>
      let uri := checkURI (mkOverlayFS root delegate overlays) uri in
      match overlays !! uri with
      | Some overlay => Ok (HOverlay overlay)
      | None => Source_ReadFile delegate uri
      end
  end.

(** [func (fs *OverlayFS) Stat]: overlays only. *)
Definition OverlayFS_Stat (fs : OverlayFS) (uri : string) : result Overlay.t :=
  let uri := checkURI fs uri in
  match OverlayFS_overlays fs !! uri with
  | Some ol => Ok ol
  | None => Err ErrNotExist
  end.

(** [Stat] of every source; the [SMulti] case is [func (m *MultiSource) Stat]. *)
Fixpoint Source_Stat (s : Source) (uri : string) : result ObjectInfo :=
  match s with
  | SLower l => lower_Stat l uri
  | SOverlayFS fs =>
      match OverlayFS_Stat fs uri with
      | Ok ol => Ok (Overlay.info ol)
      | Err e => Err e
      end
  | SMulti sources =>
      (fix each (ss : list Source) : result ObjectInfo :=
         match ss with
         | [] => Err ErrNotExist
         | s :: ss' =>
             match Source_Stat s uri with
             | Ok info => Ok info
             | Err _ => each ss'
             end
         end) sources
  end.

(** [func (fs *OverlayFS) Get]. *)
Definition OverlayFS_Get (fs : OverlayFS) (uri : string) : result Overlay.t :=
  if String.eqb uri "" then Err (ErrMsg "empty DocumentURI")
  else
    let uri := checkURI fs uri in
    match OverlayFS_overlays fs !! uri with
    | Some oo => Ok oo
    | None => Err ErrNotExist
    end.

(** [func (fs *OverlayFS) Open(o *Overlay)], returning the stored overlay or
    an error. The overlay
    map holds the overlays themselves: an entry that exists is changed in
    place and stays the entry of its key. *)
Definition OverlayFS_Open (fs : OverlayFS) (o : Overlay.t)
    : result Overlay.t * OverlayFS :=
  if String.eqb o.(Overlay.uri) "" then (Err (ErrMsg "empty DocumentURI"), fs)
  else if file.IsDocumentURI o.(Overlay.uri)
          && negb (bool_decide
                     (is_Some (filepath_Rel (OverlayFS_root fs)
                                 (uri_Filename o.(Overlay.uri)))))
  then (Err (ErrMsg "overlay fs not include this file"), fs)
  else
    let o := Overlay.mk (OverlayFS_root fs) (checkURI fs o.(Overlay.uri))
               o.(Overlay.content) o.(Overlay.version) in
    match OverlayFS_overlays fs !! o.(Overlay.uri) with
    | Some oo =>
        let oo := Overlay.Change oo o.(Overlay.content) o.(Overlay.version) in
        (Ok oo, mkOverlayFS (OverlayFS_root fs) (OverlayFS_delegate fs)
                  (<[o.(Overlay.uri) := oo]> (OverlayFS_overlays fs)))
    | None =>
        (Ok o, mkOverlayFS (OverlayFS_root fs) (OverlayFS_delegate fs)
                 (<[o.(Overlay.uri) := o]> (OverlayFS_overlays fs)))
    end.

(** [func (fs *OverlayFS) Close]: the overlay goes, the delegate is left. *)
Definition OverlayFS_Close (fs : OverlayFS) (uri : string) : OverlayFS :=
  let uri := checkURI fs uri in
  mkOverlayFS (OverlayFS_root fs) (OverlayFS_delegate fs)
    (delete uri (OverlayFS_overlays fs)).

(** [func NewMultiSource]: a multi-source among the arguments is replaced by
    its sources. *)
Definition NewMultiSource (sources : list Source) : Source :=
  SMulti (flat_map (fun src => match src with
                               | SMulti ss => ss
                               | _ => [src]
                               end) sources).

(** [func (ms *MultiSource) Sources]. *)
Definition Sources (ms : Source) : list Source :=
  match ms with SMulti ss => ss | _ => [ms] end.

End Sources.

(* ===================================================================== *)
(** * Protocol values: positions, ranges, diagnostics *)

(** [protocol.Position]: zero-based line and character, both [uint32]. *)
Record Position := mkPosition {
  PLine : Z;
  Character : Z;
}.

(** [protocol.Range]. *)
Record Range := mkRange {
  RStart : Position;
  REnd : Position;
}.

#[export] Instance Position_eq_dec : EqDecision Position.
Proof. solve_decision. Defined.

#[export] Instance Position_countable : Countable Position.
Proof.
  refine (inj_countable' (fun p => (p.(PLine), p.(Character)))
            (fun q => mkPosition q.1 q.2) _).
  intros []. reflexivity.
Defined.

#[export] Instance Range_eq_dec : EqDecision Range.
Proof. solve_decision. Defined.

#[export] Instance Range_countable : Countable Range.
Proof.
  refine (inj_countable' (fun r => (r.(RStart), r.(REnd)))
            (fun q => mkRange q.1 q.2) _).
  intros []. reflexivity.
Defined.

(** [protocol.Diagnostic], by the fields the server fills. *)
Record Diagnostic := mkDiagnostic {
  DRange : Range;
  Severity : Z;
  Message : string;
  DSource : string;
}.

(** [protocol.PublishDiagnosticsParams]. *)
Record PublishDiagnosticsParams := mkPublish {
  PURI : string;
  Diagnostics : list Diagnostic;
}.

(* ===================================================================== *)
(** * diagnostic client *)

Module DiagnosticClient.

(** [type DiagnosticClient struct]: the per-URI cache of diagnostics keyed by
    range. [sent] is the client's side: the notifications
    [client.PublishDiagnostics] has been called with, oldest first. *)
Record t := mk {
  cache : gmap string (gmap Range Diagnostic);
  sent : list PublishDiagnosticsParams;
}.

(** [func NewDiagnosticClient]. *)
Definition NewDiagnosticClient : t := mk ∅ [].

(** The loop of [AddDiagnostics]: [dmap[d.Range] = d] for each diagnostic. *)
Definition add_all (ds : list Diagnostic) (dmap : gmap Range Diagnostic)
    : gmap Range Diagnostic :=
  fold_left (fun dmap d => <[d.(DRange) := d]> dmap) ds dmap.

(** [func (d *DiagnosticClient) AddDiagnostics]. *)
Definition AddDiagnostics (d : t) (f : Handle) (ds : list Diagnostic) : t :=
  let uri := Handle.URI f in
  let dmap := match d.(cache) !! uri with
              | Some dmap => dmap
              | None => ∅
              end in
  let dmap := add_all ds dmap in
  mk (<[uri := dmap]> d.(cache)) d.(sent).

(** [func (d *DiagnosticClient) Notify]. The diagnostics are the values of
    the map of the URI; Go ranges over a map in no fixed order, the model
    lists them in the order of [map_to_list]. The error of the transport is
    only logged by the callers and is not modelled. *)
Definition Notify (d : t) (f : Handle) : t :=
  let uri := Handle.URI f in
  let dmap := default ∅ (d.(cache) !! uri) in
  let ds := (map_to_list dmap).*2 in
  mk d.(cache) (d.(sent) ++ [mkPublish uri ds]).

(** [func (d *DiagnosticClient) Reset]. *)
Definition Reset (d : t) (f : Handle) : t :=
  mk (delete (Handle.URI f) d.(cache)) d.(sent).

(** The last diagnostic of [ds] at the range [r]. *)
Definition last_at (r : Range) (ds : list Diagnostic) : option Diagnostic :=
  list.last (filter (fun d => d.(DRange) = r) ds).

(** What the client has last been sent for [uri]. *)
Definition observed (d : t) (uri : string) : option (list Diagnostic) :=
  Diagnostics <$> list.last (filter (fun p => p.(PURI) = uri) d.(sent)).

End DiagnosticClient.

(* ===================================================================== *)
(** * Package parser: the syntax tree as the package uses it

    The parser and the compiler come from the [protocompile] library. The
    model keeps of its syntax tree what the package reads: for every node its
    source span, and for package and import nodes their name. *)

(** [ast.SourcePos]: one-based line and column (Go [int]). *)
Record SourcePos := mkSourcePos {
  SLine : Z;
  Col : Z;
}.

(** [ast.NodeInfo], an [ast.SourceSpan] with the raw text. *)
Record NodeInfo := mkNodeInfo {
  NStart : SourcePos;
  NEnd : SourcePos;
  RawText : string;
}.

Record PackageNode := mkPackageNode {
  PkgName : string;
  PkgInfo : NodeInfo;
}.

Record ImportNode := mkImportNode {
  ImpName : string;
  ImpInfo : NodeInfo;
}.

(** [ast.Node]: package nodes, import nodes, and every other node with the
    name of its Go type. *)
Inductive Node : Type :=
| NPackage (n : PackageNode)
| NImport (n : ImportNode)
| NOther (typ : string) (info : NodeInfo).

(** [fn.NodeInfo(n)]. *)
Definition Node_info (n : Node) : NodeInfo :=
  match n with
  | NPackage p => p.(PkgInfo)
  | NImport i => i.(ImpInfo)
  | NOther _ info => info
  end.

(** [*ast.FileNode]: its nodes in the order [ast.Walk] visits them. *)
Record FileNode := mkFileNode {
  walk : list Node;
}.

(** What a reporter is told while the library parses or compiles. *)
Inductive Report : Type :=
| RError (start end_ : SourcePos) (msg : string)
| RWarning (start end_ : SourcePos) (msg : string).

(** A [(value, err)] return of the library, read the way the package reads
    it: a value with no error or with [reporter.ErrInvalidSource] (the
    best-effort value is kept), or any other error. *)
Inductive Outcome (A : Type) : Type :=
| Done (a : A) (invalid_source : bool)
| Failed (e : error).
Arguments Done {A} a invalid_source.
Arguments Failed {A} e.

(** The library: [parser.Parse] on a file name and its bytes,
    [parser.ResultFromAST], and [Compiler.Compile] on a resolver and a file
    name; each with the reports it makes on the way. *)
Class ProtoCompile : Type := {
  ParserResult : Type;
  Symbols : Type;
  LinkerFile : Type;
  parser_Parse : string -> string -> list Report * Outcome FileNode;
  parser_ResultFromAST : FileNode -> list Report * Outcome ParserResult;
  compiler_Compile :
    (string -> result string) -> string ->
    list Report * Symbols * Outcome (option LinkerFile);
}.

(* ===================================================================== *)
(** * Package parser: position.go *)

Module position.

(** [func NewOneBasePosition]: both [uint32] fields are incremented. *)
Definition NewOneBasePosition (pos : Position) : Position :=
  mkPosition (uint32_wrap (pos.(PLine) + 1)) (uint32_wrap (pos.(Character) + 1)).

(** [func NewZeroBaseSourcePos]. *)
Definition NewZeroBaseSourcePos (pos : SourcePos) : SourcePos :=
  if (pos.(Col) >? 0) && (pos.(SLine) >? 0)
  then mkSourcePos (pos.(SLine) - 1) (pos.(Col) - 1)
  else pos.

(** [func (pos ZeroBaseSourcePos) ToPosition]: [int] to [uint32]. *)
Definition ToPosition (pos : SourcePos) : Position :=
  mkPosition (uint32_wrap pos.(SLine)) (uint32_wrap pos.(Col)).

(** [func PositionWithinNode(ni ast.SourceSpan, zpos protocol.Position) bool]. *)
Definition PositionWithinNode (ni : NodeInfo) (zpos : Position) : bool :=
  let pos := NewOneBasePosition zpos in
  let start := ni.(NStart) in
  let end_ := ni.(NEnd) in
  if (start.(SLine) =? end_.(SLine)) && (start.(SLine) =? pos.(PLine))
  then (start.(Col) <=? pos.(Character)) && (end_.(Col) >=? pos.(Character))
  else (start.(SLine) <=? pos.(PLine)) && (end_.(SLine) >=? pos.(PLine)).

(** [func PositionNodeLen(ni ast.SourceSpan, zpos protocol.Position)
    (linelen int, collen int)]. *)
Definition PositionNodeLen (ni : NodeInfo) (zpos : Position) : Z * Z :=
  if negb (PositionWithinNode ni zpos) then (-1, -1)
  else
    let pos := NewOneBasePosition zpos in
    let start := ni.(NStart) in
    let end_ := ni.(NEnd) in
    if start.(SLine) =? end_.(SLine)
    then (0, (pos.(Character) - start.(Col)) + (end_.(Col) - pos.(Character)))
    else ((pos.(PLine) - start.(SLine)) + (end_.(SLine) - pos.(PLine)), -1).

End position.

(* ===================================================================== *)
(** * Package parser: reporter.go *)

(** The reporter of a file: [noopReporter], or a [fileReporter] that adds
    each report to the diagnostics of its handle. *)
Inductive Reporter : Type :=
| noopReporter
| fileReporter (handle : Handle).

Module reporter.

(** [var source = "buf-lsp"]. *)
Definition source : string := "buf-lsp".

(** The diagnostic [fileReporter.Error] and [fileReporter.Warning] build. *)
Definition diagnostic_of (rep : Report) : Diagnostic :=
  match rep with
  | RError start end_ msg =>
      mkDiagnostic
        (mkRange (position.ToPosition (position.NewZeroBaseSourcePos start))
                 (position.ToPosition (position.NewZeroBaseSourcePos end_)))
        1 msg source
  | RWarning start end_ msg =>
      mkDiagnostic
        (mkRange (position.ToPosition (position.NewZeroBaseSourcePos start))
                 (position.ToPosition (position.NewZeroBaseSourcePos end_)))
        2 msg source
  end.

(** One call of the reporter. *)
Definition report (r : Reporter) (dc : DiagnosticClient.t) (rep : Report)
    : DiagnosticClient.t :=
  match r with
  | noopReporter => dc
  | fileReporter handle =>
      DiagnosticClient.AddDiagnostics dc handle [diagnostic_of rep]
  end.

(** The calls the library makes during one run, in order. *)
Definition report_all (r : Reporter) (dc : DiagnosticClient.t)
    (reps : list Report) : DiagnosticClient.t :=
  fold_left (report r) reps dc.

End reporter.

(* ===================================================================== *)
(** * Package parser: file.go *)

Module File.
Section File.
Context `{GoLib} `{ProtoCompile}.

(** [const FileInitVersion int32 = -2]. *)
Definition FileInitVersion : Z := -2.

(** [const descriptorPath]. *)
Definition descriptorPath : string := "google/protobuf/descriptor.proto".

(** [type File struct]. The resolver of the file is the one of its parser
    and is passed to [Compile]. *)
Record t := mk {
  handle : option Handle;
  reporter : Reporter;
  symbols : option Symbols;
  linkerfile : option LinkerFile;
  uri : string;
  content : option string;
  version : Z;
  fn : option FileNode;
  res : option ParserResult;
  pkg : option PackageNode;
  imports : list ImportNode;
}.

(** [strings.Contains]. *)
Fixpoint Contains (s sub : string) : bool :=
  golib.HasPrefix s sub ||
  match s with
  | EmptyString => false
  | String _ s' => Contains s' sub
  end.

(** [func newFile]. *)
Definition newFile (uri : string) (handle : option Handle) (rpt : Reporter)
    : t :=
  let rpt := if Contains (file.URI2Filename uri) descriptorPath
             then noopReporter else rpt in
  mk handle rpt None None uri None FileInitVersion None None None [].

(** [func (f *File) reset(h file.Handle)]. *)
Definition reset (f : t) (h : option Handle) : t :=
  let handle := match h with Some h => Some h | None => f.(handle) end in
  mk handle f.(reporter) f.(symbols) f.(linkerfile) f.(uri)
     None FileInitVersion None None None [].

(** [func (f *File) Reset()]. *)
Definition Reset (f : t) : t := reset f None.

(** [func (f *File) ResetWithHandle(h file.Handle)]. *)
Definition ResetWithHandle (f : t) (h : Handle) : t := reset f (Some h).

(** [func (f *File) needReParse() bool], for a file whose handle is [h]. *)
Definition needReParse (f : t) (h : Handle) : bool :=
  match f.(fn) with
  | None => true
  | Some _ =>
      let hv := Handle.Version h in
      if f.(version) <? hv then true else false
  end.

(** The visitor of [Parse]: a package node becomes [f.pkg], an import node
    is appended to [f.imports]. *)
Definition visit (st : option PackageNode * list ImportNode) (n : Node)
    : option PackageNode * list ImportNode :=
  match n with
  | NPackage pn => (Some pn, st.2)
  | NImport i => (st.1, st.2 ++ [i])
  | NOther _ _ => st
  end.

(** [func (f *File) Parse() error]. *)
Definition Parse (f : t) (dc : DiagnosticClient.t)
    : result unit * t * DiagnosticClient.t :=
  match f.(handle) with
  | None => (Err (ErrMsg "nil file handle"), f, dc)
  | Some h =>
      if negb (needReParse f h) then (Ok tt, f, dc)
      else
        match Handle.Content h with
        | Err e => (Err (ErrWrap "file content" e), f, dc)
        | Ok content =>
            let '(reps, parsed) :=
              parser_Parse (file.URI2Filename f.(uri)) content in
            let dc := reporter.report_all f.(reporter) dc reps in
            match parsed with
            | Failed e => (Err (ErrWrap "proto compile parse" e), f, dc)
            | Done fn _ =>
                let '(reps, result) := parser_ResultFromAST fn in
                let dc := reporter.report_all f.(reporter) dc reps in
                match result with
                | Failed e =>
                    (Err (ErrWrap "proto compile result from ast" e), f, dc)
                | Done res _ =>
                    let st := fold_left visit fn.(walk)
                                (f.(pkg), f.(imports)) in
                    (Ok tt,
                     mk f.(handle) f.(reporter) f.(symbols) f.(linkerfile)
                        f.(uri) (Some content) (Handle.Version h)
                        (Some fn) (Some res) st.1 st.2,
                     dc)
                end
            end
        end
  end.

(** [func (f *File) Compile() error]. *)
Definition Compile (f : t) (resolver : string -> result string)
    (dc : DiagnosticClient.t) : result unit * t * DiagnosticClient.t :=
  let '(reps, syms, compiled) :=
    compiler_Compile resolver (file.URI2Filename f.(uri)) in
  let dc := reporter.report_all f.(reporter) dc reps in
  let f := mk f.(handle) f.(reporter) (Some syms) f.(linkerfile) f.(uri)
              f.(content) f.(version) f.(fn) f.(res) f.(pkg) f.(imports) in
  match compiled with
  | Failed e => (Err (ErrWrap "compile" e), f, dc)
  | Done None _ => (Err (ErrMsg "no compiled files"), f, dc)
  | Done (Some lf) _ =>
      (Ok tt,
       mk f.(handle) f.(reporter) f.(symbols) (Some lf) f.(uri)
          f.(content) f.(version) f.(fn) f.(res) f.(pkg) f.(imports),
       dc)
  end.

(** [func (f *File) PackageName() PackageName]. *)
Definition PackageName (f : t) : string :=
  match f.(pkg) with
  | None => ""
  | Some pn => pn.(PkgName)
  end.

(** [func (f *File) Imports() []file.RelativeURI]. *)
Definition Imports (f : t) : list string :=
  map (fun im => file.NormalURIStr im.(ImpName)) f.(imports).

(** [func (f *File) NodesAt(pos protocol.Position) Nodes]; [f.Walk] visits
    nothing when the file has no syntax tree. *)
Definition NodesAt (f : t) (pos : Position) : list Node :=
  match f.(fn) with
  | None => []
  | Some fn =>
      List.filter (fun n => position.PositionWithinNode (Node_info n) pos)
        fn.(walk)
  end.

(** The loop body of [Nearest] on the state [(nearest, nearestline,
    nearestcol)]: the closure returns early, and its deferred function
    assigns when [assign] has been set. *)
Definition nearest_step (pos : Position) (st : option Node * Z * Z)
    (n : Node) : option Node * Z * Z :=
  let '(nearest, nearestline, nearestcol) := st in
  let ni := Node_info n in
  if negb (position.PositionWithinNode ni pos) then st
  else
    let '(linelen, collen) := position.PositionNodeLen ni pos in
    let assign :=
      match nearest with
      | None => true
      | Some _ =>
          if linelen >? nearestline then false
          else if linelen <? nearestline then true
          else if collen <? nearestcol then true else false
      end in
    if assign then (Some n, linelen, collen) else st.

(** [func (f *File) Nearest(pos protocol.Position) ast.Node]. *)
Definition Nearest (f : t) (pos : Position) : option Node :=
  match f.(fn) with
  | None => None
  | Some fn =>
      let ns := NodesAt f pos in
      if (length ns =? 0)%nat then None
      else (fold_left (nearest_step pos) ns (None, -1, -1)).1.1
  end.

End File.
End File.

(* ===================================================================== *)
(** * Package parser: package.go and the parser *)

Module Package.

(** [type Package struct]. The Go map holds pointers to the files of the
    parser's cache; the model keeps their keys, the URIs. *)
Record t := mk {
  name : string;
  files : gset string;
}.

(** [func NewPackage]. *)
Definition NewPackage (n : string) : t := mk n ∅.

(** [func (p *Package) AddFile]. *)
Definition AddFile (p : t) (uri : string) : t :=
  if bool_decide (uri ∈ p.(files)) then p
  else mk p.(name) ({[uri]} ∪ p.(files)).

(** [func (p *Package) RemoveFile]. *)
Definition RemoveFile (p : t) (uri : string) : t :=
  mk p.(name) (p.(files) ∖ {[uri]}).

End Package.

Module Parser.
Section Parser.
Context `{GoLib} `{ProtoCompile}.

(** [type Parser struct]: the files by relative URI and the packages by
    name. The diagnostic collector of the parser is the diagnostic client of
    the file manager, and its resolver reads the file system of the file
    manager; both are shared objects and are passed to [Parse]. *)
Record t := mk {
  files : gmap string File.t;
  pkgs : gmap string Package.t;
}.

(** [func NewParser]. *)
Definition NewParser : t := mk ∅ ∅.

(** [func (p *Parser) pkgremove(f *File)]. *)
Definition pkgremove (p : t) (f : File.t) : t :=
  let pkgn := File.PackageName f in
  match p.(pkgs) !! pkgn with
  | Some pkg =>
      mk p.(files) (<[pkgn := Package.RemoveFile pkg f.(File.uri)]> p.(pkgs))
  | None => p
  end.

(** [func (p *Parser) pkgadd(f *File)]. *)
Definition pkgadd (p : t) (f : File.t) : t :=
  let pkgn := File.PackageName f in
  let pkg := match p.(pkgs) !! pkgn with
             | Some pkg => pkg
             | None => Package.NewPackage pkgn
             end in
  mk p.(files) (<[pkgn := Package.AddFile pkg f.(File.uri)]> p.(pkgs)).

(** The file [Parse] works on: the entry of the cache, reset with the new
    handle and taken out of its package, or a new file. *)
Definition lookup_or_create (p : t) (uri : string) (h : Handle)
    : File.t * t :=
  match p.(files) !! uri with
  | Some f =>
      let f := File.ResetWithHandle f h in
      (f, pkgremove (mk (<[uri := f]> p.(files)) p.(pkgs)) f)
  | None =>
      let f := File.newFile uri (Some h) (fileReporter h) in
      (f, mk (<[uri := f]> p.(files)) p.(pkgs))
  end.

(** [func (p *Parser) Parse(uri file.RelativeURI, h file.Handle)]. The file
    is an object of the cache: what [File.Parse] and [File.Compile] change
    is written back under its key. The error of [Compile] is only logged. *)
Definition Parse (p : t) (resolver : string -> result string)
    (dc : DiagnosticClient.t) (uri : string) (h : Handle)
    : result File.t * t * DiagnosticClient.t :=
  let '(f, p) := lookup_or_create p uri h in
  match File.Parse f dc with
  | (Err e, f, dc) =>
      (Err (ErrWrap "file parse" e), mk (<[uri := f]> p.(files)) p.(pkgs), dc)
  | (Ok _, f, dc) =>
      let '(_, f, dc) := File.Compile f resolver dc in
      let p := pkgadd (mk (<[uri := f]> p.(files)) p.(pkgs)) f in
      (Ok f, p, dc)
  end.

(** The version of the cached file of [uri], as [File.Version] reads it. *)
Definition version_of (p : t) (uri : string) : option Z :=
  File.version <$> p.(files) !! uri.

(** A sequence of [Parse] calls on one URI, one per handle: the result of
    each call and the version of the cached file observed after it. *)
Fixpoint Parse_all (p : t) (resolver : string -> result string)
    (dc : DiagnosticClient.t) (uri : string) (hs : list Handle)
    : list (result File.t * option Z) :=
  match hs with
  | [] => []
  | h :: rest =>
      let '(r, p, dc) := Parse p resolver dc uri h in
      (r, version_of p uri) :: Parse_all p resolver dc uri rest
  end.

(** Every file of the cache is stored under its own URI. *)
Definition wf (p : t) : Prop :=
  forall k f, p.(files) !! k = Some f -> f.(File.uri) = k.

End Parser.
End Parser.

(* ===================================================================== *)
(** * Package buflsp: file_filesystem.go *)

Module folder.
Section folder.
Context `{GoLib} `{LowerSources}.

(** [type folder struct]. *)
Record t := mk {
  Name : string;
  URI : string;
  overlayfs : OverlayFS;
  modssource : Source;
}.

(** [func (f *folder) Souce() file.Source]. *)
Definition Souce (f : t) : Source :=
  NewMultiSource [SOverlayFS f.(overlayfs); f.(modssource)].

End folder.
End folder.

Module filesystem.
Section filesystem.
Context `{GoLib} `{LowerSources}.

(** [type filesystem struct]. *)
Record t := mk {
  folders : list folder.t;
}.

(** [func (fs *filesystem) Source() file.Source]. *)
Definition Source (fs : t) : Source :=
  NewMultiSource (map folder.Souce fs.(folders)).

(** [func (fs *filesystem) Resolver()]: the accessor of the resolver. *)
Definition Resolver (fs : t) (path : string) : result string :=
  match Source_ReadFile (Source fs) (file.NormalURIStr path) with
  | Err e => Err (ErrWrap "fs source read file" e)
  | Ok handle =>
      match Handle.Content handle with
      | Err e => Err (ErrWrap "handle content" e)
      | Ok content => Ok content
      end
  end.

(** The loop of [Open] over the folders: the first overlay file system that
    accepts the overlay wins. *)
Fixpoint open_in (fs : list folder.t) (overlay : Overlay.t)
    : result Handle * list folder.t :=
  match fs with
  | [] => (Err ErrNotExist, [])
  | f :: rest =>
      match OverlayFS_Open f.(folder.overlayfs) overlay with
      | (Ok h, ofs) =>
          (Ok (HOverlay h),
           folder.mk f.(folder.Name) f.(folder.URI) ofs f.(folder.modssource)
           :: rest)
      | (Err _, _) =>
          let '(r, rest) := open_in rest overlay in (r, f :: rest)
      end
  end.

(** [func (fs *filesystem) Open(overlay *file.Overlay) (file.Handle, error)]. *)
Definition Open (fs : t) (overlay : Overlay.t) : result Handle * t :=
  let '(r, folders) := open_in fs.(folders) overlay in (r, mk folders).

(** [fs.Source().Close(uri)]: every source of the multi-source is closed;
    an overlay file system drops its overlay of the URI. *)
Definition Close (fs : t) (uri : string) : t :=
  mk (map (fun f =>
             folder.mk f.(folder.Name) f.(folder.URI)
               (OverlayFS_Close f.(folder.overlayfs) uri)
               f.(folder.modssource))
        fs.(folders)).

End filesystem.
End filesystem.

(* ===================================================================== *)
(** * Package buflsp: file_manager.go *)

(** [type fileHandle struct]. [parsedFile] points to a file of the parser's
    cache: the model holds its key. *)
Record fileHandle := mkFileHandle {
  handle : Handle;
  parsedFile : string;
}.

Module fileManager.
Section fileManager.
Context `{GoLib} `{LowerSources} `{ProtoCompile}.

(** [type fileManager struct]: the file system, the parser and the
    diagnostic client (with the client behind it). *)
Record t := mk {
  fs : filesystem.t;
  parser : Parser.t;
  diagnosticClient : DiagnosticClient.t;
}.

(** [func newFileManager]. *)
Definition newFileManager (fs : filesystem.t) : t :=
  mk fs Parser.NewParser DiagnosticClient.NewDiagnosticClient.

(** The calls return through Go's stack; [None] stands for a call that has
    not returned within the recursion depth it was given. *)
Definition call (A : Type) : Type := option (result A * t).

(** The loop of [internalparse] over the imports: each is read with
    [ReadFile], and the first error is returned. *)
Fixpoint read_imports (ReadFile : t -> string -> call fileHandle) (fm : t)
    (imps : list string) : call unit :=
  match imps with
  | [] => Some (Ok tt, fm)
  | imp :: rest =>
      match ReadFile fm imp with
      | None => None
      | Some (Err e, fm) => Some (Err e, fm)
      | Some (Ok _, fm) => read_imports ReadFile fm rest
      end
  end.

(** [func (fm *fileManager) internalparse], with the [ReadFile] it calls for
    the imports. *)
Definition internalparse (ReadFile : t -> string -> call fileHandle)
    (fm : t) (stat : ObjectInfo) (handle : Handle) : call fileHandle :=
  let dc := DiagnosticClient.Reset fm.(diagnosticClient) handle in
  let '(r, parser, dc) :=
    Parser.Parse fm.(parser) (filesystem.Resolver fm.(fs)) dc
      (file.NormalURIStr stat.(Path)) handle in
  match r with
  | Err e => Some (Err (ErrWrap "parser parse file" e), mk fm.(fs) parser dc)
  | Ok pf =>
      let dc := DiagnosticClient.Notify dc handle in
      match read_imports ReadFile (mk fm.(fs) parser dc) (File.Imports pf) with
      | None => None
      | Some (Err e, fm) => Some (Err e, fm)
      | Some (Ok _, fm) =>
          Some (Ok (mkFileHandle handle pf.(File.uri)), fm)
      end
  end.

(** [func (fm *fileManager) ReadFile]: "ReadFile will recursively read from
    fs and parse all imports". [depth] bounds the nesting of the calls. *)
Fixpoint ReadFile (depth : nat) (fm : t) (uri : string) : call fileHandle :=
  match depth with
  | O => None
  | S depth =>
      match Source_Stat (filesystem.Source fm.(fs)) uri with
      | Err e => Some (Err (ErrWrap "fs stat file" e), fm)
      | Ok stat =>
          match Source_ReadFile (filesystem.Source fm.(fs)) uri with
          | Err e => Some (Err (ErrWrap "fs read file" e), fm)
          | Ok fh => internalparse (ReadFile depth) fm stat fh
          end
      end
  end.

(** [func (fm *fileManager) Open]. *)
Definition Open (depth : nat) (fm : t) (overlay : Overlay.t)
    : call fileHandle :=
  match filesystem.Open fm.(fs) overlay with
  | (Err e, fs) =>
      Some (Err (ErrWrap "fs open" e), mk fs fm.(parser) fm.(diagnosticClient))
  | (Ok fh, fs) =>
      ReadFile depth (mk fs fm.(parser) fm.(diagnosticClient)) (Handle.URI fh)
  end.

(** [func (fm *fileManager) Change]. *)
Definition Change (depth : nat) (fm : t) (overlay : Overlay.t)
    : call fileHandle :=
  match filesystem.Open fm.(fs) overlay with
  | (Err e, fs) =>
      Some (Err (ErrWrap "fs open" e), mk fs fm.(parser) fm.(diagnosticClient))
  | (Ok fh, fs) =>
      let fm := mk fs fm.(parser) fm.(diagnosticClient) in
      match Source_Stat (filesystem.Source fs) (Handle.URI fh) with
      | Err e => Some (Err (ErrWrap "fs stat file" e), fm)
      | Ok stat => internalparse (ReadFile depth) fm stat fh
      end
  end.

(** [func (fm *fileManager) Get]. *)
Definition Get (fm : t) (uri : string) : result fileHandle * t :=
  match Source_Stat (filesystem.Source fm.(fs)) uri with
  | Err e => (Err (ErrWrap "fs stat file" e), fm)
  | Ok stat =>
      match Source_ReadFile (filesystem.Source fm.(fs)) uri with
      | Err e => (Err (ErrWrap "fs read file" e), fm)
      | Ok fh =>
          let '(r, parser, dc) :=
            Parser.Parse fm.(parser) (filesystem.Resolver fm.(fs))
              fm.(diagnosticClient) (file.NormalURIStr stat.(Path)) fh in
          match r with
          | Err e =>
              (Err (ErrWrap "parser parse file" e), mk fm.(fs) parser dc)
          | Ok pf =>
              (Ok (mkFileHandle fh pf.(File.uri)), mk fm.(fs) parser dc)
          end
      end
  end.

(** [func (fm *fileManager) Close]. *)
Definition Close (fm : t) (uri : string) : t :=
  mk (filesystem.Close fm.(fs) uri) fm.(parser) fm.(diagnosticClient).

End fileManager.
End fileManager.

(* ===================================================================== *)
(** * Package buflsp: locations and go-to-definition *)

Section locations.
Context `{GoLib} `{LowerSources} `{ProtoCompile}.

(** [func source2locations]: a multi-source gives the locations of its
    sources, any other source the local path of its [Stat] when that
    succeeds. A [protocol.Location] is modelled by its URI (its range is the
    zero range). *)
Fixpoint source2locations (source : Source) (uri : string) : list string :=
  match source with
  | SMulti sources =>
      (fix each (ss : list Source) : list string :=
         match ss with
         | [] => []
         | s :: ss' => source2locations s uri ++ each ss'
         end) sources
  | _ =>
      match Source_Stat source uri with
      | Ok info => [info.(LocalPath)]
      | Err _ => []
      end
  end.

(** What [Stat] gives as the local path, if it finds the file. *)
Definition stat_location (s : Source) (uri : string) : option string :=
  match Source_Stat s uri with
  | Ok info => Some info.(LocalPath)
  | Err _ => None
  end.

(** [func (f *folder) Location]. *)
Definition folder_Location (f : folder.t) (uri : string) : list string :=
  source2locations (SOverlayFS f.(folder.overlayfs)) uri
  ++ source2locations f.(folder.modssource) uri.

(** [func (fs *filesystem) Location]. *)
Definition filesystem_Location (fs : filesystem.t) (uri : string)
    : list string :=
  flat_map (fun f => folder_Location f uri) fs.(filesystem.folders).

(** The import nodes among [ns], in order. *)
Definition import_nodes (ns : list Node) : list ImportNode :=
  flat_map (fun n => match n with NImport i => [i] | _ => [] end) ns.

(** [func (fm *fileManager) Definition], on the parsed file of the handle. *)
Definition fileManager_Definition (fm : fileManager.t) (pf : File.t)
    (pos : Position) : list string :=
  let ns := File.NodesAt pf pos in
  if (length ns =? 0)%nat then []
  else
    match import_nodes ns with
    | [] => []
    | imp :: _ =>
        filesystem_Location fm.(fileManager.fs)
          (file.NormalURIStr imp.(ImpName))
    end.

End locations.

(* ===================================================================== *)
(** * Package file: diskfile.go

    The disk source is a read-through cache over the bucket of the root
    directory. The bucket is the host's file system and may change between
    two calls: every call is given the bucket as it is at that time. *)

Module diskSource.
Section diskSource.
Context `{GoLib}.

(** [storage.ReadWriteBucket], by the calls of the source: [Stat], and
    [Get] with the [io.ReadAll] of the object it returns. *)
Record Bucket := mkBucket {
  bucket_Stat : string -> result ObjectInfo;
  bucket_Get : string -> result (ObjectInfo * result string);
}.

(** [type diskFile struct]. *)
Record diskFile := mkDiskFile {
  objectinfo : ObjectInfo;
  simple : simplefile.t;
}.

(** [type diskSource struct]: the files read so far, by document URI. *)
Record t := mk {
  files : gmap string diskFile;
}.

(** [func NewDiskSource]. *)
Definition NewDiskSource : t := mk ∅.

(** [ErrorInvalidURI(uri, ErrInvalidURIReasonOnlyAcceptDocumentURI)], by
    its message. *)
Definition ErrorInvalidURI (uri : string) : error :=
  ErrMsg ("invalid URI: `" +:+ uri +:+ "`, only accept DocumentURI").

(** [func (d *diskSource) Close]. *)
Definition Close (d : t) (uri : string) : t := mk (delete uri d.(files)).

(** [func (d *diskSource) Stat]. *)
Definition Stat (b : Bucket) (d : t) (uri : string) : result ObjectInfo :=
  if negb (file.IsDocumentURI uri) then Err (ErrorInvalidURI uri)
  else
    match d.(files) !! uri with
    | Some df => Ok df.(objectinfo)
    | None => b.(bucket_Stat) (uri_Filename uri)
    end.

(** [func (d *diskSource) ReadFile]. The error of the bucket's [Stat] is
    replaced by [os.ErrNotExist]; an error of [Get] or of the read is kept
    in the file, which is cached all the same. *)
Definition ReadFile (b : Bucket) (d : t) (uri : string)
    : result diskFile * t :=
  if negb (file.IsDocumentURI uri) then (Err (ErrorInvalidURI uri), d)
  else
    match d.(files) !! uri with
    | Some df => (Ok df, d)
    | None =>
        let p := uri_Filename uri in
        match b.(bucket_Stat) p with
        | Err _ =>
            (Err (ErrWrap ("stat file uri: `" +:+ uri +:+ "`") ErrNotExist), d)
        | Ok stat =>
            let df :=
              match b.(bucket_Get) p with
              | Err e => mkDiskFile stat (simplefile.mk uri "" (Some e))
              | Ok (f, Err e) => mkDiskFile stat (simplefile.mk uri "" (Some e))
              | Ok (f, Ok content) =>
                  mkDiskFile f (simplefile.mk uri content None)
              end in
            (Ok df, mk (<[uri := df]> d.(files)))
        end
    end.

End diskSource.
End diskSource.

(* ===================================================================== *)
(** * Package file: file.go, the source of a module

    The module is external: [infos] are its file infos in the order
    [WalkFileInfos] visits them, [walk_err] the error of the walk if it
    fails, and [GetFile] the file of a path with the [io.ReadAll] of it. *)

Module modSource.
Section modSource.
Context `{GoLib}.

(** [strings.EqualFold]. *)
Variable EqualFold : string -> string -> bool.

(** [bufmodule.FileInfo], by the methods the source calls. *)
Record FileInfo := mkFileInfo {
  fi_Path : string;
  fi_LocalPath : string;
  fi_ExternalPath : string;
  fi_IsProto : bool;
}.

(** [bufmodule.Module]. *)
Record Module_ := mkModule {
  infos : list FileInfo;
  walk_err : option error;
  GetFile : string -> result (FileInfo * result string);
}.

(** [type modfile struct]. *)
Record modfile := mkModfile {
  fileinfo : FileInfo;
  simple : simplefile.t;
}.

(** [func (f *modfile) Path]. *)
Definition Path (f : modfile) : string := f.(fileinfo).(fi_Path).

(** [type modSource struct]: the files read so far, by the URI they were
    asked with and by their path in the module. *)
Record t := mk {
  urifiles : gmap string modfile;
  relfiles : gmap string modfile;
}.

(** [func NewModSource]. *)
Definition NewModSource : t := mk ∅ ∅.

(** [func (s *modSource) trylocal]. *)
Definition trylocal (s : t) (uri : string) : option modfile :=
  match s.(urifiles) !! uri with
  | Some f => Some f
  | None => s.(relfiles) !! uri
  end.

(** The callback of the walk in [internalstat]. *)
Definition pick (isdoc : bool) (filename : string) (fi : option FileInfo)
    (info : FileInfo) : option FileInfo :=
  if negb info.(fi_IsProto) then fi
  else if isdoc then
    if EqualFold filename info.(fi_LocalPath) then Some info else fi
  else
    if EqualFold filename info.(fi_Path) then Some info else fi.

(** [func (s *modSource) internalstat]. *)
Definition internalstat (m : Module_) (uri : string) : result FileInfo :=
  let uri := file.NormalURI uri in
  let isdoc := file.IsDocumentURI uri in
  let filename := file.URI2Filename uri in
  match m.(walk_err) with
  | Some e => Err (ErrWrap "module walk" e)
  | None =>
      match fold_left (pick isdoc filename) m.(infos) None with
      | None => Err (ErrWrap ("stat file uri: `" +:+ uri +:+ "`") ErrNotExist)
      | Some fi => Ok fi
      end
  end.

(** [func (s *modSource) ReadFile]. *)
Definition ReadFile (m : Module_) (s : t) (uri : string)
    : result modfile * t :=
  match trylocal s uri with
  | Some f => (Ok f, s)
  | None =>
      match internalstat m uri with
      | Err e => (Err e, s)
      | Ok stat =>
          let mf :=
            match m.(GetFile) stat.(fi_Path) with
            | Err e => mkModfile stat (simplefile.mk uri "" (Some e))
            | Ok (f, Err e) => mkModfile stat (simplefile.mk uri "" (Some e))
            | Ok (f, Ok content) =>
                mkModfile f (simplefile.mk uri content None)
            end in
          (Ok mf,
           mk (<[mf.(simple).(simplefile.uri) := mf]> s.(urifiles))
              (<[Path mf := mf]> s.(relfiles)))
      end
  end.

(** [func (s *modSource) closefile]. *)
Definition closefile (s : t) (f : modfile) : t :=
  mk (delete f.(simple).(simplefile.uri) s.(urifiles))
     (delete (Path f) s.(relfiles)).

(** [func (s *modSource) Close]. *)
Definition Close (s : t) (uri : string) : t :=
  match trylocal s uri with
  | Some f => closefile s f
  | None => s
  end.

(** [func (s *modSource) Stat]. *)
Definition Stat (m : Module_) (s : t) (uri : string) : result FileInfo :=
  match trylocal s uri with
  | Some f => Ok f.(fileinfo)
  | None => internalstat m uri
  end.

(** The file info is the one [internalstat] compares [filename] with. *)
Definition matches (isdoc : bool) (filename : string) (info : FileInfo)
    : bool :=
  info.(fi_IsProto) &&
  EqualFold filename (if isdoc then info.(fi_LocalPath) else info.(fi_Path)).

End modSource.
End modSource.

(* ===================================================================== *)
(** * Package buflsp: the handlers of the server *)

(** [protocol.DidChangeTextDocumentParams], by the fields the handler reads:
    the URI and version of the document, and the texts of the changes. *)
Record DidChangeTextDocumentParams := mkDidChange {
  TextDocumentURI : string;
  TextDocumentVersion : Z;
  ContentChanges : list string;
}.

(** [protocol.DidOpenTextDocumentParams]. *)
Record DidOpenTextDocumentParams := mkDidOpen {
  OpenURI : string;
  OpenText : string;
  OpenVersion : Z;
}.

Module server.
Section server.
Context `{GoLib} `{LowerSources} `{ProtoCompile}.

(** The state of the server the handlers work on is the file manager. *)

(** [func (s *server) DidOpen]. *)
Definition DidOpen (depth : nat) (s : fileManager.t)
    (params : DidOpenTextDocumentParams) : fileManager.call unit :=
  let ol := Overlay.NewOverlay params.(OpenURI) params.(OpenText)
              params.(OpenVersion) in
  match fileManager.Open depth s ol with
  | None => None
  | Some (Err e, s) => Some (Err (ErrWrap "file manager open" e), s)
  | Some (Ok _, s) => Some (Ok tt, s)
  end.

(** [func (s *server) DidChange]. *)
Definition DidChange (depth : nat) (s : fileManager.t)
    (params : DidChangeTextDocumentParams) : fileManager.call unit :=
  match params.(ContentChanges) with
  | [] => Some (Ok tt, s)
  | change :: _ =>
      let ol := Overlay.NewOverlay params.(TextDocumentURI) change
                  params.(TextDocumentVersion) in
      match fileManager.Change depth s ol with
      | None => None
      | Some (Err e, s) => Some (Err (ErrWrap "file manager change" e), s)
      | Some (Ok _, s) => Some (Ok tt, s)
      end
  end.


End server.
End server.

(* ===================================================================== *)
(** * Package buflsp: the semantic tokens of a file handle *)

Module tokens.
Import SemanticTokens.

(** [func (fh *fileHandle) node2tok], on the node info of the node: the
    token starts at the zero-based start of the node and has the length of
    its raw text in bytes. *)
Definition node2tok (ni : NodeInfo) (typ : Z) (ms : list Z) : SemanticToken :=
  let start := position.ToPosition (position.NewZeroBaseSourcePos ni.(NStart)) in
  mkTok start.(PLine) start.(Character)
    (uint32_wrap (Z.of_nat (String.length ni.(RawText))))
    ni.(RawText) typ ms.

(** The tokens of a list of nodes with their types and modifiers. *)
Definition node_tokens (nodes : list (NodeInfo * Z * list Z))
    : list SemanticToken :=
  map (fun n => node2tok n.1.1 n.1.2 n.2) nodes.

(** The start of the node is a position of a file: line and column from 1,
    and below [2^32]. *)
Definition starts_in_file (ni : NodeInfo) : Prop :=
  1 <= ni.(NStart).(SLine) < 2 ^ 32 /\ 1 <= ni.(NStart).(Col) < 2 ^ 32.

(** [a] does not start after [b]. *)
Definition starts_le (a b : NodeInfo) : Prop :=
  a.(NStart).(SLine) < b.(NStart).(SLine) \/
  (a.(NStart).(SLine) = b.(NStart).(SLine) /\
   a.(NStart).(Col) <= b.(NStart).(Col)).

(** Go's conversion [int(x)] of a [uint32] to an [int] of [size] bits (64
    on the 64-bit platforms, 32 on the 32-bit ones). *)
Definition int_of_uint32 (size : Z) (x : Z) : Z :=
  let m := x mod 2 ^ size in
  if m <? 2 ^ (size - 1) then m else m - 2 ^ size.

(** The comparison function [SemanticTokens] sorts with:
    [int(left.Line - right.Line)] when the lines differ, and
    [int(left.Start - right.Start)] otherwise; the subtractions are those of
    [uint32]. *)
Definition compare (size : Z) (left right : SemanticToken) : Z :=
  if negb (left.(Line) =? right.(Line))
  then int_of_uint32 size (uint32_wrap (left.(Line) - right.(Line)))
  else int_of_uint32 size (uint32_wrap (left.(Start) - right.(Start))).

(** The decoder of the integer encoding in [uint32] arithmetic. *)
Fixpoint decode_wrapping (line start : Z) (data : list Z)
    : list (Z * Z * Z * Z * Z) :=
  match data with
  | dl :: ds :: len :: ty :: md :: rest =>
      let line' := uint32_wrap (line + dl) in
      let start' := if dl =? 0 then uint32_wrap (start + ds) else ds in
      (line', start', len, ty, md) :: decode_wrapping line' start' rest
  | _ => []
  end.

End tokens.

(* ===================================================================== *)
(** * A host and a workspace to run the model on

    [unix] is the library on a Unix host, written for the paths the examples
    use: slash-separated, without [.] and [..] elements, doubled or trailing
    slashes, and file URIs with an empty authority. [disk] is a lower source
    holding the files of a directory. [toy] is a parser for a toy grammar:
    statements separated by [;], of which [import PATH] and [package NAME]
    are read and everything else is kept as an opaque node, one statement
    per line of the positions it reports. *)

Module unix.

(** The elements of a path, split at [/]. *)
Fixpoint elements (s : string) : list string :=
  match s with
  | EmptyString => [EmptyString]
  | String c s' =>
      if Ascii.eqb c "/" then EmptyString :: elements s'
      else match elements s' with
           | [] => [String c EmptyString]
           | x :: xs => String c x :: xs
           end
  end.

Definition nonempty (s : string) : bool := negb (String.eqb s "").

Fixpoint join (sep : string) (l : list string) : string :=
  match l with
  | [] => ""
  | [x] => x
  | x :: rest => x +:+ sep +:+ join sep rest
  end.

(** The elements that follow the common prefix of two paths. *)
Fixpoint strip_common (bs ts : list string) : list string * list string :=
  match bs, ts with
  | b :: bs', t :: ts' =>
      if String.eqb b t then strip_common bs' ts' else (bs, ts)
  | _, _ => (bs, ts)
  end.

Definition IsAbs (p : string) : bool := golib.HasPrefix p "/".

(** [filepath.Rel]: an error only when one path is absolute and the other
    is not; otherwise [..] for every remaining element of the base, then the
    remaining elements of the target. *)
Definition Rel (base targ : string) : option string :=
  if negb (Bool.eqb (IsAbs base) (IsAbs targ)) then None
  else
    let '(bs, ts) := strip_common (List.filter nonempty (elements base))
                       (List.filter nonempty (elements targ)) in
    match map (fun _ => "..") bs ++ ts with
    | [] => Some "."
    | l => Some (join "/" l)
    end.

Definition Join (a b : string) : string :=
  join "/" (List.filter nonempty [a; b]).

(** The path of a file URI: what follows [file://] and the authority. *)
Fixpoint after_authority (s : string) : string :=
  match s with
  | EmptyString => EmptyString
  | String c s' => if Ascii.eqb c "/" then s else after_authority s'
  end.

Fixpoint drop_string (n : nat) (s : string) : string :=
  match n, s with
  | S n', String _ s' => drop_string n' s'
  | _, _ => s
  end.

Definition Filename (u : string) : string :=
  let p := after_authority (drop_string 7 u) in
  match golib.PathUnescape p with Some q => q | None => p end.

(** [uri.File] with [cwd] the working directory. *)
Definition File (cwd : string) (path : string) : string :=
  golib.file_URL_String (if IsAbs path then path else Join cwd path).

Definition lib (cwd : string) : GoLib := {|
  uri_File := File cwd;
  uri_Filename := Filename;
  filepath_IsAbs := IsAbs;
  filepath_Join := Join;
  filepath_Rel := Rel;
|}.

End unix.

Module disk.

(** A directory of files: the content of each, by its path under [root].
    A document URI is looked up by its path relative to [root], any other
    URI as a path under [root]. *)
Record t := mk {
  root : string;
  contents : gmap string string;
}.

Definition path_of (d : t) (uri : string) : string :=
  if golib.HasPrefix uri "file://"
  then default "" (unix.Rel d.(root) (unix.Filename uri))
  else uri.

Definition ReadFile (d : t) (uri : string) : result simplefile.t :=
  match d.(contents) !! path_of d uri with
  | Some c => Ok (simplefile.mk uri c None)
  | None => Err ErrNotExist
  end.

Definition Stat (d : t) (uri : string) : result ObjectInfo :=
  match d.(contents) !! path_of d uri with
  | Some _ =>
      Ok (mkObjectInfo (path_of d uri) ""
            (unix.Join d.(root) (path_of d uri)))
  | None => Err ErrNotExist
  end.

Definition lower : LowerSources := {|
  Lower := t;
  lower_ReadFile := ReadFile;
  lower_Stat := Stat;
|}.

End disk.

Module toy.

(** The statements of a file, split at [;]. *)
Fixpoint statements (s : string) : list string :=
  match s with
  | EmptyString => [EmptyString]
  | String c s' =>
      if Ascii.eqb c ";" then EmptyString :: statements s'
      else match statements s' with
           | [] => [String c EmptyString]
           | x :: xs => String c x :: xs
           end
  end.

(** The node of the statement on line [line]. *)
Definition node_of (line : Z) (stmt : string) : Node :=
  let info := mkNodeInfo (mkSourcePos line 1)
                (mkSourcePos line (1 + Z.of_nat (String.length stmt))) stmt in
  if golib.HasPrefix stmt "import "
  then NImport (mkImportNode (unix.drop_string 7 stmt) info)
  else if golib.HasPrefix stmt "package "
  then NPackage (mkPackageNode (unix.drop_string 8 stmt) info)
  else NOther "stmt" info.

Fixpoint nodes_from (line : Z) (stmts : list string) : list Node :=
  match stmts with
  | [] => []
  | s :: rest =>
      if String.eqb s "" then nodes_from (line + 1) rest
      else node_of line s :: nodes_from (line + 1) rest
  end.

Definition Parse (filename content : string) : list Report * Outcome FileNode :=
  ([], Done (mkFileNode (nodes_from 1 (statements content))) false).

Definition protocompile : ProtoCompile := {|
  ParserResult := unit;
  Symbols := unit;
  LinkerFile := unit;
  parser_Parse := Parse;
  parser_ResultFromAST := fun _ => ([], Done tt false);
  compiler_Compile := fun _ _ => ([], tt, Done (Some tt) false);
|}.

End toy.

(** A workspace folder [/w] on the host: the directory holds [b.proto] and
    the module of the folder exposes it; the editor buffers are overlays. *)
Module example.

#[export] Instance golib_unix : GoLib := unix.lib "/w".
#[export] Instance lower_disk : LowerSources := disk.lower.
#[export] Instance protocompile_toy : ProtoCompile := toy.protocompile.

Definition dir : disk.t :=
  disk.mk "/w" {[ "b.proto"%string := "package p;message A"%string ]}.

Definition dir_source : Source := SLower dir.

Definition overlayfs : OverlayFS := NewOverlayFS "/w" dir_source.

Definition mods : Source := NewMultiSource [dir_source].

Definition folder_w : folder.t := folder.mk "w" "file:///w" overlayfs mods.

Definition fm : fileManager.t :=
  fileManager.newFileManager (filesystem.mk [folder_w]).

(** The editor's buffer of [b.proto], differing from the file on disk. *)
Definition b_overlay : Overlay.t :=
  Overlay.mk "/w" "file:///w/b.proto" "package p;message B" 1.

(** A buffer of [a.proto] that imports [a.proto]. *)
Definition a_self : DidOpenTextDocumentParams :=
  mkDidOpen "file:///w/a.proto" "package p;import a.proto;message A" 1.

(** Handles of [a.proto] at versions 5 and 3. *)
Definition a_v5 : Handle :=
  HOverlay (Overlay.mk "/w" "file:///w/a.proto" "package p;message A" 5).

Definition a_v3 : Handle :=
  HOverlay (Overlay.mk "/w" "file:///w/a.proto" "package q;message Z" 3).

(** A parsed file with a message over the lines 0 to 10 (one-based 1 to 11)
    and, inside it, a field on line 5. *)
Definition message_node : Node :=
  NOther "*ast.MessageNode"
    (mkNodeInfo (mkSourcePos 1 1) (mkSourcePos 11 2) "message").

Definition field_node : Node :=
  NOther "*ast.FieldNode"
    (mkNodeInfo (mkSourcePos 6 3) (mkSourcePos 6 19) "string name = 1;").

Definition nested : File.t :=
  File.mk None noopReporter None None "a.proto" None 1
    (Some (mkFileNode [message_node; field_node])) None None [].


(** The tokens of [message Foo { string name = 1; }] on line 0, and a
    keyword on line 2. *)
Definition tokens : list SemanticTokens.SemanticToken :=
  [ SemanticTokens.mkTok 0 0 7 "message" 10 [];
    SemanticTokens.mkTok 0 8 3 "Foo" 3 [1];
    SemanticTokens.mkTok 0 14 6 "string" 1 [1];
    SemanticTokens.mkTok 0 21 4 "name" 7 [1];
    SemanticTokens.mkTok 0 28 1 "1" 13 [];
    SemanticTokens.mkTok 2 4 6 "option" 10 [] ].

(** A buffer of [a.proto] that imports [b.proto]. *)
Definition a_imports_b : DidOpenTextDocumentParams :=
  mkDidOpen "file:///w/a.proto" "package p;import b.proto;message A" 1.

(** The buffer of [a_self] as the overlay file system of [/w] stores it,
    and the file system once it is open. *)
Definition a_self_overlay : Overlay.t :=
  Overlay.mk "/w" "file:///w/a.proto" "package p;import a.proto;message A" 1.

Definition fs_self : filesystem.t :=
  filesystem.mk
    [folder.mk "w" "file:///w"
       (mkOverlayFS "/w" dir_source
          {[ "file:///w/a.proto"%string := a_self_overlay ]})
       mods].

(** What a call has left, when it has returned without an error: the
    versions of [a.proto] and [b.proto] in the cache and the URIs the client
    has been sent diagnostics for. *)
Definition left_by (c : fileManager.call unit)
    : option (option Z * option Z * list string) :=
  match c with
  | Some (Ok _, s) =>
      Some (Parser.version_of s.(fileManager.parser) "a.proto",
            Parser.version_of s.(fileManager.parser) "b.proto",
            PURI <$> s.(fileManager.diagnosticClient).(DiagnosticClient.sent))
  | _ => None
  end.


(** The resolver of the example workspace. *)
Definition resolver : string -> result string :=
  filesystem.Resolver fm.(fileManager.fs).

End example.

(** A library that warns, on the first character of every file it parses,
    that the file has no syntax statement; its syntax trees are those of
    [toy]. *)
Module noisy.

Definition Parse (filename content : string) : list Report * Outcome FileNode :=
  ([RWarning (mkSourcePos 1 1) (mkSourcePos 1 2) "no syntax specified"],
   (toy.Parse filename content).2).

Definition protocompile : ProtoCompile := {|
  ParserResult := unit;
  Symbols := unit;
  LinkerFile := unit;
  parser_Parse := Parse;
  parser_ResultFromAST := fun _ => ([], Done tt false);
  compiler_Compile := fun _ _ => ([], tt, Done (Some tt) false);
|}.

End noisy.

(** More of the example workspace. *)
Module scenario.
Import example.

(** A newer buffer of [a.proto], at version 7, that imports [b.proto]. *)
Definition a_v7 : Handle :=
  HOverlay
    (Overlay.mk "/w" "file:///w/a.proto" "package p;import b.proto;message A" 7).

(** The cached file of [a.proto], parsed at version 5 with an import of
    [c.proto], once it holds the handle [a_v7]. *)
Definition c_import : ImportNode :=
  mkImportNode "c.proto"
    (mkNodeInfo (mkSourcePos 2 1) (mkSourcePos 2 15) "import c.proto").

Definition a_stale : File.t :=
  File.mk (Some a_v7) (fileReporter a_v7) None None "a.proto"
    (Some "package p;import c.proto;message A"%string) 5
    (Some (mkFileNode [NImport c_import])) None None [c_import].

(** The parser after [a.proto] has been parsed from the handle [a_v5], in
    which it names the package [p]. *)
Definition parser_a_in_p : Parser.t :=
  (Parser.Parse Parser.NewParser resolver DiagnosticClient.NewDiagnosticClient
     "a.proto" a_v5).1.2.

(** The file system of the folder [/w] with the buffer of [a_imports_b]
    open. *)
Definition a_imports_b_overlay : Overlay.t :=
  Overlay.mk "/w" "file:///w/a.proto" "package p;import b.proto;message A" 1.

Definition fs_ab : filesystem.t :=
  filesystem.mk
    [folder.mk "w" "file:///w"
       (mkOverlayFS "/w" dir_source
          {[ "file:///w/a.proto"%string := a_imports_b_overlay ]})
       mods].

(** The bucket of the host with the file [/w/b.proto], and the bucket after
    the file has been rewritten. *)
Definition b_info : ObjectInfo :=
  mkObjectInfo "w/b.proto" "/w/b.proto" "/w/b.proto".

Definition bucket_with (content : string) : diskSource.Bucket :=
  diskSource.mkBucket
    (fun p => if String.eqb p "/w/b.proto" then Ok b_info else Err ErrNotExist)
    (fun p => if String.eqb p "/w/b.proto" then Ok (b_info, Ok content)
              else Err ErrNotExist).

Definition b_disk_file : diskSource.diskFile :=
  diskSource.mkDiskFile b_info
    (simplefile.mk "file:///w/b.proto" "package p;message A" None).

(** A module with [b.proto] and a file that is not a proto file, and the
    module file of [b.proto]. *)
Definition b_fileinfo : modSource.FileInfo :=
  modSource.mkFileInfo "b.proto" "/w/b.proto" "/w/b.proto" true.

Definition module_with (content : string) : modSource.Module_ :=
  modSource.mkModule
    [b_fileinfo; modSource.mkFileInfo "b.proto" "/w/b.txt" "/w/b.txt" false]
    None
    (fun p => if String.eqb p "b.proto" then Ok (b_fileinfo, Ok content)
              else Err ErrNotExist).

Definition b_mod_file : modSource.modfile :=
  modSource.mkModfile b_fileinfo
    (simplefile.mk "b.proto" "package p;message A" None).

(** The files of the package [n] of a parser. *)
Definition files_of (p : Parser.t) (n : string) : option (list string) :=
  (fun pk => elements pk.(Package.files)) <$> p.(Parser.pkgs) !! n.

End scenario.

(* ===================================================================== *)
(** * Notions the properties are stated with *)

Section notions.
Context `{GoLib} `{LowerSources} `{ProtoCompile}.


(** A URI no escape of which [url.PathUnescape] decodes: unescaping fails
    or gives the URI back. *)
Definition unescaped (u : string) : Prop :=
  forall u', golib.PathUnescape u = Some u' -> u' = u.





(** [f] is what a successful [File.Parse] makes of a reset file of handle
    [h]: the content and version of the handle, the syntax tree of the
    content, its package and its imports. *)
Definition parsed_from (h : Handle) (f : File.t) : Prop :=
  exists content reps fn inv reps' res inv',
    Handle.Content h = Ok content /\
    parser_Parse (file.URI2Filename f.(File.uri)) content = (reps, Done fn inv) /\
    parser_ResultFromAST fn = (reps', Done res inv') /\
    f.(File.handle) = Some h /\
    f.(File.version) = Handle.Version h /\
    f.(File.content) = Some content /\
    f.(File.fn) = Some fn /\
    f.(File.pkg) = (fold_left File.visit fn.(walk) (None, [])).1 /\
    f.(File.imports) = (fold_left File.visit fn.(walk) (None, [])).2.

(** The handle cannot be read, or the library fails on its content. *)
Definition parse_fails (h : Handle) (uri : string) : Prop :=
  match Handle.Content h with
  | Err _ => True
  | Ok content =>
      match (parser_Parse (file.URI2Filename uri) content).2 with
      | Failed _ => True
      | Done fn _ =>
          match (parser_ResultFromAST fn).2 with
          | Failed _ => True
          | Done _ _ => False
          end
      end
  end.

(** A file [Parse] has just reset or created. *)
Definition is_reset (h : Handle) (f : File.t) : Prop :=
  f.(File.handle) = Some h /\ f.(File.fn) = None /\
  f.(File.version) = File.FileInitVersion /\ f.(File.content) = None /\
  f.(File.pkg) = None /\ f.(File.imports) = [].

(** Every URI of [U] is read and parsed without error from the file system
    [fs], and the first import of its file is again a URI of [U]. *)
Definition first_import_loop (fs : filesystem.t) (U : string -> Prop) : Prop :=
  forall u, U u ->
    exists stat fh content reps fn inv reps' res inv' imp rest,
      Source_Stat (filesystem.Source fs) u = Ok stat /\
      Source_ReadFile (filesystem.Source fs) u = Ok fh /\
      Handle.Content fh = Ok content /\
      parser_Parse (file.URI2Filename (file.NormalURIStr stat.(Path))) content
        = (reps, Done fn inv) /\
      parser_ResultFromAST fn = (reps', Done res inv') /\
      (fold_left File.visit fn.(walk) (None, [])).2 = imp :: rest /\
      U (file.NormalURIStr imp.(ImpName)).

(** The imports [ReadFile] goes on to read after it has read [u] from the
    file system [fs]: those of the syntax tree of [u], when [u] is found,
    read and parsed without error, and none otherwise. *)
Definition imports_at (fs : filesystem.t) (u : string) : list string :=
  match Source_Stat (filesystem.Source fs) u,
        Source_ReadFile (filesystem.Source fs) u with
  | Ok stat, Ok fh =>
      match Handle.Content fh with
      | Ok content =>
          match (parser_Parse
                   (file.URI2Filename (file.NormalURIStr stat.(Path)))
                   content).2 with
          | Done fn _ =>
              match (parser_ResultFromAST fn).2 with
              | Done _ _ =>
                  map (fun im => file.NormalURIStr im.(ImpName))
                    (fold_left File.visit fn.(walk) (None, [])).2
              | Failed _ => []
              end
          | Failed _ => []
          end
      | Err _ => []
      end
  | _, _ => []
  end.

(** The state of the file manager during a walk over [fs]. *)
Definition walking (fs : filesystem.t) (fm : fileManager.t) : Prop :=
  fm.(fileManager.fs) = fs /\ Parser.wf fm.(fileManager.parser).

(** [ReadFile] returns on [u] at every depth from [depth] on. *)
Definition returns_from (fs : filesystem.t) (u : string) (depth : nat) : Prop :=
  forall d fm, (depth <= d)%nat -> walking fs fm ->
    exists r fm', fileManager.ReadFile d fm u = Some (r, fm') /\ walking fs fm'.

End notions.

Section more_notions.
Context `{GoLib} `{ProtoCompile}.

(** The package nodes among [ns], in order. *)
Definition package_nodes (ns : list Node) : list PackageNode :=
  flat_map (fun n => match n with NPackage p => [p] | _ => [] end) ns.

(** The reporter of the file [Parser.Parse] works on for [uri]: the one of
    the cached file, or the one [newFile] gives a new file for the handle. *)
Definition reporter_of (p : Parser.t) (uri : string) (h : Handle) : Reporter :=
  match p.(Parser.files) !! uri with
  | Some f => f.(File.reporter)
  | None => (File.newFile uri (Some h) (fileReporter h)).(File.reporter)
  end.

(** The cached files of [descriptor.proto] have the reporter that drops
    what it is told. *)
Definition descriptor_quiet (p : Parser.t) : Prop :=
  forall k f, p.(Parser.files) !! k = Some f ->
    File.Contains (file.URI2Filename k) File.descriptorPath = true ->
    f.(File.reporter) = noopReporter.

End more_notions.

(** The diagnostics [dc'] differ from [dc] by what the reporter [r] has
    added: nothing has been sent, a [noopReporter] has changed nothing and a
    [fileReporter] only the diagnostics of the URI of its handle. *)
Definition reports_only_for (r : Reporter) (dc dc' : DiagnosticClient.t)
    : Prop :=
  dc'.(DiagnosticClient.sent) = dc.(DiagnosticClient.sent) /\
  match r with
  | noopReporter => dc' = dc
  | fileReporter h0 =>
      forall u, u <> Handle.URI h0 ->
        dc'.(DiagnosticClient.cache) !! u = dc.(DiagnosticClient.cache) !! u
  end.

Section call_notions.
Context `{GoLib} `{LowerSources} `{ProtoCompile}.

(** The call has returned, and without an error. *)
Definition returned_ok {A : Type} (c : fileManager.call A) : bool :=
  match c with
  | Some (Ok _, _) => true
  | _ => false
  end.

End call_notions.

(* ===================================================================== *)
(** * Properties *)

(** ** URI normalisation *)

Section uri_properties.
Context `{GoLib}.






(** A string without [%] is left as it is by [url.PathUnescape]. *)
Lemma PathUnescape_no_percent (s : string) :
  golib.no_percent s = true -> golib.PathUnescape s = Some s.
Proof.
  induction s as [|c s IH]; intros Hs; [reflexivity|].
  cbn in Hs |- *. apply andb_prop in Hs as [Hc Hs].
  apply negb_true_iff in Hc. rewrite Hc, (IH Hs). reflexivity.
Qed.

Lemma no_percent_unescaped (u : string) :
  golib.no_percent u = true -> unescaped u.
Proof.
  intros Hu u' E. rewrite (PathUnescape_no_percent u Hu) in E. congruence.
Qed.

(** A relative path that does not start with [file] is its own normal form. *)
Lemma NormalURIStr_relative (s : string) :
  golib.HasPrefix s uri_FileScheme = false ->
  filepath_IsAbs s = false ->
  file.NormalURIStr s = s.
Proof. intros E1 E2. unfold file.NormalURIStr. rewrite E1, E2. reflexivity. Qed.

End uri_properties.




(** ** Semantic tokens *)

Section semantic_token_properties.
Import SemanticTokens.

Lemma uint32_wrap_small z : 0 <= z < 2 ^ 32 -> uint32_wrap z = z.
Proof. intros H. unfold uint32_wrap. apply Z.mod_small. exact H. Qed.

(** One loop iteration fills the next five cells of the array. *)
Lemma enc_step_cells all out rest last item :
  (length out = 0%nat -> all !! 0%nat = Some item) ->
  enc_step all (mkEnc (out ++ replicate 5 0 ++ rest) (length out) last) item =
  mkEnc ((out ++ enc_cells (length out =? 0)%nat last item) ++ rest)
        (length out + 5)%nat item.
Proof.
  intros Hhd. unfold enc_step, enc_cells. cbn [j x SemanticTokens.last].
  f_equal.
  destruct (Nat.eqb_spec (length out) 0) as [E|E].
  - destruct out; [|discriminate]. cbn [length] in *.
    rewrite (list_lookup_total_correct _ _ _ (Hhd eq_refl)).
    reflexivity.
  - assert ((0 <? length out)%nat = true) as -> by (apply Nat.ltb_lt; lia).
    cbn [negb andb].
    rewrite !insert_app_r_alt by lia.
    rewrite lookup_total_app_r by lia.
    rewrite Nat.sub_diag, !Nat.add_sub'. cbn [replicate app].
    change (_ !!! 0%nat) with (uint32_wrap (Line item - Line last)).
    destruct (uint32_wrap (Line item - Line last) =? 0);
      rewrite !insert_app_r_alt by lia;
      rewrite !Nat.add_sub'; rewrite <- app_assoc; reflexivity.
Qed.

(** The array loop computes the stream of five-integer cells. *)
Lemma enc_fold all suf : forall out last,
  (length out = 0%nat -> all = suf) ->
  let st := fold_left (enc_step all) suf
              (mkEnc (out ++ replicate (5 * length suf) 0) (length out) last) in
  st.(x) = out ++ enc_stream (length out =? 0)%nat last suf /\
  st.(j) = length st.(x).
Proof.
  induction suf as [|item rest IH]; intros out last Hall; cbn zeta.
  - cbn. rewrite app_nil_r. auto.
  - cbn [fold_left].
    replace (5 * length (item :: rest))%nat with (5 + 5 * length rest)%nat
      by (cbn [length]; lia).
    rewrite replicate_add, enc_step_cells.
    2:{ intros E. rewrite (Hall E). reflexivity. }
    specialize (IH (out ++ enc_cells (length out =? 0)%nat last item) item).
    rewrite length_app in IH. cbn [enc_cells length] in IH.
    cbn zeta in IH. 
    destruct IH as [IHx IHj]; [lia|].
    replace (length out + 5 =? 0)%nat with false in IHx
      by (symmetry; apply Nat.eqb_neq; lia).
    split; [|exact IHj].
    rewrite IHx. cbn [enc_stream]. rewrite <- app_assoc. reflexivity.
Qed.

Lemma encode_array toks :
  EncodeSemanticTokens toks = enc_stream true zeroToken toks.
Proof.
  unfold EncodeSemanticTokens.
  destruct (enc_fold toks toks [] zeroToken (fun _ => eq_refl)) as [Hx Hj].
  cbn [app length] in Hx, Hj. cbn zeta.
  rewrite Hj, firstn_all. exact Hx.
Qed.

Lemma decode_stream toks : forall first last line start,
  match first return Prop with
  | true => line = 0 /\ start = 0
  | false => line = last.(Line) /\ start = last.(Start) /\ tok_wf last /\
        match toks with [] => True | t :: _ => tok_le last t end
  end ->
  Forall tok_wf toks ->
  Sorted tok_le toks ->
  decode_from line start (enc_stream first last toks) = map tuple_of toks.
Proof.
  induction toks as [|item rest IH]; intros first last line start Hpos Hwf Hs.
  - reflexivity.
  - cbn [enc_stream enc_cells app map decode_from].
    inversion Hwf as [|? ? [HL HS] Hwf']; subst.
    inversion Hs as [|? ? Hs' Hhd]; subst.
    assert (line + (if first then Line item
                    else uint32_wrap (Line item - Line last)) = Line item) as EL.
    { destruct first; [lia|].
      destruct Hpos as (-> & _ & [HLl _] & Hle).
      rewrite uint32_wrap_small; [lia|].
      unfold is_uint32, tok_le in *. lia. }
    assert ((if (if first then Line item
                 else uint32_wrap (Line item - Line last)) =? 0
             then start + (if negb first &&
                     ((if first then Line item
                      else uint32_wrap (Line item - Line last)) =? 0)
                   then uint32_wrap (Start item - Start last) else Start item)
             else (if negb first &&
                     ((if first then Line item
                      else uint32_wrap (Line item - Line last)) =? 0)
                   then uint32_wrap (Start item - Start last) else Start item))
            = Start item) as ES.
    { destruct first; cbn [negb andb].
      - destruct (Line item =? 0); lia.
      - destruct Hpos as (-> & -> & [HLl HSl] & Hle).
        rewrite (uint32_wrap_small (Line item - Line last))
          by (unfold is_uint32, tok_le in *; lia).
        destruct (Z.eqb_spec (Line item - Line last) 0) as [E|E]; [|reflexivity].
        rewrite uint32_wrap_small; [lia|].
        unfold is_uint32, tok_le in *. lia. }
    rewrite EL, ES. unfold tuple_of at 1. f_equal.
    apply IH; [|exact Hwf'|exact Hs'].
    refine (conj eq_refl (conj eq_refl (conj (conj HL HS) _))).
    destruct rest; [exact I|]. inversion Hhd; subst. assumption.
Qed.


Example encode_tokens :
  EncodeSemanticTokens example.tokens =
  [0; 0; 7; 10; 0;  0; 8; 3; 3; 1;  0; 6; 6; 1; 1;  0; 7; 4; 7; 1;
   0; 7; 1; 13; 0;  2; 4; 6; 10; 0].
Proof. reflexivity. Qed.


End semantic_token_properties.
(** ** Overlays *)

Section overlay_properties.
Context `{GoLib} `{LowerSources}.

Lemma OverlayFS_ReadFile_unfold (fs : OverlayFS) (uri : string) :
  OverlayFS_ReadFile fs uri =
  match OverlayFS_overlays fs !! checkURI fs uri with
  | Some overlay => Ok (HOverlay overlay)
  | None => Source_ReadFile (OverlayFS_delegate fs) (checkURI fs uri)
  end.
Proof. destruct fs. reflexivity. Qed.

Lemma MultiSource_ReadFile_cons (s : Source) (ss : list Source) (uri : string) :
  Source_ReadFile (SMulti (s :: ss)) uri =
  match Source_ReadFile s uri with
  | Ok h => Ok h
  | Err _ => Source_ReadFile (SMulti ss) uri
  end.
Proof. reflexivity. Qed.



(** [Open] returns an error exactly when the URI is empty, or is a document
    URI whose file name [filepath.Rel] cannot make relative to the root. *)
Lemma Open_error_iff (fs : OverlayFS) (o : Overlay.t) :
  is_Err (OverlayFS_Open fs o).1 = true <->
  o.(Overlay.uri) = ""%string \/
  (file.IsDocumentURI o.(Overlay.uri) = true /\
   filepath_Rel (OverlayFS_root fs) (uri_Filename o.(Overlay.uri)) = None).
Proof.
  unfold OverlayFS_Open.
  destruct (String.eqb_spec o.(Overlay.uri) "") as [E|E]; [cbn; tauto|].
  destruct (file.IsDocumentURI o.(Overlay.uri)) eqn:Ed; cbn [andb].
  - destruct (filepath_Rel _ _) as [rel|] eqn:Er.
    + rewrite bool_decide_eq_true_2 by eauto. cbn [negb].
      destruct (_ !! _); cbn; (split; [discriminate|]);
        intros [?|[_ ?]]; congruence.
    + rewrite bool_decide_eq_false_2 by (intros [? ?]; discriminate).
      cbn. tauto.
  - destruct (_ !! _); cbn; (split; [discriminate|]);
      intros [?|[? _]]; congruence.
Qed.

(** An [Open] that returns an error leaves the overlay file system as it was. *)
Lemma Open_error_unchanged (fs : OverlayFS) (o : Overlay.t) :
  is_Err (OverlayFS_Open fs o).1 = true -> (OverlayFS_Open fs o).2 = fs.
Proof.
  unfold OverlayFS_Open.
  destruct (String.eqb _ ""); [reflexivity|].
  destruct (_ && _); [reflexivity|].
  destruct (_ !! _); cbn; discriminate.
Qed.

(** An [Open] that succeeds stores the overlay it returns under the checked
    URI, with the content and the version it was offered. *)
Lemma Open_registers (fs fs' : OverlayFS) (o o' : Overlay.t) :
  OverlayFS_Open fs o = (Ok o', fs') ->
  OverlayFS_overlays fs' !! checkURI fs o.(Overlay.uri) = Some o' /\
  o'.(Overlay.content) = o.(Overlay.content) /\
  o'.(Overlay.version) = o.(Overlay.version) /\
  OverlayFS_root fs' = OverlayFS_root fs /\
  OverlayFS_delegate fs' = OverlayFS_delegate fs.
Proof.
  unfold OverlayFS_Open.
  destruct (String.eqb _ ""); [discriminate|].
  destruct (_ && _); [discriminate|]. cbn [Overlay.uri Overlay.content Overlay.version].
  destruct (_ !! _) as [oo|]; intros [= <- <-]; cbn;
    rewrite lookup_insert_eq; auto.
Qed.

End overlay_properties.

Section overlay_examples.
Import example.


(** C7 on the example folder: the root is [/w], the overlay is of
    [file:///other/x.proto]. [filepath.Rel] makes the file name relative to
    the root by going up ([../other/x.proto]) and returns no error, so [Open]
    accepts the overlay and stores it. *)
Lemma Open_accepts_outside_root :
  let o := Overlay.NewOverlay "file:///other/x.proto" "syntax" 1 in
  file.IsDocumentURI o.(Overlay.uri) = true /\
  filepath_Rel "/w" (uri_Filename o.(Overlay.uri)) = Some "../other/x.proto"%string /\
  is_Ok (OverlayFS_Open example.overlayfs o).1 = true /\
  OverlayFS_overlays (OverlayFS_Open example.overlayfs o).2
    !! "file:///other/x.proto"%string
  = Some (Overlay.mk "/w" "file:///other/x.proto" "syntax" 1).
Proof. vm_compute. repeat split; reflexivity. Qed.

End overlay_examples.
(** ** The diagnostic client *)

Section diagnostic_properties.
Import DiagnosticClient.

Lemma add_all_lookup (ds : list Diagnostic) : forall dmap r,
  add_all ds dmap !! r =
  match last_at r ds with
  | Some d => Some d
  | None => dmap !! r
  end.
Proof.
  unfold add_all, last_at.
  induction ds as [|d ds IH]; intros dmap r; [reflexivity|].
  cbn [fold_left]. rewrite IH, filter_cons.
  destruct (decide (DRange d = r)) as [E|E].
  - rewrite last_cons. destruct (list.last _); [reflexivity|].
    subst r. apply lookup_insert_eq.
  - destruct (list.last _); [reflexivity|].
    apply lookup_insert_ne, E.
Qed.

Lemma last_at_range (r : Range) (ds : list Diagnostic) (d : Diagnostic) :
  last_at r ds = Some d -> d.(DRange) = r.
Proof.
  unfold last_at. intros Hl. apply last_Some_elem_of in Hl.
  apply list_elem_of_filter in Hl. tauto.
Qed.

(** The values of the map built from the empty map are the diagnostics that
    are the last of their range. *)
Lemma add_all_values (ds : list Diagnostic) (d : Diagnostic) :
  d ∈ (map_to_list (add_all ds ∅)).*2 <-> last_at d.(DRange) ds = Some d.
Proof.
  rewrite list_elem_of_fmap. split.
  - intros [[r d'] [-> Hin]]. cbn.
    apply elem_of_map_to_list in Hin. rewrite add_all_lookup in Hin.
    destruct (last_at r ds) as [d0|] eqn:E; [|rewrite lookup_empty in Hin; discriminate].
    injection Hin as ->. rewrite <- (last_at_range _ _ _ E) in E. exact E.
  - intros Hl. exists (d.(DRange), d). split; [reflexivity|].
    apply elem_of_map_to_list. rewrite add_all_lookup, Hl. reflexivity.
Qed.

Lemma add_all_ranges_NoDup (ds : list Diagnostic) :
  NoDup (DRange <$> (map_to_list (add_all ds ∅)).*2).
Proof.
  assert ((DRange <$> (map_to_list (add_all ds ∅)).*2)
          = (map_to_list (add_all ds ∅)).*1) as ->.
  { rewrite <- list_fmap_compose. apply list_fmap_ext.
    intros i [r d] Hi. cbn.
    apply list_elem_of_lookup_2, elem_of_map_to_list in Hi.
    rewrite add_all_lookup in Hi.
    destruct (last_at r ds) eqn:E; [|rewrite lookup_empty in Hi; discriminate].
    injection Hi as ->. eapply last_at_range, E. }
  apply NoDup_fst_map_to_list.
Qed.

Lemma observed_snoc (d : t) (uri : string) (ds : list Diagnostic) :
  observed (mk d.(cache) (d.(sent) ++ [mkPublish uri ds])) uri = Some ds.
Proof.
  unfold observed. cbn [sent]. rewrite list.filter_app, filter_cons. cbn [PURI].
  rewrite decide_True by reflexivity. rewrite filter_nil, last_snoc.
  reflexivity.
Qed.

(** What [Reset; Add(S); Notify] leaves and sends, from any state. *)
Lemma reset_add_notify (d : t) (h : Handle) (S : list Diagnostic) :
  let d' := Notify (AddDiagnostics (Reset d h) h S) h in
  observed d' (Handle.URI h) = Some (map_to_list (add_all S ∅)).*2.
Proof.
  cbn zeta. unfold Notify, AddDiagnostics, Reset. cbn [cache sent].
  rewrite lookup_delete_eq, lookup_insert_eq. cbn [default].
  apply (observed_snoc (mk _ _)).
Qed.

(** C5: after [Reset; Add(S1); Notify; Reset; Add(S2); Notify] on one URI
    the client has last been sent, for that URI, the diagnostics of [S2]
    that are the last of their range in [S2], one per range: no diagnostic
    of [S1] is among them unless [S2] has it. *)
Theorem diagnostics_replaced (d : t) (h : Handle) (S1 S2 : list Diagnostic) :
  let d1 := Notify (AddDiagnostics (Reset d h) h S1) h in
  let d2 := Notify (AddDiagnostics (Reset d1 h) h S2) h in
  exists ds,
    observed d2 (Handle.URI h) = Some ds /\
    NoDup (DRange <$> ds) /\
    (forall x, x ∈ ds <-> last_at x.(DRange) S2 = Some x) /\
    (forall x, x ∈ ds -> x ∈ S2).
Proof.
  cbn zeta. eexists. split; [apply reset_add_notify|].
  split; [apply add_all_ranges_NoDup|].
  split; [apply add_all_values|].
  intros x Hx. apply add_all_values in Hx. unfold last_at in Hx.
  apply last_Some_elem_of, list_elem_of_filter in Hx. tauto.
Qed.

End diagnostic_properties.
(** ** Nearest node *)

Section nearest_properties.
Context `{GoLib} `{ProtoCompile}.




End nearest_properties.

Section nearest_examples.
Import example.


Example Nearest_nested :
  File.NodesAt nested (mkPosition 5 4) = [message_node; field_node] /\
  File.Nearest nested (mkPosition 5 4) = Some field_node.
Proof. vm_compute. split; reflexivity. Qed.

End nearest_examples.
(** ** The parsed-file cache *)

Section parser_properties.
Context `{GoLib} `{ProtoCompile}.


Lemma File_Parse_skip (f : File.t) (h : Handle) (dc : DiagnosticClient.t) :
  f.(File.handle) = Some h ->
  File.needReParse f h = false ->
  File.Parse f dc = (Ok tt, f, dc).
Proof. intros Hh Hn. unfold File.Parse. rewrite Hh, Hn. reflexivity. Qed.

Lemma File_Parse_reset (f : File.t) (h : Handle) (dc : DiagnosticClient.t) :
  is_reset h f ->
  match File.Parse f dc with
  | (Ok _, f', _) => parsed_from h f' /\ f'.(File.uri) = f.(File.uri)
  | (Err _, f', _) => f' = f /\ parse_fails h f.(File.uri)
  end.
Proof.
  intros (Hh & Hfn & Hv & Hc & Hp & Hi).
  unfold File.Parse, parse_fails, File.needReParse. rewrite Hh, Hfn. cbn [negb].
  destruct (Handle.Content h) as [content|e] eqn:Ec; [|auto].
  destruct (parser_Parse _ content) as [reps [fn inv|e]] eqn:Ep; cbn [snd]; [|auto].
  destruct (parser_ResultFromAST fn) as [reps' [res inv'|e]] eqn:Er; cbn [snd]; [|auto].
  split; [|reflexivity].
  exists content, reps, fn, inv, reps', res, inv'. cbn.
  rewrite Hp, Hi. repeat split; auto.
Qed.

Lemma File_Compile_keeps (f : File.t) resolver (dc : DiagnosticClient.t) :
  let f' := (File.Compile f resolver dc).1.2 in
  f'.(File.handle) = f.(File.handle) /\ f'.(File.uri) = f.(File.uri) /\
  f'.(File.version) = f.(File.version) /\ f'.(File.content) = f.(File.content) /\
  f'.(File.fn) = f.(File.fn) /\ f'.(File.pkg) = f.(File.pkg) /\
  f'.(File.imports) = f.(File.imports).
Proof.
  unfold File.Compile.
  destruct (compiler_Compile _ _) as [[reps syms] [[lf|] inv|e]]; cbn;
    repeat split; reflexivity.
Qed.

Lemma lookup_or_create_reset (p : Parser.t) (uri : string) (h : Handle) :
  let f := (Parser.lookup_or_create p uri h).1 in
  let p' := (Parser.lookup_or_create p uri h).2 in
  is_reset h f /\
  p'.(Parser.files) = <[uri := f]> p.(Parser.files) /\
  (Parser.wf p -> f.(File.uri) = uri).
Proof.
  unfold Parser.lookup_or_create.
  destruct (Parser.files p !! uri) as [f0|] eqn:E; cbn [fst snd].
  - split; [repeat split|]. split.
    + unfold Parser.pkgremove. cbn [Parser.pkgs Parser.files].
      destruct (Parser.pkgs p !! _); reflexivity.
    + intros Hwf. cbn. apply Hwf, E.
  - split; [repeat split|]. split; [reflexivity|]. intros _. reflexivity.
Qed.

Lemma wf_insert (p : Parser.t) (uri : string) (f : File.t) pkgs :
  Parser.wf p -> f.(File.uri) = uri ->
  Parser.wf (Parser.mk (<[uri := f]> p.(Parser.files)) pkgs).
Proof.
  intros Hwf Hu k g. cbn. rewrite lookup_insert.
  destruct (decide (uri = k)) as [->|]; [intros [= <-]; exact Hu | apply Hwf].
Qed.

Lemma pkgadd_files (p : Parser.t) (f : File.t) :
  (Parser.pkgadd p f).(Parser.files) = p.(Parser.files).
Proof. reflexivity. Qed.

(** What a call of [Parser.Parse] returns and leaves in the cache. *)
Lemma Parse_spec (p : Parser.t) resolver (dc : DiagnosticClient.t)
    (uri : string) (h : Handle) :
  match Parser.Parse p resolver dc uri h with
  | (Ok f, p', _) =>
      p'.(Parser.files) !! uri = Some f /\ parsed_from h f /\
      (Parser.wf p -> Parser.wf p' /\ f.(File.uri) = uri)
  | (Err _, p', _) =>
      (exists f, p'.(Parser.files) !! uri = Some f /\ is_reset h f /\
                 parse_fails h f.(File.uri) /\
                 (Parser.wf p -> f.(File.uri) = uri)) /\
      (Parser.wf p -> Parser.wf p')
  end.
Proof.
  unfold Parser.Parse.
  pose proof (lookup_or_create_reset p uri h) as Hl. cbn zeta in Hl.
  destruct (Parser.lookup_or_create p uri h) as [f0 p0]. cbn [fst snd] in Hl.
  destruct Hl as (Hreset & Hfiles & Huri).
  pose proof (File_Parse_reset f0 h dc Hreset) as Hp.
  destruct (File.Parse f0 dc) as [[[[]|e] f1] dc1].
  - destruct Hp as [Hfrom Hu1].
    pose proof (File_Compile_keeps f1 resolver dc1) as Hc. cbn zeta in Hc.
    destruct (File.Compile f1 resolver dc1) as [[rc f2] dc2]. cbn [fst snd] in Hc.
    destruct Hc as (Hch & Hcu & Hcv & Hcc & Hcf & Hcp & Hci).
    split; [rewrite pkgadd_files; cbn; apply lookup_insert_eq|].
    split.
    + destruct Hfrom as (content & reps & fn & inv & reps' & res & inv' & Hf).
      exists content, reps, fn, inv, reps', res, inv'.
      rewrite Hch, Hcu, Hcv, Hcc, Hcf, Hcp, Hci. exact Hf.
    + intros Hwf. assert (File.uri f2 = uri) as Hu2 by (rewrite Hcu, Hu1; auto).
      split; [|exact Hu2].
      intros k g. rewrite pkgadd_files. cbn. rewrite Hfiles, insert_insert_eq.
      apply (wf_insert p uri f2 ∅ Hwf Hu2).
  - destruct Hp as [-> Hfail]. split.
    + exists f0. cbn. rewrite lookup_insert_eq. auto.
    + intros Hwf k g. cbn. rewrite Hfiles, insert_insert_eq.
      apply (wf_insert p uri f0 ∅ Hwf (Huri Hwf)).
Qed.

End parser_properties.
Section parser_claims.
Context `{GoLib} `{ProtoCompile}.


(** [Parser.Parse] resets the cached file before it calls [File.Parse]: a
    call that succeeds leaves the cached file with the version and the
    content of the handle of the call, whatever was cached. *)
Lemma Parse_takes_handle (p : Parser.t) (resolver : string -> result string)
    (dc : DiagnosticClient.t) (uri : string) (h : Handle) (f' : File.t) :
  (Parser.Parse p resolver dc uri h).1.1 = Ok f' ->
  (Parser.Parse p resolver dc uri h).1.2.(Parser.files) !! uri = Some f' /\
  f'.(File.version) = Handle.Version h /\
  exists content,
    Handle.Content h = Ok content /\ f'.(File.content) = Some content.
Proof.
  intros Hr.
  pose proof (Parse_spec p resolver dc uri h) as Hs.
  destruct (Parser.Parse p resolver dc uri h) as [[r p'] dc'].
  cbn [fst snd] in *. subst r.
  destruct Hs as (Hf & (content & reps & fn & inv & reps' & res & inv' & Hp) & _).
  split; [exact Hf|]. split; [tauto|]. exists content. tauto.
Qed.

(** After each [Parse] call of a sequence the version of the cached file is
    the version of the handle of that call when the call succeeded, and the
    initial version when it failed. *)
Lemma Parse_all_versions (hs : list Handle) :
  forall (p : Parser.t) resolver (dc : DiagnosticClient.t) (uri : string),
  Forall2
    (fun h rv =>
       rv.2 = Some (if is_Ok rv.1 then Handle.Version h
                    else File.FileInitVersion))
    hs (Parser.Parse_all p resolver dc uri hs).
Proof.
  induction hs as [|h hs IH]; intros p resolver dc uri; cbn [Parser.Parse_all].
  - constructor.
  - pose proof (Parse_spec p resolver dc uri h) as Hs.
    destruct (Parser.Parse p resolver dc uri h) as [[[f|e] p'] dc'].
    + constructor; [|apply IH]. cbn. unfold Parser.version_of.
      destruct Hs as (-> & (? & ? & ? & ? & ? & ? & ? & Hp) & _). cbn.
      f_equal. tauto.
    + constructor; [|apply IH]. cbn. unfold Parser.version_of.
      destruct Hs as [(f & -> & Hr & _) _]. cbn. f_equal.
      destruct Hr as (_ & _ & Hv & _). exact Hv.
Qed.

(** C3 (amended): over a sequence of [Parse] calls on a file, the version
    observed after a call is the version of the handle of that call when the
    call succeeded and the initial version when it failed; over calls that
    all succeed the observed versions are the versions of the handles, in
    order (non-decreasing exactly when those are). *)
Theorem version_follows_handle (p : Parser.t) (resolver : string -> result string)
    (dc : DiagnosticClient.t) (uri : string) (hs : list Handle) :
  let calls := Parser.Parse_all p resolver dc uri hs in
  Forall2
    (fun h rv =>
       rv.2 = Some (if is_Ok rv.1 then Handle.Version h
                    else File.FileInitVersion))
    hs calls /\
  (Forall (fun rv => is_Ok rv.1 = true) calls ->
   calls.*2 = Some ∘ Handle.Version <$> hs).
Proof.
  cbn zeta. pose proof (Parse_all_versions hs p resolver dc uri) as Hv.
  assert (Heq : Forall (fun rv => is_Ok rv.1 = true)
                  (Parser.Parse_all p resolver dc uri hs) ->
                (Parser.Parse_all p resolver dc uri hs).*2
                = Some ∘ Handle.Version <$> hs).
  { intros Hok. induction Hv as [|h rv hs' rvs Hrv _ IH]; [reflexivity|].
    inversion Hok as [|? ? Ho Hok']; subst. cbn. rewrite Ho in Hrv.
    rewrite Hrv, (IH Hok'). reflexivity. }
  split; [exact Hv | exact Heq].
Qed.

End parser_claims.

Section parser_examples.
Import example.



Lemma version_follows_handle_witness :
  let calls := Parser.Parse_all Parser.NewParser resolver
                 DiagnosticClient.NewDiagnosticClient "a.proto" [a_v3; a_v5] in
  calls.*2 = [Some 3; Some 5] /\
  Forall2
    (fun h rv =>
       rv.2 = Some (if is_Ok rv.1 then Handle.Version h
                    else File.FileInitVersion))
    [a_v3; a_v5] calls.
Proof.
  cbn zeta. split; [vm_compute; reflexivity|].
  apply (version_follows_handle Parser.NewParser resolver
           DiagnosticClient.NewDiagnosticClient "a.proto" [a_v3; a_v5]).
Defined.

(** C3, at the letter: two [Parse] calls on [a.proto], with handles of
    versions 5 and 3, leave the versions 5 and then 3. *)
Lemma version_decreases :
  (Parser.Parse_all Parser.NewParser resolver
     DiagnosticClient.NewDiagnosticClient "a.proto" [a_v5; a_v3]).*2
  = [Some 5; Some 3] /\ 3 < 5.
Proof. vm_compute. split; reflexivity. Qed.

End parser_examples.
(** ** The import walk *)

Section walk_properties.
Context `{GoLib} `{LowerSources} `{ProtoCompile}.

(** On a loop of first imports [ReadFile] does not return, whatever depth of
    recursion it is given. *)
Lemma ReadFile_diverges (fs : filesystem.t) (U : string -> Prop) :
  first_import_loop fs U ->
  forall depth fm u,
    U u -> fm.(fileManager.fs) = fs -> Parser.wf fm.(fileManager.parser) ->
    fileManager.ReadFile depth fm u = None.
Proof.
  intros Hloop. induction depth as [|depth IH]; intros fm u Hu Hfs Hwf.
  { reflexivity. }
  destruct (Hloop u Hu) as
    (stat & fh & content & reps & fn & inv & reps' & res & inv' & imp & rest &
     Hstat & Hread & Hcontent & Hparse & Hres & Himps & Hnext).
  cbn [fileManager.ReadFile]. rewrite Hfs, Hstat, Hread.
  unfold fileManager.internalparse.
  pose proof (Parse_spec fm.(fileManager.parser)
                (filesystem.Resolver fm.(fileManager.fs))
                (DiagnosticClient.Reset fm.(fileManager.diagnosticClient) fh)
                (file.NormalURIStr stat.(Path)) fh) as Hs.
  destruct (Parser.Parse _ _ _ _ _) as [[[pf|e] p'] dc'].
  - destruct Hs as (_ & Hfrom & Hwf'). destruct (Hwf' Hwf) as [Hwfp Hpfuri].
    destruct Hfrom as (content' & reps1 & fn' & inv1 & reps2 & res' & inv2 &
                       Hc' & Hp' & _ & _ & _ & _ & _ & _ & Hi').
    rewrite Hcontent in Hc'. injection Hc' as <-.
    rewrite Hpfuri, Hparse in Hp'. injection Hp' as <- <- <-.
    unfold File.Imports. rewrite Hi', Himps. cbn [map fileManager.read_imports].
    rewrite IH; [reflexivity | exact Hnext | rewrite <- Hfs; reflexivity | exact Hwfp].
  - exfalso. destruct Hs as [(f & _ & _ & Hfail & Hfu) _].
    unfold parse_fails in Hfail. rewrite (Hfu Hwf), Hcontent, Hparse in Hfail.
    cbn [snd] in Hfail. rewrite Hres in Hfail. exact Hfail.
Qed.

(** C10: a [DidChange] without content changes returns without an error and
    leaves the file manager (the overlays of its file system, the parser
    cache, the diagnostics and what the client has been sent) as it was. *)
Theorem DidChange_no_changes (depth : nat) (s : fileManager.t)
    (params : DidChangeTextDocumentParams) :
  length params.(ContentChanges) = 0%nat ->
  server.DidChange depth s params = Some (Ok tt, s).
Proof.
  intros Hlen. unfold server.DidChange.
  destruct params.(ContentChanges); [reflexivity | discriminate].
Qed.

End walk_properties.

Section walk_examples.
Import example.

Lemma DidChange_no_changes_witness :
  server.DidChange 0 fm (mkDidChange "file:///w/a.proto" 2 [])
  = Some (Ok tt, fm).
Proof.
  apply (DidChange_no_changes 0 fm (mkDidChange "file:///w/a.proto" 2 [])).
  reflexivity.
Defined.

(** C1 on the example workspace: opening a buffer of [a.proto] whose first
    import is [a.proto] does not return, whatever depth the walk is given. *)
Theorem self_import_does_not_return (depth : nat) :
  server.DidOpen depth fm a_self = None.
Proof.
  unfold server.DidOpen, fileManager.Open.
  assert (filesystem.Open fm.(fileManager.fs)
            (Overlay.NewOverlay a_self.(OpenURI) a_self.(OpenText)
               a_self.(OpenVersion))
          = (Ok (HOverlay a_self_overlay), fs_self)) as -> by reflexivity.
  rewrite (ReadFile_diverges fs_self
             (fun u => u = "file:///w/a.proto"%string \/ u = "a.proto"%string)).
  - reflexivity.
  - intros u [-> | ->];
      eexists _, _, _, _, _, _, _, _, _, _, _;
      (split; [reflexivity|]);
      (split; [reflexivity|]);
      (split; [reflexivity|]);
      (split; [reflexivity|]);
      (split; [reflexivity|]);
      (split; [reflexivity|]);
      right; reflexivity.
  - left. reflexivity.
  - reflexivity.
  - intros k f Hk. cbn in Hk. rewrite lookup_empty in Hk. discriminate.
Qed.

(** The walk of a buffer that imports [b.proto] returns: both files are in
    the cache, [a.proto] at the version of the buffer and [b.proto] at the
    version of a file read from the directory, and the client has been
    sent the diagnostics of both. *)
Example import_walk_returns :
  left_by (server.DidOpen 2 fm a_imports_b)
  = Some (Some 1, Some (-1), ["file:///w/a.proto"; "file:///w/b.proto"]%string).
Proof. vm_compute. reflexivity. Qed.

End walk_examples.

Section walk_termination.
Context `{GoLib} `{LowerSources} `{ProtoCompile}.

Lemma imports_at_parsed (fs : filesystem.t) (u : string) (stat : ObjectInfo)
    (fh : Handle) (pf : File.t) :
  Source_Stat (filesystem.Source fs) u = Ok stat ->
  Source_ReadFile (filesystem.Source fs) u = Ok fh ->
  parsed_from fh pf ->
  pf.(File.uri) = file.NormalURIStr stat.(Path) ->
  File.Imports pf = imports_at fs u.
Proof.
  intros Hstat Hread (content & reps & fn & inv & reps' & res & inv' &
                      Hc & Hp & Hr & _ & _ & _ & _ & _ & Hi) Huri.
  unfold imports_at, File.Imports.
  rewrite Hstat, Hread, Hc, <- Huri, Hp. cbn [snd]. rewrite Hr. cbn [snd].
  rewrite Hi. reflexivity.
Qed.

Lemma returns_from_mono fs u (n m : nat) :
  (n <= m)%nat -> returns_from fs u n -> returns_from fs u m.
Proof. intros Hnm Hn d fm Hd. apply Hn. lia. Qed.

Lemma returns_from_all fs (l : list string) :
  (forall v, v ∈ l -> exists n, returns_from fs v n) ->
  exists n, forall v, v ∈ l -> returns_from fs v n.
Proof.
  induction l as [|v l IH]; intros Hl.
  - exists 0%nat. intros v Hv. inversion Hv.
  - destruct (Hl v) as [n Hn]; [left|].
    destruct IH as [m Hm]; [intros w Hw; apply Hl; right; exact Hw|].
    exists (n `max` m)%nat. intros w Hw. apply elem_of_cons in Hw as [->|Hw].
    + eapply returns_from_mono, Hn. lia.
    + eapply returns_from_mono, Hm, Hw. lia.
Qed.

Lemma read_imports_returns fs (d : nat) (l : list string) :
  (forall v, v ∈ l -> returns_from fs v d) ->
  forall fm, walking fs fm ->
    exists r fm',
      fileManager.read_imports (fileManager.ReadFile d) fm l = Some (r, fm') /\
      walking fs fm'.
Proof.
  induction l as [|v l IH]; intros Hl fm Hfm; cbn [fileManager.read_imports].
  - eauto.
  - destruct (Hl v (list_elem_of_here v l) d fm (Nat.le_refl d) Hfm)
      as (r & fm' & -> & Hfm').
    destruct r as [fh|e]; [|eauto].
    apply IH; [|exact Hfm']. intros w Hw. apply Hl. right. exact Hw.
Qed.

(** When no chain of imports from [u] comes back to a file it has passed,
    [ReadFile] returns on [u], given enough depth: with a file handle, or
    with the first error met on the walk. *)
Lemma ReadFile_returns (fs : filesystem.t) (u : string) :
  Acc (fun v w => v ∈ imports_at fs w) u ->
  exists depth, returns_from fs u depth.
Proof.
  induction 1 as [u _ IH].
  destruct (returns_from_all fs (imports_at fs u) IH) as [n Hn].
  exists (S n). intros d fm Hd [Hfs Hwf]. destruct d as [|d]; [lia|].
  assert (Hd' : forall v, v ∈ imports_at fs u -> returns_from fs v d).
  { intros v Hv. eapply returns_from_mono, Hn, Hv. lia. }
  cbn [fileManager.ReadFile]. rewrite Hfs.
  destruct (Source_Stat _ u) as [stat|e] eqn:Hstat.
  2:{ eexists _, _. split; [reflexivity|]. split; assumption. }
  destruct (Source_ReadFile _ u) as [fh|e] eqn:Hread.
  2:{ eexists _, _. split; [reflexivity|]. split; assumption. }
  unfold fileManager.internalparse. rewrite Hfs.
  pose proof (Parse_spec fm.(fileManager.parser) (filesystem.Resolver fs)
                (DiagnosticClient.Reset fm.(fileManager.diagnosticClient) fh)
                (file.NormalURIStr stat.(Path)) fh) as Hs.
  destruct (Parser.Parse _ _ _ _ _) as [[[pf|e] p'] dc'].
  - destruct Hs as (_ & Hfrom & Hwf'). destruct (Hwf' Hwf) as [Hwfp Hpfuri].
    rewrite (imports_at_parsed fs u stat fh pf Hstat Hread Hfrom Hpfuri).
    destruct (read_imports_returns fs d (imports_at fs u) Hd'
                (fileManager.mk fs p' (DiagnosticClient.Notify dc' fh)))
      as (r & fm' & -> & Hfm'); [split; [reflexivity | exact Hwfp]|].
    destruct r; eauto.
  - destruct Hs as [_ Hwf']. eexists _, _. split; [reflexivity|].
    split; [reflexivity | exact (Hwf' Hwf)].
Qed.

End walk_termination.

(** ** More on the overlay file system *)

Section overlay_more.
Context `{GoLib} `{LowerSources}.

Lemma checkURI_root (fs fs' : OverlayFS) (u : string) :
  OverlayFS_root fs' = OverlayFS_root fs -> checkURI fs' u = checkURI fs u.
Proof. intros Hr. unfold checkURI. rewrite Hr. reflexivity. Qed.

(** [Open] returns an error exactly when the URI is empty or is a document
    URI whose file name [filepath.Rel] cannot make relative to the root,
    and an [Open] that returns an error changes nothing. *)
Lemma Open_rejects (fs : OverlayFS) (o : Overlay.t) :
  (is_Err (OverlayFS_Open fs o).1 = true <->
   o.(Overlay.uri) = ""%string \/
   (file.IsDocumentURI o.(Overlay.uri) = true /\
    filepath_Rel (OverlayFS_root fs) (uri_Filename o.(Overlay.uri)) = None)) /\
  (is_Err (OverlayFS_Open fs o).1 = true -> (OverlayFS_Open fs o).2 = fs).
Proof. split; [apply Open_error_iff | apply Open_error_unchanged]. Qed.

(** After an [Open] that succeeds, the URI that was offered is read, stat'ed
    and got as the stored overlay, which has the content and the version
    that were offered. *)
Theorem Open_then_read (fs fs' : OverlayFS) (o o' : Overlay.t) :
  OverlayFS_Open fs o = (Ok o', fs') ->
  OverlayFS_ReadFile fs' o.(Overlay.uri) = Ok (HOverlay o') /\
  OverlayFS_Stat fs' o.(Overlay.uri) = Ok o' /\
  OverlayFS_Get fs' o.(Overlay.uri) = Ok o' /\
  o'.(Overlay.content) = o.(Overlay.content) /\
  o'.(Overlay.version) = o.(Overlay.version).
Proof.
  intros Hopen.
  destruct (Open_registers fs fs' o o' Hopen) as (Hl & Hc & Hv & Hr & _).
  assert (Hne : String.eqb o.(Overlay.uri) "" = false).
  { unfold OverlayFS_Open in Hopen.
    destruct (String.eqb _ ""); [discriminate | reflexivity]. }
  rewrite OverlayFS_ReadFile_unfold. unfold OverlayFS_Stat, OverlayFS_Get.
  rewrite Hne, (checkURI_root fs fs' _ Hr), Hl. auto.
Qed.

(** [Open] changes at most the entry of the checked URI, and keeps the root
    and the delegate; an entry that is already there is changed in place:
    it keeps its own URI and root and takes the content and the version. *)
Lemma Open_touches_one_entry (fs : OverlayFS) (o : Overlay.t) :
  OverlayFS_root (OverlayFS_Open fs o).2 = OverlayFS_root fs /\
  OverlayFS_delegate (OverlayFS_Open fs o).2 = OverlayFS_delegate fs /\
  (forall k, k <> checkURI fs o.(Overlay.uri) ->
     OverlayFS_overlays (OverlayFS_Open fs o).2 !! k
     = OverlayFS_overlays fs !! k) /\
  (forall oo,
     OverlayFS_overlays fs !! checkURI fs o.(Overlay.uri) = Some oo ->
     is_Ok (OverlayFS_Open fs o).1 = true ->
     OverlayFS_overlays (OverlayFS_Open fs o).2 !! checkURI fs o.(Overlay.uri)
     = Some (Overlay.mk oo.(Overlay.root) oo.(Overlay.uri)
               o.(Overlay.content) o.(Overlay.version))).
Proof.
  unfold OverlayFS_Open.
  destruct (String.eqb _ ""); [cbn; repeat split; auto; discriminate|].
  destruct (_ && _); [cbn; repeat split; auto; discriminate|].
  cbn [Overlay.uri Overlay.content Overlay.version].
  destruct (OverlayFS_overlays fs !! _) as [oo|] eqn:E; cbn.
  - repeat split; auto.
    + intros k Hk. apply lookup_insert_ne. congruence.
    + intros oo' [= <-] _. apply lookup_insert_eq.
  - repeat split; auto.
    + intros k Hk. apply lookup_insert_ne. congruence.
    + intros oo' Hoo. discriminate.
Qed.

(** After [Close] the URI is no longer an overlay: reading it is reading the
    delegate, and [Stat] does not find it; what is read for a URI with
    another key is what was read before. *)
Theorem Close_then_read (fs : OverlayFS) (u : string) :
  OverlayFS_ReadFile (OverlayFS_Close fs u) u
  = Source_ReadFile (OverlayFS_delegate fs) (checkURI fs u) /\
  OverlayFS_Stat (OverlayFS_Close fs u) u = Err ErrNotExist /\
  (forall v, checkURI fs v <> checkURI fs u ->
     OverlayFS_ReadFile (OverlayFS_Close fs u) v = OverlayFS_ReadFile fs v).
Proof.
  assert (Hc : forall v, checkURI (OverlayFS_Close fs u) v = checkURI fs v).
  { intros v. apply checkURI_root. reflexivity. }
  split; [|split].
  - rewrite OverlayFS_ReadFile_unfold, Hc. cbn. rewrite lookup_delete_eq.
    reflexivity.
  - unfold OverlayFS_Stat. rewrite Hc. cbn. rewrite lookup_delete_eq.
    reflexivity.
  - intros v Hv. rewrite !OverlayFS_ReadFile_unfold, Hc. cbn.
    rewrite lookup_delete_ne by congruence. reflexivity.
Qed.

(** Opening a URI that has no overlay and closing it again leaves the
    overlay file system as it was. *)
Theorem Open_then_Close (fs fs' : OverlayFS) (o o' : Overlay.t) :
  OverlayFS_overlays fs !! checkURI fs o.(Overlay.uri) = None ->
  OverlayFS_Open fs o = (Ok o', fs') ->
  OverlayFS_Close fs' o.(Overlay.uri) = fs.
Proof.
  intros Hnone Hopen. unfold OverlayFS_Open in Hopen.
  destruct (String.eqb _ ""); [discriminate|].
  destruct (_ && _); [discriminate|].
  cbn [Overlay.uri Overlay.content Overlay.version] in Hopen.
  rewrite Hnone in Hopen. injection Hopen as <- <-.
  unfold OverlayFS_Close.
  change (checkURI (mkOverlayFS _ _ _) (Overlay.uri o))
    with (checkURI fs (Overlay.uri o)).
  cbn. rewrite delete_insert_eq, (delete_id _ _ Hnone). destruct fs.
  reflexivity.
Qed.

(** [Stat] through the source of a folder never consults the delegate of
    its overlay file system. *)
Theorem folder_Stat_ignores_delegate (name furi root : string)
    (d1 d2 mods : Source) (overlays : gmap string Overlay.t) (u : string) :
  Source_Stat
    (folder.Souce (folder.mk name furi (mkOverlayFS root d1 overlays) mods)) u
  = Source_Stat
    (folder.Souce (folder.mk name furi (mkOverlayFS root d2 overlays) mods)) u.
Proof. reflexivity. Qed.

End overlay_more.

Section overlay_more_examples.
Import example.

(** [Open_then_read] on the example folder: the buffer of [b.proto] is
    opened and read back. *)
Lemma Open_then_read_witness :
  OverlayFS_ReadFile
    (mkOverlayFS "/w" dir_source {[ "file:///w/b.proto"%string := b_overlay ]})
    "file:///w/b.proto"
  = Ok (HOverlay b_overlay) /\
  OverlayFS_Stat
    (mkOverlayFS "/w" dir_source {[ "file:///w/b.proto"%string := b_overlay ]})
    "file:///w/b.proto"
  = Ok b_overlay /\
  OverlayFS_Get
    (mkOverlayFS "/w" dir_source {[ "file:///w/b.proto"%string := b_overlay ]})
    "file:///w/b.proto"
  = Ok b_overlay /\
  b_overlay.(Overlay.content) = "package p;message B"%string /\
  b_overlay.(Overlay.version) = 1.
Proof.
  apply (Open_then_read overlayfs _
           (Overlay.NewOverlay "file:///w/b.proto" "package p;message B" 1)).
  reflexivity.
Defined.

(** [Open_then_Close] on the example folder. *)
Lemma Open_then_Close_witness :
  OverlayFS_Close
    (mkOverlayFS "/w" dir_source {[ "file:///w/b.proto"%string := b_overlay ]})
    "file:///w/b.proto"
  = overlayfs.
Proof.
  apply (Open_then_Close overlayfs _
           (Overlay.NewOverlay "file:///w/b.proto" "package p;message B" 1)
           b_overlay); reflexivity.
Defined.

End overlay_more_examples.

(** ** Multi-sources and the file system of the folders *)

Section multi_more.
Context `{GoLib} `{LowerSources}.

Lemma MultiSource_Stat_cons (s : Source) (ss : list Source) (uri : string) :
  Source_Stat (SMulti (s :: ss)) uri =
  match Source_Stat s uri with
  | Ok info => Ok info
  | Err _ => Source_Stat (SMulti ss) uri
  end.
Proof. reflexivity. Qed.

Lemma MultiSource_ReadFile_app (l1 l2 : list Source) (uri : string) :
  Source_ReadFile (SMulti (l1 ++ l2)) uri =
  match Source_ReadFile (SMulti l1) uri with
  | Ok h => Ok h
  | Err _ => Source_ReadFile (SMulti l2) uri
  end.
Proof.
  induction l1 as [|s l1 IH]; [reflexivity|].
  rewrite <- app_comm_cons, !MultiSource_ReadFile_cons, IH.
  destruct (Source_ReadFile s uri); reflexivity.
Qed.

Lemma MultiSource_Stat_app (l1 l2 : list Source) (uri : string) :
  Source_Stat (SMulti (l1 ++ l2)) uri =
  match Source_Stat (SMulti l1) uri with
  | Ok info => Ok info
  | Err _ => Source_Stat (SMulti l2) uri
  end.
Proof.
  induction l1 as [|s l1 IH]; [reflexivity|].
  rewrite <- app_comm_cons, !MultiSource_Stat_cons, IH.
  destruct (Source_Stat s uri); reflexivity.
Qed.

Lemma MultiSource_ReadFile_Sources (s : Source) (uri : string) :
  Source_ReadFile (SMulti (Sources s)) uri
  = match Source_ReadFile s uri with
    | Ok h => Ok h
    | Err _ => Err ErrNotExist
    end.
Proof.
  destruct s as [l|fs|ss]; cbn [Sources];
    [rewrite MultiSource_ReadFile_cons; destruct (Source_ReadFile _ _);
       reflexivity ..|].
  induction ss as [|s ss IH]; [reflexivity|].
  rewrite !MultiSource_ReadFile_cons.
  destruct (Source_ReadFile s uri); [reflexivity|].
  rewrite IH. destruct (Source_ReadFile (SMulti ss) uri); reflexivity.
Qed.

Lemma MultiSource_Stat_Sources (s : Source) (uri : string) :
  Source_Stat (SMulti (Sources s)) uri
  = match Source_Stat s uri with
    | Ok h => Ok h
    | Err _ => Err ErrNotExist
    end.
Proof.
  destruct s as [l|fs|ss]; cbn [Sources];
    [rewrite MultiSource_Stat_cons; destruct (Source_Stat _ _);
       reflexivity ..|].
  induction ss as [|s ss IH]; [reflexivity|].
  rewrite !MultiSource_Stat_cons.
  destruct (Source_Stat s uri); [reflexivity|].
  rewrite IH. destruct (Source_Stat (SMulti ss) uri); reflexivity.
Qed.

Lemma NewMultiSource_cons (s : Source) (ss : list Source) :
  NewMultiSource (s :: ss)
  = SMulti (Sources s ++ Sources (NewMultiSource ss)).
Proof. unfold NewMultiSource. cbn. destruct s; reflexivity. Qed.

Lemma NewMultiSource_ReadFile (ss : list Source) (uri : string) :
  Source_ReadFile (NewMultiSource ss) uri = Source_ReadFile (SMulti ss) uri.
Proof.
  induction ss as [|s ss IH]; [reflexivity|].
  rewrite NewMultiSource_cons, MultiSource_ReadFile_app,
    MultiSource_ReadFile_Sources, MultiSource_ReadFile_cons.
  destruct (Source_ReadFile s uri); [reflexivity|].
  change (SMulti (Sources (NewMultiSource ss))) with (NewMultiSource ss).
  apply IH.
Qed.

Lemma NewMultiSource_Stat (ss : list Source) (uri : string) :
  Source_Stat (NewMultiSource ss) uri = Source_Stat (SMulti ss) uri.
Proof.
  induction ss as [|s ss IH]; [reflexivity|].
  rewrite NewMultiSource_cons, MultiSource_Stat_app,
    MultiSource_Stat_Sources, MultiSource_Stat_cons.
  destruct (Source_Stat s uri); [reflexivity|].
  change (SMulti (Sources (NewMultiSource ss))) with (NewMultiSource ss).
  apply IH.
Qed.

(** A multi-source answers [ReadFile] with the answer of its first source
    that succeeds, and with [os.ErrNotExist], whatever the errors of its
    sources were, when none does; the same holds of [Stat]. *)
Theorem MultiSource_first_hit (ss : list Source) (uri : string) :
  match Source_ReadFile (SMulti ss) uri with
  | Ok h =>
      exists pre s post, ss = pre ++ s :: post /\
        Source_ReadFile s uri = Ok h /\
        Forall (fun s' => is_Err (Source_ReadFile s' uri) = true) pre
  | Err e =>
      e = ErrNotExist /\
      Forall (fun s' => is_Err (Source_ReadFile s' uri) = true) ss
  end /\
  match Source_Stat (SMulti ss) uri with
  | Ok info =>
      exists pre s post, ss = pre ++ s :: post /\
        Source_Stat s uri = Ok info /\
        Forall (fun s' => is_Err (Source_Stat s' uri) = true) pre
  | Err e =>
      e = ErrNotExist /\
      Forall (fun s' => is_Err (Source_Stat s' uri) = true) ss
  end.
Proof.
  split.
  - induction ss as [|s ss IH]; [cbn; auto|].
    rewrite MultiSource_ReadFile_cons.
    destruct (Source_ReadFile s uri) as [h|e] eqn:Es.
    + exists [], s, ss. auto.
    + destruct (Source_ReadFile (SMulti ss) uri) as [h|e'].
      * destruct IH as (pre & s' & post & -> & Hs' & Hpre).
        exists (s :: pre), s', post. repeat split; [assumption|].
        constructor; [rewrite Es; reflexivity | assumption].
      * destruct IH as [-> Hall]. split; [reflexivity|].
        constructor; [rewrite Es; reflexivity | assumption].
  - induction ss as [|s ss IH]; [cbn; auto|].
    rewrite MultiSource_Stat_cons.
    destruct (Source_Stat s uri) as [h|e] eqn:Es.
    + exists [], s, ss. auto.
    + destruct (Source_Stat (SMulti ss) uri) as [h|e'].
      * destruct IH as (pre & s' & post & -> & Hs' & Hpre).
        exists (s :: pre), s', post. repeat split; [assumption|].
        constructor; [rewrite Es; reflexivity | assumption].
      * destruct IH as [-> Hall]. split; [reflexivity|].
        constructor; [rewrite Es; reflexivity | assumption].
Qed.

(** [NewMultiSource] replaces the multi-sources among its arguments by their
    sources; what is read and stat'ed through it is what the nested sources
    in the same order would give. *)
Theorem NewMultiSource_flattening (ss : list Source) (uri : string) :
  Source_ReadFile (NewMultiSource ss) uri = Source_ReadFile (SMulti ss) uri /\
  Source_Stat (NewMultiSource ss) uri = Source_Stat (SMulti ss) uri.
Proof. split; [apply NewMultiSource_ReadFile | apply NewMultiSource_Stat]. Qed.

Lemma filesystem_Source_ReadFile (f : folder.t) (rest : list folder.t)
    (uri : string) :
  Source_ReadFile (filesystem.Source (filesystem.mk (f :: rest))) uri
  = match OverlayFS_ReadFile f.(folder.overlayfs) uri with
    | Ok h => Ok h
    | Err _ =>
        match Source_ReadFile f.(folder.modssource) uri with
        | Ok h => Ok h
        | Err _ => Source_ReadFile (filesystem.Source (filesystem.mk rest)) uri
        end
    end.
Proof.
  unfold filesystem.Source. cbn [filesystem.folders map].
  rewrite !NewMultiSource_ReadFile, MultiSource_ReadFile_cons.
  unfold folder.Souce. rewrite NewMultiSource_ReadFile.
  rewrite !MultiSource_ReadFile_cons.
  change (Source_ReadFile (SOverlayFS (folder.overlayfs f)) uri)
    with (OverlayFS_ReadFile (folder.overlayfs f) uri).
  destruct (OverlayFS_ReadFile _ uri); [reflexivity|].
  destruct (Source_ReadFile (folder.modssource f) uri); reflexivity.
Qed.

Lemma filesystem_Source_Stat (f : folder.t) (rest : list folder.t)
    (uri : string) :
  Source_Stat (filesystem.Source (filesystem.mk (f :: rest))) uri
  = match OverlayFS_Stat f.(folder.overlayfs) uri with
    | Ok ol => Ok (Overlay.info ol)
    | Err _ =>
        match Source_Stat f.(folder.modssource) uri with
        | Ok info => Ok info
        | Err _ => Source_Stat (filesystem.Source (filesystem.mk rest)) uri
        end
    end.
Proof.
  unfold filesystem.Source. cbn [filesystem.folders map].
  rewrite !NewMultiSource_Stat, MultiSource_Stat_cons.
  unfold folder.Souce. rewrite NewMultiSource_Stat.
  rewrite !MultiSource_Stat_cons.
  change (Source_Stat (SOverlayFS (folder.overlayfs f)) uri)
    with (match OverlayFS_Stat (folder.overlayfs f) uri with
          | Ok ol => Ok (Overlay.info ol)
          | Err e => Err e
          end).
  destruct (OverlayFS_Stat _ uri); [reflexivity|].
  destruct (Source_Stat (folder.modssource f) uri); reflexivity.
Qed.

(** The source of the file system reads a URI folder by folder: the overlay
    file system of a folder (overlay, then delegate) comes before its module
    sources, and a folder before the folders after it. *)
Lemma filesystem_Source_order (f : folder.t) (rest : list folder.t)
    (uri : string) :
  Source_ReadFile (filesystem.Source (filesystem.mk (f :: rest))) uri
  = match OverlayFS_ReadFile f.(folder.overlayfs) uri with
    | Ok h => Ok h
    | Err _ =>
        match Source_ReadFile f.(folder.modssource) uri with
        | Ok h => Ok h
        | Err _ => Source_ReadFile (filesystem.Source (filesystem.mk rest)) uri
        end
    end /\
  Source_Stat (filesystem.Source (filesystem.mk (f :: rest))) uri
  = match OverlayFS_Stat f.(folder.overlayfs) uri with
    | Ok ol => Ok (Overlay.info ol)
    | Err _ =>
        match Source_Stat f.(folder.modssource) uri with
        | Ok info => Ok info
        | Err _ => Source_Stat (filesystem.Source (filesystem.mk rest)) uri
        end
    end.
Proof.
  split; [apply filesystem_Source_ReadFile | apply filesystem_Source_Stat].
Qed.

(** The handle of a [filesystem.Open] that succeeds is the overlay one of
    the overlay file systems has stored. *)
Lemma filesystem_Open_ok (fs fs' : filesystem.t) (o : Overlay.t) (h : Handle) :
  filesystem.Open fs o = (Ok h, fs') ->
  exists f o' ofs',
    OverlayFS_Open f.(folder.overlayfs) o = (Ok o', ofs') /\ h = HOverlay o'.
Proof.
  destruct fs as [folders]. unfold filesystem.Open. cbn [filesystem.folders].
  revert fs'. induction folders as [|f rest IH]; intros fs'; [discriminate|].
  cbn [filesystem.open_in].
  destruct (OverlayFS_Open (folder.overlayfs f) o) as [[o'|e] ofs'] eqn:Eo.
  - intros [= <- _]. eauto.
  - destruct (filesystem.open_in rest o) as [[h'|e'] rest'] eqn:Er;
      [|discriminate].
    intros [= <- _]. apply (IH (filesystem.mk rest')). reflexivity.
Qed.

(** [filesystem.Open] stores the overlay in the first folder whose overlay
    file system accepts it and leaves the other folders as they were; when
    every folder rejects it the error is [os.ErrNotExist] and the file
    system is unchanged. *)
Theorem filesystem_Open_first_accepting (fs : filesystem.t) (o : Overlay.t) :
  match filesystem.Open fs o with
  | (Ok h, fs') =>
      exists pre f post o' ofs',
        fs.(filesystem.folders) = pre ++ f :: post /\
        Forall (fun g =>
                  is_Err (OverlayFS_Open g.(folder.overlayfs) o).1 = true) pre /\
        OverlayFS_Open f.(folder.overlayfs) o = (Ok o', ofs') /\
        h = HOverlay o' /\
        fs'.(filesystem.folders)
        = pre ++ folder.mk f.(folder.Name) f.(folder.URI) ofs'
                   f.(folder.modssource) :: post
  | (Err e, fs') =>
      e = ErrNotExist /\ fs' = fs /\
      Forall (fun g =>
                is_Err (OverlayFS_Open g.(folder.overlayfs) o).1 = true)
        fs.(filesystem.folders)
  end.
Proof.
  destruct fs as [folders]. unfold filesystem.Open. cbn [filesystem.folders].
  induction folders as [|f rest IH]; [cbn; auto|].
  cbn [filesystem.open_in].
  destruct (OverlayFS_Open (folder.overlayfs f) o) as [[o'|e] ofs'] eqn:Eo.
  - exists [], f, rest, o', ofs'. cbn. auto.
  - destruct (filesystem.open_in rest o) as [[h|e'] rest'].
    + destruct IH as (pre & g & post & o' & ofs2 & -> & Hpre & Hg & -> & Hf).
      cbn in Hf. subst rest'.
      exists (f :: pre), g, post, o', ofs2. repeat split; try assumption.
      constructor; [rewrite Eo; reflexivity | assumption].
    + destruct IH as (-> & [= ->] & Hall). repeat split.
      constructor; [rewrite Eo; reflexivity | assumption].
Qed.

End multi_more.

(** ** Locations *)

Section location_more.
Context `{GoLib} `{LowerSources} `{ProtoCompile}.

Lemma Forall_Source (P : Source -> Prop) :
  (forall l, P (SLower l)) ->
  (forall fs, P (SOverlayFS fs)) ->
  (forall ss, Forall P ss -> P (SMulti ss)) ->
  forall s, P s.
Proof.
  intros Hl Ho Hm. fix IH 1. intros [l|fs|ss]; [apply Hl | apply Ho |].
  apply Hm. induction ss as [|s ss IHss]; constructor; [apply IH | apply IHss].
Qed.

Lemma source2locations_cons (s : Source) (ss : list Source) (uri : string) :
  source2locations (SMulti (s :: ss)) uri
  = source2locations s uri ++ source2locations (SMulti ss) uri.
Proof. reflexivity. Qed.

Lemma head_app {A} (l1 l2 : list A) :
  head (l1 ++ l2) = match head l1 with Some a => Some a | None => head l2 end.
Proof. destruct l1; reflexivity. Qed.

Lemma source2locations_head (s : Source) (uri : string) :
  head (source2locations s uri) = stat_location s uri.
Proof.
  induction s as [l|fs|ss IH] using Forall_Source.
  - unfold stat_location. cbn. destruct (lower_Stat l uri); reflexivity.
  - unfold stat_location. cbn. destruct (OverlayFS_Stat fs uri); reflexivity.
  - induction IH as [|s ss Hs _ IH]; [reflexivity|].
    rewrite source2locations_cons, head_app, Hs, IH.
    unfold stat_location. rewrite MultiSource_Stat_cons.
    destruct (Source_Stat s uri); reflexivity.
Qed.

Lemma filesystem_Location_head (fs : filesystem.t) (uri : string) :
  head (filesystem_Location fs uri) = stat_location (filesystem.Source fs) uri.
Proof.
  destruct fs as [folders]. unfold filesystem_Location.
  cbn [filesystem.folders].
  induction folders as [|f rest IH]; [reflexivity|].
  cbn [flat_map]. unfold folder_Location at 1.
  rewrite !head_app, IH, !source2locations_head.
  unfold stat_location. rewrite filesystem_Source_Stat. cbn [Source_Stat].
  destruct (OverlayFS_Stat _ uri); [reflexivity|].
  destruct (Source_Stat (folder.modssource f) uri); reflexivity.
Qed.

(** The first location that [filesystem.Location] returns for a URI is the
    local path of the file that [Stat] on the source of the file system
    finds, and there is no location exactly when [Stat] fails. *)
Lemma Location_first_is_Stat (fs : filesystem.t) (uri : string) :
  head (filesystem_Location fs uri)
  = match Source_Stat (filesystem.Source fs) uri with
    | Ok info => Some info.(LocalPath)
    | Err _ => None
    end /\
  (filesystem_Location fs uri = [] <->
   is_Err (Source_Stat (filesystem.Source fs) uri) = true).
Proof.
  pose proof (filesystem_Location_head fs uri) as Hh.
  unfold stat_location in Hh. split; [exact Hh|].
  destruct (Source_Stat (filesystem.Source fs) uri);
    destruct (filesystem_Location fs uri); cbn in *; split; congruence.
Qed.

(** Go-to-definition answers with locations only on an import: with no
    import node at the position there is none, and otherwise the first
    location is the local path that [Stat] finds for the normalised name of
    the first import node at the position. *)
Theorem Definition_first_location (fm : fileManager.t) (pf : File.t)
    (pos : Position) :
  match import_nodes (File.NodesAt pf pos) with
  | [] => fileManager_Definition fm pf pos = []
  | imp :: _ =>
      head (fileManager_Definition fm pf pos)
      = match Source_Stat (filesystem.Source fm.(fileManager.fs))
                (file.NormalURIStr imp.(ImpName)) with
        | Ok info => Some info.(LocalPath)
        | Err _ => None
        end
  end.
Proof.
  unfold fileManager_Definition.
  destruct (File.NodesAt pf pos) as [|n ns] eqn:En; [reflexivity|].
  cbn [length Nat.eqb].
  destruct (import_nodes (n :: ns)) as [|imp imps]; [reflexivity|].
  apply filesystem_Location_head.
Qed.

End location_more.

(** ** More on the diagnostic client *)

Section diagnostic_more.
Import DiagnosticClient.

Lemma add_all_app (S1 S2 : list Diagnostic) (dmap : gmap Range Diagnostic) :
  add_all (S1 ++ S2) dmap = add_all S2 (add_all S1 dmap).
Proof. unfold add_all. apply fold_left_app. Qed.

Lemma AddDiagnostics_sent (d : t) (h : Handle) (S : list Diagnostic) :
  (AddDiagnostics d h S).(sent) = d.(sent).
Proof. reflexivity. Qed.

Lemma AddDiagnostics_other (d : t) (h : Handle) (S : list Diagnostic)
    (u : string) :
  u <> Handle.URI h -> (AddDiagnostics d h S).(cache) !! u = d.(cache) !! u.
Proof. intros Hu. cbn. apply lookup_insert_ne. congruence. Qed.

(** Without a [Reset] in between, diagnostics accumulate: adding [S1] and
    then [S2] for a handle is adding [S1 ++ S2], and the map of the URI then
    holds, at every range, the last diagnostic of [S1 ++ S2] at that range,
    or what it held before when there is none. *)
Theorem AddDiagnostics_accumulates (d : t) (h : Handle)
    (S1 S2 : list Diagnostic) :
  AddDiagnostics (AddDiagnostics d h S1) h S2 = AddDiagnostics d h (S1 ++ S2) /\
  exists dmap,
    (AddDiagnostics d h (S1 ++ S2)).(cache) !! Handle.URI h = Some dmap /\
    forall r, dmap !! r =
      match last_at r (S1 ++ S2) with
      | Some x => Some x
      | None => default ∅ (d.(cache) !! Handle.URI h) !! r
      end.
Proof.
  split.
  - unfold AddDiagnostics. cbn [cache sent].
    rewrite lookup_insert_eq, insert_insert_eq, add_all_app. reflexivity.
  - eexists. split; [cbn; apply lookup_insert_eq|].
    intros r. rewrite add_all_lookup.
    destruct (cache d !! Handle.URI h); reflexivity.
Qed.

(** [Reset], [AddDiagnostics] and [Notify] for a handle leave the cached
    diagnostics of every other URI and what the client has last been sent
    for every other URI as they were; only [Notify] sends. *)
Lemma diagnostics_of_other_URIs (d : t) (h : Handle) (S : list Diagnostic)
    (u : string) :
  u <> Handle.URI h ->
  (Reset d h).(cache) !! u = d.(cache) !! u /\
  (AddDiagnostics d h S).(cache) !! u = d.(cache) !! u /\
  (Notify d h).(cache) = d.(cache) /\
  (Reset d h).(sent) = d.(sent) /\
  (AddDiagnostics d h S).(sent) = d.(sent) /\
  observed (Notify d h) u = observed d u.
Proof.
  intros Hu. repeat split.
  - cbn. apply lookup_delete_ne. congruence.
  - apply AddDiagnostics_other, Hu.
  - unfold observed, Notify. cbn [sent]. rewrite list.filter_app, filter_cons.
    cbn [PURI]. rewrite decide_False by congruence.
    rewrite filter_nil, app_nil_r. reflexivity.
Qed.


End diagnostic_more.

Section diagnostic_more_examples.
Import DiagnosticClient example.

(** [diagnostics_of_other_URIs] on the handles of the example: publishing
    for [a.proto] leaves what the client holds for [b.proto]. *)
Lemma diagnostics_of_other_URIs_witness :
  let d := Notify (AddDiagnostics NewDiagnosticClient (HOverlay b_overlay)
                     [mkDiagnostic (mkRange (mkPosition 0 0) (mkPosition 0 7))
                        1 "syntax error" reporter.source])
             (HOverlay b_overlay) in
  observed (Notify d a_v5) "file:///w/b.proto" = observed d "file:///w/b.proto".
Proof.
  intros d.
  destruct (diagnostics_of_other_URIs d a_v5 [] "file:///w/b.proto")
    as (_ & _ & _ & _ & _ & Ho); [discriminate | exact Ho].
Defined.

End diagnostic_more_examples.

(** ** Positions *)

Section position_more.
Import position.

(** The two conversions are inverse on the positions of a file: a one-based
    source position with line and column from 1 to [2^32 - 1] is given back
    by [NewOneBasePosition] of its zero-based position, and a zero-based
    position below [2^32 - 1] by the zero-based position of its one-based
    source position. *)
Lemma zero_one_base_round_trip (sp : SourcePos) (pos : Position) :
  1 <= sp.(SLine) < 2 ^ 32 -> 1 <= sp.(Col) < 2 ^ 32 ->
  0 <= pos.(PLine) < 2 ^ 32 - 1 -> 0 <= pos.(Character) < 2 ^ 32 - 1 ->
  NewOneBasePosition (ToPosition (NewZeroBaseSourcePos sp))
  = mkPosition sp.(SLine) sp.(Col) /\
  ToPosition
    (NewZeroBaseSourcePos
       (mkSourcePos (NewOneBasePosition pos).(PLine)
          (NewOneBasePosition pos).(Character)))
  = pos.
Proof.
  intros HL HC HP HCh. destruct sp as [l c], pos as [pl pc]. cbn in *.
  unfold NewOneBasePosition, ToPosition, NewZeroBaseSourcePos. cbn.
  split.
  - assert ((c >? 0) = true) as -> by (apply Z.gtb_lt; lia).
    assert ((l >? 0) = true) as -> by (apply Z.gtb_lt; lia).
    cbn. rewrite !(uint32_wrap_small (_ - 1)) by lia.
    rewrite !uint32_wrap_small by lia. f_equal; lia.
  - rewrite !(uint32_wrap_small (_ + 1)) by lia.
    assert ((pc + 1 >? 0) = true) as -> by (apply Z.gtb_lt; lia).
    assert ((pl + 1 >? 0) = true) as -> by (apply Z.gtb_lt; lia).
    cbn. rewrite !uint32_wrap_small by lia. f_equal; lia.
Qed.

(** A position is within a node only between its first and its last line,
    and within a node that lies on one line, that line, only between its
    first and its last column; a node that ends before it starts contains no
    position. *)
Lemma PositionWithinNode_bounds (ni : NodeInfo) (zpos : Position) :
  PositionWithinNode ni zpos = true ->
  ni.(NStart).(SLine) <= (NewOneBasePosition zpos).(PLine)
    <= ni.(NEnd).(SLine) /\
  (ni.(NStart).(SLine) = ni.(NEnd).(SLine) ->
   ni.(NStart).(Col) <= (NewOneBasePosition zpos).(Character)
     <= ni.(NEnd).(Col)).
Proof.
  unfold PositionWithinNode. cbn zeta.
  destruct (Z.eqb_spec ni.(NStart).(SLine) ni.(NEnd).(SLine)) as [E|E];
    cbn [andb].
  - destruct (Z.eqb_spec ni.(NStart).(SLine) (NewOneBasePosition zpos).(PLine))
      as [E'|E'].
    + intros Hc. apply andb_prop in Hc as [H1 H2].
      apply Z.leb_le in H1. apply Z.geb_le in H2. lia.
    + intros Hc. apply andb_prop in Hc as [H1 H2].
      apply Z.leb_le in H1. apply Z.geb_le in H2. lia.
  - intros Hc. apply andb_prop in Hc as [H1 H2].
    apply Z.leb_le in H1. apply Z.geb_le in H2. lia.
Qed.

(** [PositionNodeLen] is [(-1, -1)] exactly outside the node; inside, it
    does not depend on the position: for a node on one line it is
    [(0, end column - start column)], for a node over several lines
    [(end line - start line, -1)]. A position is within a node only between
    its first and its last line, and within a node on one line only between
    its first and its last column. *)
Theorem PositionNodeLen_spans (ni : NodeInfo) (zpos : Position) :
  PositionNodeLen ni zpos =
  (if negb (PositionWithinNode ni zpos) then (-1, -1)
   else if ni.(NStart).(SLine) =? ni.(NEnd).(SLine)
        then (0, ni.(NEnd).(Col) - ni.(NStart).(Col))
        else (ni.(NEnd).(SLine) - ni.(NStart).(SLine), -1)) /\
  (PositionWithinNode ni zpos = true ->
   ni.(NStart).(SLine) <= (NewOneBasePosition zpos).(PLine)
     <= ni.(NEnd).(SLine) /\
   (ni.(NStart).(SLine) = ni.(NEnd).(SLine) ->
    ni.(NStart).(Col) <= (NewOneBasePosition zpos).(Character)
      <= ni.(NEnd).(Col))).
Proof.
  split; [|apply PositionWithinNode_bounds].
  unfold PositionNodeLen.
  destruct (PositionWithinNode ni zpos); cbn [negb]; [|reflexivity].
  destruct (_ =? _); f_equal; lia.
Qed.

End position_more.

Section position_more_examples.
Import position.

(** [zero_one_base_round_trip] on line 6, column 3. *)
Lemma zero_one_base_round_trip_witness :
  NewOneBasePosition (ToPosition (NewZeroBaseSourcePos (mkSourcePos 6 3)))
  = mkPosition 6 3 /\
  ToPosition
    (NewZeroBaseSourcePos
       (mkSourcePos (NewOneBasePosition (mkPosition 5 2)).(PLine)
          (NewOneBasePosition (mkPosition 5 2)).(Character)))
  = mkPosition 5 2.
Proof.
  apply (zero_one_base_round_trip (mkSourcePos 6 3) (mkPosition 5 2));
    cbn; lia.
Defined.

End position_more_examples.

(** ** More on parsed files and the cache *)

Section parser_more.
Context `{GoLib} `{ProtoCompile}.

Lemma fold_visit (ns : list Node) : forall pk imps,
  fold_left File.visit ns (pk, imps)
  = (match list.last (package_nodes ns) with
     | Some pn => Some pn
     | None => pk
     end,
     imps ++ import_nodes ns).
Proof.
  induction ns as [|n ns IH]; intros pk imps.
  - cbn. rewrite app_nil_r. reflexivity.
  - cbn [fold_left]. destruct n as [pn|i|typ info]; cbn [File.visit fst snd].
    + rewrite IH. cbn [package_nodes import_nodes flat_map app].
      fold (package_nodes ns). fold (import_nodes ns).
      rewrite last_cons. destruct (list.last (package_nodes ns)); reflexivity.
    + rewrite IH. cbn [package_nodes import_nodes flat_map app].
      fold (package_nodes ns). fold (import_nodes ns).
      rewrite <- app_assoc. reflexivity.
    + rewrite IH. reflexivity.
Qed.

(** A [File.Parse] that parses (the file has no syntax tree, or is older
    than its handle) and succeeds takes the version of the handle, appends
    the import nodes of the tree, in the order of the walk, to the imports
    the file had, and takes the last package node of the tree as the
    package, keeping the one it had when the tree has none. *)
Theorem File_Parse_collects (f f' : File.t) (h : Handle)
    (dc dc' : DiagnosticClient.t) :
  f.(File.handle) = Some h ->
  File.needReParse f h = true ->
  File.Parse f dc = (Ok tt, f', dc') ->
  exists fn,
    f'.(File.fn) = Some fn /\
    f'.(File.version) = Handle.Version h /\
    Handle.Content h = Ok (default ""%string f'.(File.content)) /\
    f'.(File.imports) = f.(File.imports) ++ import_nodes fn.(walk) /\
    f'.(File.pkg) = match list.last (package_nodes fn.(walk)) with
                    | Some pn => Some pn
                    | None => f.(File.pkg)
                    end.
Proof.
  intros Hh Hn. unfold File.Parse. rewrite Hh, Hn. cbn [negb].
  destruct (Handle.Content h) as [content|e]; [|discriminate].
  destruct (parser_Parse _ content) as [reps [fn inv|e]]; [|discriminate].
  destruct (parser_ResultFromAST fn) as [reps' [res inv'|e]]; [|discriminate].
  intros [= <- <-]. exists fn. cbn. rewrite fold_visit. cbn. auto.
Qed.

(** A [File.Parse] that returns an error leaves the file as it was; after
    one that succeeds the file has the handle it had and needs no parse:
    a second [File.Parse] changes neither the file nor the diagnostics. *)
Theorem File_Parse_settles (f : File.t) (dc : DiagnosticClient.t) :
  match File.Parse f dc with
  | (Err _, f', _) => f' = f
  | (Ok _, f', dc') =>
      exists h, f.(File.handle) = Some h /\ f'.(File.handle) = Some h /\
        File.needReParse f' h = false /\
        File.Parse f' dc' = (Ok tt, f', dc')
  end.
Proof.
  unfold File.Parse at 1.
  destruct (File.handle f) as [h|] eqn:Hh; [|reflexivity].
  destruct (File.needReParse f h) eqn:Hn; cbn [negb].
  - destruct (Handle.Content h) as [content|e]; [|reflexivity].
    destruct (parser_Parse _ content) as [reps [fn inv|e]]; [|reflexivity].
    destruct (parser_ResultFromAST fn) as [reps' [res inv'|e]]; [|reflexivity].
    exists h. split; [reflexivity|]. split; [reflexivity|].
    assert (Hn' : File.needReParse
                    (File.mk (Some h) (File.reporter f) (File.symbols f)
                       (File.linkerfile f) (File.uri f) (Some content)
                       (Handle.Version h) (Some fn) (Some res)
                       (fold_left File.visit (walk fn)
                          (File.pkg f, File.imports f)).1
                       (fold_left File.visit (walk fn)
                          (File.pkg f, File.imports f)).2) h = false).
    { unfold File.needReParse. cbn. rewrite Z.ltb_irrefl. reflexivity. }
    split; [exact Hn'|]. apply (File_Parse_skip _ h); [reflexivity | exact Hn'].
  - exists h. split; [reflexivity|]. split; [exact Hh|].
    split; [exact Hn|]. apply (File_Parse_skip _ h); assumption.
Qed.

End parser_more.

(** ** More on the parser *)

Section parser_cache_more.
Context `{GoLib} `{ProtoCompile}.

Lemma reports_only_for_refl (r : Reporter) (dc : DiagnosticClient.t) :
  reports_only_for r dc dc.
Proof. split; [reflexivity|]. destruct r; auto. Qed.

Lemma reports_only_for_trans (r : Reporter) (dc1 dc2 dc3 : DiagnosticClient.t) :
  reports_only_for r dc1 dc2 -> reports_only_for r dc2 dc3 ->
  reports_only_for r dc1 dc3.
Proof.
  intros [Hs1 Hc1] [Hs2 Hc2]. split; [congruence|].
  destruct r as [|h0]; [congruence|].
  intros u Hu. rewrite (Hc2 u Hu). apply Hc1, Hu.
Qed.

Lemma report_all_only_for (r : Reporter) (reps : list Report) :
  forall dc, reports_only_for r dc (reporter.report_all r dc reps).
Proof.
  unfold reporter.report_all.
  induction reps as [|rep reps IH]; intros dc; cbn [fold_left].
  - apply reports_only_for_refl.
  - eapply reports_only_for_trans; [|apply IH].
    split; [destruct r; reflexivity|].
    destruct r as [|h0]; [reflexivity|].
    intros u Hu. cbn [reporter.report].
    apply lookup_insert_ne. congruence.
Qed.

Lemma File_Parse_reports (f : File.t) (dc : DiagnosticClient.t) :
  reports_only_for f.(File.reporter) dc (File.Parse f dc).2 /\
  (File.Parse f dc).1.2.(File.reporter) = f.(File.reporter).
Proof.
  unfold File.Parse.
  destruct (File.handle f) as [h|]; [|split; [apply reports_only_for_refl|reflexivity]].
  destruct (negb _); [split; [apply reports_only_for_refl|reflexivity]|].
  destruct (Handle.Content h) as [content|e];
    [|split; [apply reports_only_for_refl|reflexivity]].
  destruct (parser_Parse _ content) as [reps [fn inv|e]];
    [|split; [apply report_all_only_for|reflexivity]].
  assert (Hr : forall reps',
             reports_only_for (File.reporter f) dc
               (reporter.report_all (File.reporter f)
                  (reporter.report_all (File.reporter f) dc reps) reps')).
  { intros reps'. eapply reports_only_for_trans; apply report_all_only_for. }
  destruct (parser_ResultFromAST fn) as [reps' [res inv'|e]];
    (split; [apply Hr | reflexivity]).
Qed.

Lemma File_Compile_reports (f : File.t) resolver (dc : DiagnosticClient.t) :
  reports_only_for f.(File.reporter) dc (File.Compile f resolver dc).2 /\
  (File.Compile f resolver dc).1.2.(File.reporter) = f.(File.reporter).
Proof.
  unfold File.Compile.
  destruct (compiler_Compile _ _) as [[reps syms] [[lf|] inv|e]]; cbn;
    (split; [apply report_all_only_for | reflexivity]).
Qed.

Lemma lookup_or_create_reporter (p : Parser.t) (uri : string) (h : Handle) :
  (Parser.lookup_or_create p uri h).1.(File.reporter) = reporter_of p uri h.
Proof.
  unfold Parser.lookup_or_create, reporter_of.
  destruct (Parser.files p !! uri); reflexivity.
Qed.

Lemma lookup_or_create_pkgs (p : Parser.t) (uri : string) (h : Handle)
    (n : string) :
  n <> ""%string ->
  (Parser.lookup_or_create p uri h).2.(Parser.pkgs) !! n
  = p.(Parser.pkgs) !! n.
Proof.
  intros Hn. unfold Parser.lookup_or_create.
  destruct (Parser.files p !! uri) as [f|]; [|reflexivity].
  unfold Parser.pkgremove. cbn.
  destruct (Parser.pkgs p !! ""%string); [|reflexivity].
  cbn. apply lookup_insert_ne. congruence.
Qed.

Lemma pkgadd_lookup (p : Parser.t) (f : File.t) (n : string) (pk : Package.t) :
  p.(Parser.pkgs) !! n = Some pk ->
  exists pk', (Parser.pkgadd p f).(Parser.pkgs) !! n = Some pk' /\
              pk.(Package.files) ⊆ pk'.(Package.files).
Proof.
  intros Hn. unfold Parser.pkgadd. cbn [Parser.pkgs].
  destruct (decide (File.PackageName f = n)) as [<-|Hne].
  - rewrite Hn, lookup_insert_eq. eexists. split; [reflexivity|].
    unfold Package.AddFile. destruct (bool_decide _); cbn; set_solver.
  - rewrite lookup_insert_ne by exact Hne. eauto.
Qed.

Lemma pkgadd_registers (p : Parser.t) (f : File.t) :
  exists pk, (Parser.pkgadd p f).(Parser.pkgs) !! File.PackageName f = Some pk /\
             f.(File.uri) ∈ pk.(Package.files).
Proof.
  unfold Parser.pkgadd. cbn [Parser.pkgs]. rewrite lookup_insert_eq.
  eexists. split; [reflexivity|]. unfold Package.AddFile.
  destruct (bool_decide (_ ∈ _)) eqn:E; cbn.
  - apply bool_decide_eq_true in E. exact E.
  - set_solver.
Qed.

Lemma Parse_files_frame (p : Parser.t)
    (resolver : string -> result string) (dc : DiagnosticClient.t)
    (uri : string) (h : Handle) :
  delete uri (Parser.Parse p resolver dc uri h).1.2.(Parser.files)
  = delete uri p.(Parser.files) /\
  is_Some ((Parser.Parse p resolver dc uri h).1.2.(Parser.files) !! uri).
Proof.
  unfold Parser.Parse.
  pose proof (lookup_or_create_reset p uri h) as Hl. cbn zeta in Hl.
  destruct (Parser.lookup_or_create p uri h) as [f0 p0]. cbn [fst snd] in Hl.
  destruct Hl as (_ & Hfiles & _).
  destruct (File.Parse f0 dc) as [[[[]|e] f1] dc1].
  - destruct (File.Compile f1 resolver dc1) as [[rc f2] dc2].
    cbn [fst snd]. rewrite pkgadd_files. cbn.
    rewrite Hfiles, lookup_insert_eq, !delete_insert_eq. eauto.
  - cbn. rewrite Hfiles, lookup_insert_eq, !delete_insert_eq. eauto.
Qed.

(** [Parser.Parse] changes the cache of the files at the URI it is called
    with only, where it always leaves a file. *)
Lemma Parse_changes_one_entry (p : Parser.t)
    (resolver : string -> result string) (dc : DiagnosticClient.t)
    (uri : string) (h : Handle) :
  delete uri (Parser.Parse p resolver dc uri h).1.2.(Parser.files)
  = delete uri p.(Parser.files) /\
  is_Some ((Parser.Parse p resolver dc uri h).1.2.(Parser.files) !! uri).
Proof. apply Parse_files_frame. Qed.

(** After a [Parser.Parse] that succeeds the file is registered in the
    package it names; and no [Parser.Parse] takes a file out of a package
    with a name: a file that has changed its package stays a file of the
    package it had. *)
Theorem Parse_packages (p : Parser.t) (resolver : string -> result string)
    (dc : DiagnosticClient.t) (uri : string) (h : Handle) :
  match Parser.Parse p resolver dc uri h with
  | (Ok f, p', _) =>
      exists pk, p'.(Parser.pkgs) !! File.PackageName f = Some pk /\
                 f.(File.uri) ∈ pk.(Package.files)
  | (Err _, p', _) => p'.(Parser.pkgs) = (Parser.lookup_or_create p uri h).2.(Parser.pkgs)
  end /\
  forall n pk, n <> ""%string -> p.(Parser.pkgs) !! n = Some pk ->
    exists pk',
      (Parser.Parse p resolver dc uri h).1.2.(Parser.pkgs) !! n = Some pk' /\
      pk.(Package.files) ⊆ pk'.(Package.files).
Proof.
  unfold Parser.Parse. split.
  - destruct (Parser.lookup_or_create p uri h) as [f0 p0].
    destruct (File.Parse f0 dc) as [[[[]|e] f1] dc1]; [|reflexivity].
    destruct (File.Compile f1 resolver dc1) as [[rc f2] dc2].
    apply pkgadd_registers.
  - intros n pk Hn Hpk.
    pose proof (lookup_or_create_pkgs p uri h n Hn) as Hl.
    destruct (Parser.lookup_or_create p uri h) as [f0 p0]. cbn [fst snd] in Hl.
    rewrite <- Hl in Hpk.
    destruct (File.Parse f0 dc) as [[[[]|e] f1] dc1].
    + destruct (File.Compile f1 resolver dc1) as [[rc f2] dc2]. cbn [fst snd].
      apply pkgadd_lookup. exact Hpk.
    + cbn. exists pk. split; [exact Hpk | reflexivity].
Qed.


Lemma Parse_reports_frame (p : Parser.t)
    (resolver : string -> result string) (dc : DiagnosticClient.t)
    (uri : string) (h h' : Handle) :
  reports_only_for (reporter_of p uri h) dc
    (Parser.Parse p resolver dc uri h).2 /\
  reporter_of (Parser.Parse p resolver dc uri h).1.2 uri h'
  = reporter_of p uri h.
Proof.
  unfold Parser.Parse.
  pose proof (lookup_or_create_reporter p uri h) as Hr.
  destruct (Parser.lookup_or_create p uri h) as [f0 p0]. cbn [fst snd] in Hr.
  pose proof (File_Parse_reports f0 dc) as [Hp Hpr].
  destruct (File.Parse f0 dc) as [[[[]|e] f1] dc1]; cbn [fst snd] in Hp, Hpr.
  - pose proof (File_Compile_reports f1 resolver dc1) as [Hc Hcr].
    destruct (File.Compile f1 resolver dc1) as [[rc f2] dc2].
    cbn [fst snd] in Hc, Hcr |- *. rewrite <- Hr. split.
    + eapply reports_only_for_trans; [exact Hp|]. rewrite <- Hpr. exact Hc.
    + unfold reporter_of. rewrite pkgadd_files. cbn.
      rewrite lookup_insert_eq. congruence.
  - cbn [fst snd]. rewrite <- Hr. split; [exact Hp|].
    unfold reporter_of. cbn. rewrite lookup_insert_eq. exact Hpr.
Qed.

(** What [Parser.Parse] reports goes to the reporter the file of the URI
    was created with: nothing is sent to the client, and the diagnostics of
    a URI change only if it is the URI of the handle of that reporter, the
    handle of the first [Parse] of the URI (never, for a [noopReporter]);
    the cached file keeps that reporter, whatever the handle of the next
    [Parse]. *)
Theorem Parse_reports_to_first_handle (p : Parser.t)
    (resolver : string -> result string) (dc : DiagnosticClient.t)
    (uri : string) (h h' : Handle) :
  (Parser.Parse p resolver dc uri h).2.(DiagnosticClient.sent)
  = dc.(DiagnosticClient.sent) /\
  (forall u,
     (forall h0, reporter_of p uri h = fileReporter h0 -> u <> Handle.URI h0) ->
     (Parser.Parse p resolver dc uri h).2.(DiagnosticClient.cache) !! u
     = dc.(DiagnosticClient.cache) !! u) /\
  (p.(Parser.files) !! uri = None ->
   File.Contains (file.URI2Filename uri) File.descriptorPath = false ->
   reporter_of p uri h = fileReporter h) /\
  reporter_of (Parser.Parse p resolver dc uri h).1.2 uri h'
  = reporter_of p uri h.
Proof.
  destruct (Parse_reports_frame p resolver dc uri h h') as [[Hs Hc] Hr].
  split; [exact Hs|]. split; [|split; [|exact Hr]].
  - intros u Hu. destruct (reporter_of p uri h) as [|h0].
    + rewrite Hc. reflexivity.
    + apply Hc, (Hu h0 eq_refl).
  - intros Hnone Hd. unfold reporter_of, File.newFile.
    rewrite Hnone, Hd. reflexivity.
Qed.

(** Nothing is reported for [descriptor.proto]: a file whose name contains
    [google/protobuf/descriptor.proto] is created with the [noopReporter]
    and keeps it, and its [Parser.Parse] leaves the diagnostics as they
    were. *)
Theorem descriptor_is_silent (p : Parser.t)
    (resolver : string -> result string) (dc : DiagnosticClient.t)
    (uri : string) (h : Handle) :
  descriptor_quiet p ->
  descriptor_quiet (Parser.Parse p resolver dc uri h).1.2 /\
  (File.Contains (file.URI2Filename uri) File.descriptorPath = true ->
   (Parser.Parse p resolver dc uri h).2 = dc).
Proof.
  intros Hq.
  assert (Hrep : File.Contains (file.URI2Filename uri) File.descriptorPath = true ->
                 reporter_of p uri h = noopReporter).
  { intros Hc. unfold reporter_of.
    destruct (Parser.files p !! uri) as [f|] eqn:E; [apply (Hq uri f E Hc)|].
    unfold File.newFile. rewrite Hc. reflexivity. }
  pose proof (Parse_reports_frame p resolver dc uri h) as Hfr.
  split.
  - intros k f Hk Hc.
    destruct (decide (k = uri)) as [->|Hne].
    + destruct (Hfr h) as [_ Hsame].
      unfold reporter_of at 1 in Hsame. rewrite Hk in Hsame.
      rewrite Hsame. apply Hrep, Hc.
    + pose proof (Parse_files_frame p resolver dc uri h) as [Hd _].
      apply (f_equal (fun m => m !! k)) in Hd.
      rewrite !lookup_delete_ne in Hd by congruence.
      rewrite Hd in Hk. apply (Hq k f Hk Hc).
  - intros Hc. destruct (Hfr h) as [[_ Hdc] _]. rewrite (Hrep Hc) in Hdc.
    exact Hdc.
Qed.

End parser_cache_more.

Section parser_more_examples.
Import example scenario.

(** [File_Parse_collects] on the stale file of [a.proto]: parsed again
    without a reset, it keeps the import of [c.proto] and adds [b.proto]. *)
Lemma File_Parse_collects_witness :
  exists fn,
    (File.Parse a_stale DiagnosticClient.NewDiagnosticClient).1.2.(File.fn)
    = Some fn /\
    (File.Parse a_stale DiagnosticClient.NewDiagnosticClient).1.2.(File.version)
    = Handle.Version a_v7 /\
    Handle.Content a_v7
    = Ok (default ""%string
            (File.Parse a_stale
               DiagnosticClient.NewDiagnosticClient).1.2.(File.content)) /\
    (File.Parse a_stale DiagnosticClient.NewDiagnosticClient).1.2.(File.imports)
    = a_stale.(File.imports) ++ import_nodes fn.(walk) /\
    (File.Parse a_stale DiagnosticClient.NewDiagnosticClient).1.2.(File.pkg)
    = match list.last (package_nodes fn.(walk)) with
      | Some pn => Some pn
      | None => a_stale.(File.pkg)
      end.
Proof.
  apply (File_Parse_collects a_stale _ a_v7
           DiagnosticClient.NewDiagnosticClient
           (File.Parse a_stale DiagnosticClient.NewDiagnosticClient).2);
    reflexivity.
Defined.

(** The imports of the stale file after that parse. *)
Example stale_imports_accumulate :
  File.Imports (File.Parse a_stale DiagnosticClient.NewDiagnosticClient).1.2
  = ["c.proto"; "b.proto"]%string.
Proof. vm_compute. reflexivity. Qed.


(** [Parse_packages] on [a.proto], first parsed in the package [p] and then
    from the handle [a_v3], in which it names the package [q]: it is a
    file of [q], and still one of [p]. *)
Lemma Parse_packages_witness :
  files_of parser_a_in_p "p" = Some ["a.proto"%string] /\
  files_of
    (Parser.Parse parser_a_in_p resolver DiagnosticClient.NewDiagnosticClient
       "a.proto" a_v3).1.2 "q" = Some ["a.proto"%string] /\
  exists pk',
    (Parser.Parse parser_a_in_p resolver DiagnosticClient.NewDiagnosticClient
       "a.proto" a_v3).1.2.(Parser.pkgs) !! "p"%string = Some pk' /\
    (Package.AddFile (Package.NewPackage "p") "a.proto").(Package.files)
      ⊆ pk'.(Package.files).
Proof.
  split; [vm_compute; reflexivity|]. split; [vm_compute; reflexivity|].
  pose proof (Parse_packages parser_a_in_p resolver
                DiagnosticClient.NewDiagnosticClient "a.proto" a_v3)
    as [_ Hg].
  specialize (Hg "p"%string
                (Package.AddFile (Package.NewPackage "p") "a.proto")).
  assert (H1 : "p"%string <> ""%string) by discriminate.
  assert (H2 : Parser.pkgs parser_a_in_p !! "p"%string
               = Some (Package.AddFile (Package.NewPackage "p") "a.proto"))
    by (vm_compute; reflexivity).
  exact (Hg H1 H2).
Defined.

(** [descriptor_is_silent] with a library that warns on every file: the
    warning is dropped for [descriptor.proto]. *)
Lemma descriptor_is_silent_witness :
  (@Parser.Parse _ noisy.protocompile Parser.NewParser resolver
     DiagnosticClient.NewDiagnosticClient
     "google/protobuf/descriptor.proto" a_v5).2
  = DiagnosticClient.NewDiagnosticClient.
Proof.
  apply (@descriptor_is_silent _ noisy.protocompile Parser.NewParser resolver
           DiagnosticClient.NewDiagnosticClient
           "google/protobuf/descriptor.proto" a_v5).
  - intros k f Hk. cbn in Hk. rewrite lookup_empty in Hk. discriminate.
  - reflexivity.
Defined.

(** The same library and handle on [a.proto]: the warning is cached for the
    URI of the handle. *)
Example warning_is_cached :
  size (default ∅
          ((@Parser.Parse _ noisy.protocompile Parser.NewParser resolver
              DiagnosticClient.NewDiagnosticClient "a.proto" a_v5).2
             .(DiagnosticClient.cache) !! "file:///w/a.proto"%string))
  = 1%nat.
Proof. vm_compute. reflexivity. Qed.

(** [a.proto] first parsed from a module file, whose URI is [a.proto], and
    then from the buffer [a_v5]: the warning of the second parse is cached
    for the URI of the module file, and none for the URI of the buffer. *)
Example later_handle_gets_no_diagnostics :
  (fun dc : DiagnosticClient.t =>
     (size <$> dc.(DiagnosticClient.cache) !! "a.proto"%string,
      size <$> dc.(DiagnosticClient.cache) !! "file:///w/a.proto"%string))
    (@Parser.Parse _ noisy.protocompile
       (@Parser.Parse _ noisy.protocompile Parser.NewParser resolver
          DiagnosticClient.NewDiagnosticClient "a.proto"
          (HFile (simplefile.mk "a.proto" "package p" None))).1.2
       resolver DiagnosticClient.NewDiagnosticClient "a.proto" a_v5).2
  = (Some 1%nat, None).
Proof. vm_compute. reflexivity. Qed.

End parser_more_examples.

(** ** More on the file manager *)

Section manager_more.
Context `{GoLib} `{LowerSources} `{ProtoCompile}.

Lemma Parse_sent (p : Parser.t) resolver (dc : DiagnosticClient.t)
    (uri : string) (h : Handle) :
  (Parser.Parse p resolver dc uri h).2.(DiagnosticClient.sent)
  = dc.(DiagnosticClient.sent).
Proof. destruct (Parse_reports_frame p resolver dc uri h h) as [[Hs _] _]. exact Hs. Qed.


Lemma read_imports_frame (d : nat) (imps : list string) :
  (forall fm u r fm',
     fileManager.ReadFile d fm u = Some (r, fm') ->
     fm'.(fileManager.fs) = fm.(fileManager.fs) /\
     exists more,
       fm'.(fileManager.diagnosticClient).(DiagnosticClient.sent)
       = fm.(fileManager.diagnosticClient).(DiagnosticClient.sent) ++ more) ->
  forall fm r fm',
    fileManager.read_imports (fileManager.ReadFile d) fm imps = Some (r, fm') ->
    fm'.(fileManager.fs) = fm.(fileManager.fs) /\
    exists more,
      fm'.(fileManager.diagnosticClient).(DiagnosticClient.sent)
      = fm.(fileManager.diagnosticClient).(DiagnosticClient.sent) ++ more.
Proof.
  intros IH. induction imps as [|imp rest IHr]; intros fm r fm' Hr;
    cbn [fileManager.read_imports] in Hr.
  - injection Hr as <- <-. split; [reflexivity|]. exists []. 
    rewrite app_nil_r. reflexivity.
  - destruct (fileManager.ReadFile d fm imp) as [[[fh|e] fm1]|] eqn:E;
      [| |discriminate].
    + destruct (IH _ _ _ _ E) as [Hfs [m1 Hm1]].
      destruct (IHr _ _ _ Hr) as [Hfs' [m2 Hm2]].
      split; [congruence|]. exists (m1 ++ m2).
      rewrite Hm2, Hm1, app_assoc. reflexivity.
    + injection Hr as <- <-. apply (IH _ _ _ _ E).
Qed.

Lemma ReadFile_frame (depth : nat) :
  forall fm u r fm',
    fileManager.ReadFile depth fm u = Some (r, fm') ->
    fm'.(fileManager.fs) = fm.(fileManager.fs) /\
    exists more,
      fm'.(fileManager.diagnosticClient).(DiagnosticClient.sent)
      = fm.(fileManager.diagnosticClient).(DiagnosticClient.sent) ++ more.
Proof.
  induction depth as [|d IH]; intros fm u r fm' Hr; [discriminate|].
  cbn [fileManager.ReadFile] in Hr.
  destruct (Source_Stat _ u) as [stat|e].
  2:{ injection Hr as <- <-. split; [reflexivity|]. exists [].
      rewrite app_nil_r. reflexivity. }
  destruct (Source_ReadFile _ u) as [fh|e].
  2:{ injection Hr as <- <-. split; [reflexivity|]. exists [].
      rewrite app_nil_r. reflexivity. }
  unfold fileManager.internalparse in Hr.
  pose proof (Parse_sent fm.(fileManager.parser)
                (filesystem.Resolver fm.(fileManager.fs))
                (DiagnosticClient.Reset fm.(fileManager.diagnosticClient) fh)
                (file.NormalURIStr stat.(Path)) fh) as Hs.
  destruct (Parser.Parse _ _ _ _ _) as [[[pf|e] p'] dc'].
  - destruct (fileManager.read_imports _ _ _) as [[[[]|e] fm1]|] eqn:E;
      [| |discriminate];
      destruct (read_imports_frame d _ IH _ _ _ E) as [Hfs [m Hm]];
      injection Hr as <- <-; (split; [exact Hfs|]);
      cbn in Hm, Hs; rewrite Hs in Hm; rewrite <- app_assoc in Hm; eauto.
  - injection Hr as <- <-. split; [reflexivity|]. exists [].
    cbn in *. rewrite app_nil_r. exact Hs.
Qed.

(** A [ReadFile] that returns has left the file system (the overlays of
    every folder) as it was, and has only added to what the client has been
    sent; when it returns a file handle it has sent the diagnostics of the
    URI of that handle. *)
Theorem ReadFile_only_sends (depth : nat) (fm : fileManager.t) (u : string) :
  match fileManager.ReadFile depth fm u with
  | None => True
  | Some (r, fm') =>
      fm'.(fileManager.fs) = fm.(fileManager.fs) /\
      exists more,
        fm'.(fileManager.diagnosticClient).(DiagnosticClient.sent)
        = fm.(fileManager.diagnosticClient).(DiagnosticClient.sent) ++ more /\
        match r with
        | Ok fh => exists ds rest,
            more = mkPublish (Handle.URI fh.(handle)) ds :: rest
        | Err _ => True
        end
  end.
Proof.
  destruct depth as [|d]; [exact I|]. cbn [fileManager.ReadFile].
  destruct (Source_Stat _ u) as [stat|e].
  2:{ split; [reflexivity|]. exists []. rewrite app_nil_r. auto. }
  destruct (Source_ReadFile _ u) as [fh|e].
  2:{ split; [reflexivity|]. exists []. rewrite app_nil_r. auto. }
  unfold fileManager.internalparse.
  pose proof (Parse_sent fm.(fileManager.parser)
                (filesystem.Resolver fm.(fileManager.fs))
                (DiagnosticClient.Reset fm.(fileManager.diagnosticClient) fh)
                (file.NormalURIStr stat.(Path)) fh) as Hs.
  destruct (Parser.Parse _ _ _ _ _) as [[[pf|e] p'] dc'].
  - destruct (fileManager.read_imports _ _ _) as [[[[]|e] fm1]|] eqn:E;
      [| |exact I];
      destruct (read_imports_frame d _ (ReadFile_frame d) _ _ _ E)
        as [Hfs [m Hm]];
      (split; [exact Hfs|]);
      cbn in Hm, Hs; rewrite Hs in Hm; rewrite <- app_assoc in Hm;
      eexists; (split; [exact Hm|]); cbn; eauto.
  - split; [reflexivity|]. exists []. cbn in *. rewrite app_nil_r. auto.
Qed.


End manager_more.

Section manager_more_examples.
Import example scenario.

(** [ReadFile_returns] on the buffer of [a.proto] that imports [b.proto],
    which imports nothing. *)
Lemma ReadFile_returns_witness :
  exists depth, returns_from fs_ab "file:///w/a.proto" depth.
Proof.
  apply (ReadFile_returns fs_ab "file:///w/a.proto").
  assert (Ea : imports_at fs_ab "file:///w/a.proto" = ["b.proto"%string])
    by (vm_compute; reflexivity).
  assert (Eb : imports_at fs_ab "b.proto" = []) by (vm_compute; reflexivity).
  constructor. intros v Hv. rewrite Ea in Hv.
  apply list_elem_of_singleton in Hv. subst v.
  constructor. intros w Hw. rewrite Eb in Hw. inversion Hw.
Defined.

End manager_more_examples.

(** ** More on URIs *)

Section uri_more.
Context `{GoLib}.

Lemma escape_char (c : ascii) :
  if golib.shouldEscape_path c
  then golib.ishex (golib.upperhex (nat_of_ascii c / 16)) = true /\
       golib.ishex (golib.upperhex (nat_of_ascii c mod 16)) = true /\
       ascii_of_nat
         (golib.unhex (golib.upperhex (nat_of_ascii c / 16)) * 16
          + golib.unhex (golib.upperhex (nat_of_ascii c mod 16))) = c
  else Ascii.eqb c "%" = false.
Proof.
  destruct c as [[] [] [] [] [] [] [] []]; vm_compute; auto.
Qed.

(** [url.PathUnescape] undoes the escaping of a path. *)
Lemma PathUnescape_escape_path (s : string) :
  golib.PathUnescape (golib.escape_path s) = Some s.
Proof.
  induction s as [|c s IH]; [reflexivity|].
  cbn [golib.escape_path]. pose proof (escape_char c) as Hc.
  destruct (golib.shouldEscape_path c).
  - destruct Hc as (H1 & H2 & H3).
    cbn [golib.PathUnescape]. rewrite Ascii.eqb_refl, H1, H2, IH. cbn [andb].
    rewrite H3. reflexivity.
  - cbn [golib.PathUnescape]. rewrite Hc, IH. reflexivity.
Qed.

(** The normal form of an absolute path is [file://] followed by the path
    as it is: [url.URL.String] escapes the path and [uri.New] unescapes it
    again, so that no character of the path is left percent-encoded. *)
Theorem NormalURIStr_absolute (p : string) :
  golib.HasPrefix p uri_FileScheme = false ->
  filepath_IsAbs p = true ->
  p <> ""%string -> p <> "*"%string ->
  file.NormalURIStr p = ("file://" +:+ p)%string.
Proof.
  intros Hs Ha Hne Hstar. unfold file.NormalURIStr. rewrite Hs, Ha.
  unfold golib.file_URL_String.
  destruct (String.eqb_spec p "") as [E|_]; [contradiction|].
  destruct (String.eqb_spec p "*") as [E|_]; [contradiction|].
  unfold uri_New.
  assert (golib.PathUnescape ("file:" +:+ "//" +:+ golib.escape_path p)
          = Some ("file://" +:+ p)%string) as ->.
  { change ("file:" +:+ "//" +:+ golib.escape_path p)%string
      with (String "f" (String "i" (String "l" (String "e" (String ":"
              (String "/" (String "/" (golib.escape_path p)))))))).
    cbn. rewrite PathUnescape_escape_path. reflexivity. }
  reflexivity.
Qed.

End uri_more.

(** [NormalURIStr_absolute] on a path with a space. *)
Lemma NormalURIStr_absolute_witness :
  @file.NormalURIStr (unix.lib "/w") "/w/a b.proto"
  = "file:///w/a b.proto"%string.
Proof.
  apply (@NormalURIStr_absolute (unix.lib "/w") "/w/a b.proto");
    [reflexivity | reflexivity | discriminate | discriminate].
Defined.

(** ** More on semantic tokens *)

Section token_more.
Import SemanticTokens.

Lemma enc_stream_length (toks : list SemanticToken) : forall first last,
  length (enc_stream first last toks) = (5 * length toks)%nat.
Proof.
  induction toks as [|t toks IH]; intros first last; [reflexivity|].
  cbn [enc_stream enc_cells app length]. rewrite IH. lia.
Qed.

(** The encoder emits five integers for every token, the first token with
    its own line and start. *)
Lemma Encode_five_per_token (toks : list SemanticToken) :
  length (EncodeSemanticTokens toks) = (5 * length toks)%nat /\
  forall t rest, toks = t :: rest ->
    take 5 (EncodeSemanticTokens toks)
    = [t.(Line); t.(Start); t.(Len); t.(Typ); Value t.(Modifiers)].
Proof.
  rewrite encode_array. split; [apply enc_stream_length|].
  intros t rest ->. reflexivity.
Qed.

Lemma fold_lor_testbit (ms : list Z) (i : Z) : forall acc,
  Z.testbit (fold_left (fun val v => Z.lor val v) ms acc) i
  = Z.testbit acc i || existsb (fun m => Z.testbit m i) ms.
Proof.
  induction ms as [|m ms IH]; intros acc; cbn [fold_left existsb].
  - rewrite orb_false_r. reflexivity.
  - rewrite IH, Z.lor_spec, orb_assoc. reflexivity.
Qed.

(** A bit is set in the value of the modifiers exactly when one of the
    modifiers has it; the value of modifiers that are [uint32] is. *)
Theorem Value_bits (ms : list Z) :
  (forall i, Z.testbit (Value ms) i = existsb (fun m => Z.testbit m i) ms) /\
  (Forall is_uint32 ms -> is_uint32 (Value ms)).
Proof.
  assert (Hb : forall i,
            Z.testbit (Value ms) i = existsb (fun m => Z.testbit m i) ms).
  { intros i. unfold Value. destruct ms as [|m ms]; [apply Z.testbit_0_l|].
    cbn [length Nat.eqb]. rewrite fold_lor_testbit, Z.testbit_0_l.
    reflexivity. }
  split; [exact Hb|].
  intros Hall. unfold is_uint32.
  assert (Hnn : 0 <= Value ms).
  { apply Z.bits_iff_nonneg_ex. exists 32. intros i Hi. rewrite Hb.
    apply not_true_is_false. intros He. apply existsb_exists in He
      as (m & Hm & Hbit).
    rewrite Forall_forall in Hall. destruct (Hall m Hm) as [Hm0 Hm1].
    unfold is_uint32 in *.
    rewrite Z.bits_above_log2 in Hbit; [discriminate | exact Hm0 |].
    destruct (Z.eq_dec m 0) as [->|Hz]; [rewrite Z.log2_nonpos; lia|].
    apply Z.lt_trans with 32; [apply Z.log2_lt_pow2; lia | lia]. }
  split; [exact Hnn|].
  destruct (Z.eq_dec (Value ms) 0) as [->|Hz]; [lia|].
  apply Z.log2_lt_pow2; [lia|].
  destruct (Z.lt_ge_cases (Z.log2 (Value ms)) 32) as [Hlt|Hge]; [exact Hlt|].
  exfalso. assert (Hbit : Z.testbit (Value ms) (Z.log2 (Value ms)) = true)
    by (apply Z.bit_log2; lia).
  rewrite Hb in Hbit. apply existsb_exists in Hbit as (m & Hm & Hbit).
  rewrite Forall_forall in Hall. destruct (Hall m Hm) as [Hm0 Hm1].
  unfold is_uint32 in *.
  rewrite Z.bits_above_log2 in Hbit; [discriminate | exact Hm0 |].
  destruct (Z.eq_dec m 0) as [->|Hz']; [rewrite Z.log2_nonpos; lia|].
  apply Z.lt_le_trans with 32; [apply Z.log2_lt_pow2; lia | exact Hge].
Qed.

End token_more.

Section token_order_more.
Import SemanticTokens tokens.

Lemma uint32_wrap_add_sub (a b : Z) :
  is_uint32 b -> uint32_wrap (a + uint32_wrap (b - a)) = b.
Proof.
  intros Hb. unfold uint32_wrap. rewrite Zplus_mod_idemp_r.
  replace (a + (b - a)) with b by lia. apply Z.mod_small, Hb.
Qed.

Lemma decode_wrapping_stream (toks : list SemanticToken) :
  forall first last line start,
  match first return Prop with
  | true => line = 0 /\ start = 0
  | false => line = last.(Line) /\ start = last.(Start)
  end ->
  Forall tok_wf toks ->
  decode_wrapping line start (enc_stream first last toks) = map tuple_of toks.
Proof.
  induction toks as [|item rest IH]; intros first last line start Hpos Hwf.
  - reflexivity.
  - cbn [enc_stream enc_cells app map decode_wrapping].
    inversion Hwf as [|? ? [HL HS] Hwf']; subst.
    assert (uint32_wrap
              (line + (if first then Line item
                       else uint32_wrap (Line item - Line last)))
            = Line item) as EL.
    { destruct first.
      - destruct Hpos as [-> _]. apply uint32_wrap_small, HL.
      - destruct Hpos as [-> _]. apply uint32_wrap_add_sub, HL. }
    assert ((if (if first then Line item
                 else uint32_wrap (Line item - Line last)) =? 0
             then uint32_wrap
                    (start + (if negb first &&
                        ((if first then Line item
                          else uint32_wrap (Line item - Line last)) =? 0)
                      then uint32_wrap (Start item - Start last)
                      else Start item))
             else (if negb first &&
                     ((if first then Line item
                      else uint32_wrap (Line item - Line last)) =? 0)
                   then uint32_wrap (Start item - Start last) else Start item))
            = Start item) as ES.
    { destruct first; cbn [negb andb].
      - destruct Hpos as [_ ->].
        destruct (Line item =? 0); [apply uint32_wrap_small, HS | reflexivity].
      - destruct Hpos as [_ ->].
        destruct (uint32_wrap (Line item - Line last) =? 0);
          [apply uint32_wrap_add_sub, HS | reflexivity]. }
    rewrite EL, ES. unfold tuple_of at 1. f_equal.
    apply (IH false item); [split; reflexivity | exact Hwf'].
Qed.

(** The encoding loses nothing, sorted or not: two lists of tokens with
    [uint32] positions that are encoded alike have the same lines, starts,
    lengths, types and modifier values, token by token (a decoder in
    [uint32] arithmetic gives them back). *)
Theorem Encode_injective (toks1 toks2 : list SemanticToken) :
  Forall tok_wf toks1 -> Forall tok_wf toks2 ->
  EncodeSemanticTokens toks1 = EncodeSemanticTokens toks2 ->
  map tuple_of toks1 = map tuple_of toks2.
Proof.
  intros H1 H2 He. rewrite !encode_array in He.
  rewrite <- (decode_wrapping_stream toks1 true zeroToken 0 0 (conj eq_refl eq_refl) H1).
  rewrite <- (decode_wrapping_stream toks2 true zeroToken 0 0 (conj eq_refl eq_refl) H2).
  rewrite He. reflexivity.
Qed.

(** The comparison function of the sort, with Go's 64-bit [int], is never
    negative: for two tokens on different lines it is positive in both
    orders, so that it orders no two tokens; it is zero exactly for tokens
    at the same line and start. With a 32-bit [int] it has the sign of the
    difference of the lines, or of the starts on one line, when that
    difference is below [2^31]. *)
Theorem compare_is_no_order (left right : SemanticToken) :
  tok_wf left -> tok_wf right ->
  0 <= compare 64 left right /\
  (compare 64 left right = 0 <->
   left.(Line) = right.(Line) /\ left.(Start) = right.(Start)) /\
  (left.(Line) <> right.(Line) ->
   0 < compare 64 left right /\ 0 < compare 64 right left) /\
  (- 2 ^ 31 <= left.(Line) - right.(Line) < 2 ^ 31 ->
   - 2 ^ 31 <= left.(Start) - right.(Start) < 2 ^ 31 ->
   compare 32 left right
   = if negb (left.(Line) =? right.(Line))
     then left.(Line) - right.(Line) else left.(Start) - right.(Start)).
Proof.
  intros [HL1 HS1] [HL2 HS2]. unfold is_uint32 in *.
  assert (H64 : forall d, - 2 ^ 32 < d < 2 ^ 32 ->
            int_of_uint32 64 (uint32_wrap d)
            = if d <? 0 then d + 2 ^ 32 else d).
  { intros d Hd. unfold int_of_uint32, uint32_wrap. cbn zeta.
    destruct (Z.ltb_spec d 0) as [Hneg|Hpos].
    - replace (d mod 2 ^ 32) with (d + 2 ^ 32).
      2:{ apply Z.mod_unique with (q := -1); lia. }
      rewrite Z.mod_small by lia.
      destruct (Z.ltb_spec (d + 2 ^ 32) (2 ^ (64 - 1))); lia.
    - rewrite (Z.mod_small d) by lia. rewrite Z.mod_small by lia.
      destruct (Z.ltb_spec d (2 ^ (64 - 1))); lia. }
  assert (H32 : forall d, - 2 ^ 31 <= d < 2 ^ 31 ->
            int_of_uint32 32 (uint32_wrap d) = d).
  { intros d Hd. unfold int_of_uint32, uint32_wrap. cbn zeta.
    rewrite Z.mod_mod by lia.
    destruct (Z.ltb_spec d 0) as [Hneg|Hpos].
    - replace (d mod 2 ^ 32) with (d + 2 ^ 32).
      2:{ apply Z.mod_unique with (q := -1); lia. }
      destruct (Z.ltb_spec (d + 2 ^ 32) (2 ^ (32 - 1))); lia.
    - rewrite (Z.mod_small d) by lia.
      destruct (Z.ltb_spec d (2 ^ (32 - 1))); lia. }
  unfold compare.
  destruct (Z.eqb_spec (Line left) (Line right)) as [E|E]; cbn [negb].
  - rewrite (Z.eqb_sym (Line right)).
    destruct (Z.eqb_spec (Line left) (Line right)) as [_|E']; [|contradiction].
    cbn [negb]. rewrite !H64 by lia.
    destruct (Z.ltb_spec (Start left - Start right) 0);
      repeat split; intros; try (apply H32; lia); intuition lia.
  - rewrite (Z.eqb_sym (Line right)).
    destruct (Z.eqb_spec (Line left) (Line right)) as [E'|_]; [contradiction|].
    cbn [negb]. rewrite !H64 by lia.
    destruct (Z.ltb_spec (Line left - Line right) 0);
      destruct (Z.ltb_spec (Line right - Line left) 0);
      repeat split; intros; try (apply H32; lia); intuition lia.
Qed.

End token_order_more.

Section node_token_more.
Import SemanticTokens tokens.

Lemma node2tok_start (ni : NodeInfo) (typ : Z) (ms : list Z) :
  starts_in_file ni ->
  (node2tok ni typ ms).(Line) = ni.(NStart).(SLine) - 1 /\
  (node2tok ni typ ms).(Start) = ni.(NStart).(Col) - 1.
Proof.
  intros [HL HC]. unfold node2tok, position.ToPosition,
    position.NewZeroBaseSourcePos. cbn zeta.
  assert ((Col (NStart ni) >? 0) = true) as -> by (apply Z.gtb_lt; lia).
  assert ((SLine (NStart ni) >? 0) = true) as -> by (apply Z.gtb_lt; lia).
  cbn. rewrite !uint32_wrap_small by lia. auto.
Qed.

Lemma node_tokens_sorted (nodes : list (NodeInfo * Z * list Z)) :
  Forall (fun n => starts_in_file n.1.1) nodes ->
  Sorted (fun a b => starts_le a.1.1 b.1.1) nodes ->
  Forall tok_wf (node_tokens nodes) /\ Sorted tok_le (node_tokens nodes).
Proof.
  induction nodes as [|n nodes IH]; intros Hall Hs.
  - split; constructor.
  - inversion Hall as [|? ? Hn Hall']; subst.
    inversion Hs as [|? ? Hs' Hhd]; subst.
    destruct (IH Hall' Hs') as [IHwf IHs].
    destruct (node2tok_start n.1.1 n.1.2 n.2 Hn) as [EL ES].
    split; cbn [node_tokens map].
    + constructor; [|exact IHwf]. destruct Hn as [HL HC].
      unfold tok_wf, is_uint32. rewrite EL, ES. lia.
    + constructor; [exact IHs|].
      destruct nodes as [|m nodes]; [constructor|].
      inversion Hhd as [|? ? Hle]; subst. inversion Hall' as [|? ? Hm _]; subst.
      destruct (node2tok_start m.1.1 m.1.2 m.2 Hm) as [EL' ES'].
      cbn [map]. constructor. unfold tok_le. rewrite EL, ES, EL', ES'.
      unfold starts_le in Hle. lia.
Qed.

(** The tokens [node2tok] builds for nodes that start in the file, taken in
    the order of their starts, go through the encoding: a token starts one
    line and one column before the one-based start of its node, has the
    length of its raw text, and decoding the encoded tokens gives all of it
    back. *)
Theorem node_tokens_round_trip (nodes : list (NodeInfo * Z * list Z)) :
  Forall (fun n => starts_in_file n.1.1) nodes ->
  Sorted (fun a b => starts_le a.1.1 b.1.1) nodes ->
  DecodeSemanticTokens (EncodeSemanticTokens (node_tokens nodes))
  = map (fun n =>
           (n.1.1.(NStart).(SLine) - 1, n.1.1.(NStart).(Col) - 1,
            uint32_wrap (Z.of_nat (String.length n.1.1.(RawText))),
            n.1.2, Value n.2))
      nodes.
Proof.
  intros Hall Hs. destruct (node_tokens_sorted nodes Hall Hs) as [Hwf Hsorted].
  rewrite encode_array. unfold DecodeSemanticTokens.
  rewrite (decode_stream (node_tokens nodes) true zeroToken 0 0
             (conj eq_refl eq_refl) Hwf Hsorted).
  unfold node_tokens. rewrite map_map. apply map_ext_Forall.
  rewrite Forall_forall in Hall |- *. intros n Hn.
  destruct (node2tok_start n.1.1 n.1.2 n.2 (Hall n Hn)) as [EL ES].
  unfold tuple_of. rewrite EL, ES. reflexivity.
Qed.

End node_token_more.

Section token_more_examples.
Import SemanticTokens tokens.

(** [Encode_injective] on two tokens in descending order, and on the same
    tokens with other raw texts. *)
Lemma Encode_injective_witness :
  map tuple_of [mkTok 2 4 6 "option" 10 []; mkTok 0 8 3 "Foo" 3 [1]]
  = map tuple_of [mkTok 2 4 6 "" 10 []; mkTok 0 8 3 "" 3 [1; 1]].
Proof.
  apply (Encode_injective
           [mkTok 2 4 6 "option" 10 []; mkTok 0 8 3 "Foo" 3 [1]]
           [mkTok 2 4 6 "" 10 []; mkTok 0 8 3 "" 3 [1; 1]]).
  - repeat constructor; cbn; lia.
  - repeat constructor; cbn; lia.
  - reflexivity.
Defined.

(** [compare_is_no_order] on a token of line 0 and a token of line 2. *)
Lemma compare_is_no_order_witness :
  0 < compare 64 (mkTok 0 8 3 "Foo" 3 [1]) (mkTok 2 4 6 "option" 10 []) /\
  0 < compare 64 (mkTok 2 4 6 "option" 10 []) (mkTok 0 8 3 "Foo" 3 [1]).
Proof.
  destruct (compare_is_no_order (mkTok 0 8 3 "Foo" 3 [1])
              (mkTok 2 4 6 "option" 10 []))
    as (_ & _ & Hboth & _).
  - unfold tok_wf, is_uint32. cbn. lia.
  - unfold tok_wf, is_uint32. cbn. lia.
  - apply Hboth. cbn. lia.
Defined.

(** [node_tokens_round_trip] on the message and the field of the example. *)
Lemma node_tokens_round_trip_witness :
  DecodeSemanticTokens
    (EncodeSemanticTokens
       (node_tokens [(Node_info example.message_node, 10, []);
                     (Node_info example.field_node, 7, [1])]))
  = [(0, 0, 7, 10, 0); (5, 2, 16, 7, 1)].
Proof.
  apply (node_tokens_round_trip
           [(Node_info example.message_node, 10, []);
            (Node_info example.field_node, 7, [1])]).
  - repeat constructor; unfold starts_in_file; cbn; lia.
  - apply Sorted_cons;
      [apply Sorted_cons; [apply Sorted_nil | apply HdRel_nil]
      |apply HdRel_cons; unfold starts_le; cbn; lia].
Defined.

End token_more_examples.

(** ** The disk source and the module sources *)

Section disk_more.
Context `{GoLib}.
Import diskSource.

(** A [ReadFile] of the disk source that returns an error leaves the cache
    as it was; the error is the invalid-URI error for a URI that is not a
    document URI, and otherwise [os.ErrNotExist], whatever the error of the
    bucket was. *)
Lemma disk_ReadFile_error (b : Bucket) (d : t) (uri : string) :
  match ReadFile b d uri with
  | (Ok df, d') => d' = d \/ d' = mk (<[uri := df]> d.(files))
  | (Err e, d') =>
      d' = d /\
      e = if file.IsDocumentURI uri
          then ErrWrap ("stat file uri: `" +:+ uri +:+ "`") ErrNotExist
          else ErrorInvalidURI uri
  end.
Proof.
  unfold ReadFile.
  destruct (file.IsDocumentURI uri); cbn [negb]; [|auto].
  destruct (files d !! uri) as [df0|]; [auto|].
  destruct (bucket_Stat b _) as [stat|e]; auto.
Qed.

(** After [Close] the disk source reads the URI from the bucket again, as
    a new source would, and keeps the other files. *)
Lemma disk_Close_rereads (b : Bucket) (d : t) (uri : string) :
  (ReadFile b (Close d uri) uri).1 = (ReadFile b NewDiskSource uri).1 /\
  Stat b (Close d uri) uri = Stat b NewDiskSource uri /\
  delete uri (Close d uri).(files) = delete uri d.(files).
Proof.
  unfold ReadFile, Stat, Close, NewDiskSource. cbn [files].
  rewrite lookup_delete_eq, lookup_empty, delete_delete_eq.
  destruct (negb _); [auto|].
  destruct (bucket_Stat b _) as [stat|e]; auto.
Qed.

(** A file the disk source has read is not read again: whatever the bucket
    holds later, [ReadFile] returns the same file, with the content or the
    read error it got, and [Stat] its object info, from the cache left by
    the first [ReadFile]; after [Close] the source reads the URI from the
    bucket again, as a new source would. *)
Theorem disk_ReadFile_memoizes (b : Bucket) (d d' : t) (uri : string)
    (df : diskFile) :
  ReadFile b d uri = (Ok df, d') ->
  d'.(files) !! uri = Some df /\
  forall b',
    ReadFile b' d' uri = (Ok df, d') /\
    Stat b' d' uri = Ok df.(objectinfo) /\
    (ReadFile b' (Close d' uri) uri).1 = (ReadFile b' NewDiskSource uri).1.
Proof.
  intros Hr.
  assert (Hc : forall b',
            (ReadFile b' (Close d' uri) uri).1
            = (ReadFile b' NewDiskSource uri).1)
    by (intros b'; apply disk_Close_rereads).
  revert Hr. unfold ReadFile at 1, Stat.
  destruct (file.IsDocumentURI uri) eqn:Ed; cbn [negb]; [|discriminate].
  destruct (files d !! uri) as [df0|] eqn:E.
  - intros [= <- <-]. split; [exact E|]. intros b'. unfold ReadFile at 1.
    rewrite Ed, E. cbn [negb]. auto.
  - destruct (bucket_Stat b _) as [stat|e]; [|discriminate].
    intros [= <- <-]. cbn [files]. rewrite lookup_insert_eq.
    split; [reflexivity|]. intros b'. unfold ReadFile at 1.
    rewrite Ed. cbn [negb files]. rewrite lookup_insert_eq. auto.
Qed.

End disk_more.

Section mod_more.
Context `{GoLib}.
Variable EqualFold : string -> string -> bool.
Import modSource.

Lemma fold_pick (isdoc : bool) (filename : string) (l : list FileInfo) :
  forall acc,
  fold_left (pick EqualFold isdoc filename) l acc
  = match list.last (List.filter (matches EqualFold isdoc filename) l) with
    | Some fi => Some fi
    | None => acc
    end.
Proof.
  induction l as [|info l IH]; intros acc; [reflexivity|].
  cbn [fold_left List.filter]. rewrite IH.
  unfold pick, matches at 2.
  destruct (fi_IsProto info); cbn [negb andb]; [|reflexivity].
  destruct isdoc.
  - destruct (EqualFold filename (fi_LocalPath info)); [|reflexivity].
    rewrite last_cons. destruct (list.last _); reflexivity.
  - destruct (EqualFold filename (fi_Path info)); [|reflexivity].
    rewrite last_cons. destruct (list.last _); reflexivity.
Qed.

(** [internalstat] finds the last file info of the walk that is a proto
    file and whose local path (for a document URI) or path (otherwise)
    equals the file name of the normalised URI under case folding; it is
    [os.ErrNotExist] when there is none, and an error of the walk comes
    first. *)
Theorem internalstat_last_match (m : Module_) (uri : string) :
  internalstat EqualFold m uri
  = match m.(walk_err) with
    | Some e => Err (ErrWrap "module walk" e)
    | None =>
        match list.last
                (List.filter
                   (matches EqualFold
                      (file.IsDocumentURI (file.NormalURI uri))
                      (file.URI2Filename (file.NormalURI uri)))
                   m.(infos)) with
        | Some fi => Ok fi
        | None =>
            Err (ErrWrap ("stat file uri: `" +:+ file.NormalURI uri +:+ "`")
                   ErrNotExist)
        end
    end.
Proof.
  unfold internalstat. cbn zeta. destruct (walk_err m); [reflexivity|].
  rewrite fold_pick. destruct (list.last _); reflexivity.
Qed.

(** A file a module source has read is not read again: whatever the module
    holds later, [ReadFile] and [Stat] on the same URI answer from the
    cache, and so they do on the path of the file in the module unless
    another file has been asked for with that path as its URI. *)
Theorem mod_ReadFile_memoizes (m : Module_) (s s' : t) (uri : string)
    (mf : modfile) :
  ReadFile EqualFold m s uri = (Ok mf, s') ->
  forall m',
    ReadFile EqualFold m' s' uri = (Ok mf, s') /\
    Stat EqualFold m' s' uri = Ok mf.(fileinfo) /\
    (trylocal s uri = None -> s'.(urifiles) !! Path mf = None ->
     ReadFile EqualFold m' s' (Path mf) = (Ok mf, s')).
Proof.
  unfold ReadFile at 1.
  destruct (trylocal s uri) as [f|] eqn:E.
  - intros [= <- <-] m'. unfold ReadFile, Stat. rewrite E.
    split; [reflexivity|]. split; [reflexivity|]. discriminate.
  - destruct (internalstat EqualFold m uri) as [stat|e]; [|discriminate].
    intros [= <- <-] m'.
    assert (Hu : forall mf0 : modfile,
              mf0 = match GetFile m (fi_Path stat) with
                    | Ok (f, Ok content) =>
                        mkModfile f (simplefile.mk uri content None)
                    | Ok (_, Err e) | Err e =>
                        mkModfile stat (simplefile.mk uri "" (Some e))
                    end ->
              simplefile.uri (simple mf0) = uri).
    { intros mf0 ->. destruct (GetFile m _) as [[f [c|e]]|e]; reflexivity. }
    set (mf := match GetFile m (fi_Path stat) with
               | Ok (f, Ok content) =>
                   mkModfile f (simplefile.mk uri content None)
               | Ok (_, Err e) | Err e =>
                   mkModfile stat (simplefile.mk uri "" (Some e))
               end) in *.
    rewrite (Hu mf eq_refl).
    assert (Ht : trylocal
                   (mk (<[uri := mf]> (urifiles s))
                       (<[Path mf := mf]> (relfiles s))) uri = Some mf).
    { unfold trylocal. cbn. rewrite lookup_insert_eq. reflexivity. }
    unfold ReadFile, Stat. rewrite Ht.
    split; [reflexivity|]. split; [reflexivity|].
    intros _ Hp. unfold trylocal. cbn [urifiles relfiles] in Hp |- *.
    rewrite Hp, lookup_insert_eq. reflexivity.
Qed.

End mod_more.

Section lower_more_examples.
Import example scenario.

(** [disk_ReadFile_memoizes] on [b.proto]: read once, it is served from
    the cache after the file has been rewritten. *)
Lemma disk_ReadFile_memoizes_witness :
  diskSource.ReadFile (bucket_with "package p;message B")
    (diskSource.mk {[ "file:///w/b.proto"%string := b_disk_file ]})
    "file:///w/b.proto"
  = (Ok b_disk_file,
     diskSource.mk {[ "file:///w/b.proto"%string := b_disk_file ]}).
Proof.
  destruct (disk_ReadFile_memoizes (bucket_with "package p;message A")
              diskSource.NewDiskSource
              (diskSource.mk {[ "file:///w/b.proto"%string := b_disk_file ]})
              "file:///w/b.proto" b_disk_file) as [_ Hm].
  - reflexivity.
  - apply (Hm (bucket_with "package p;message B")).
Defined.

(** [mod_ReadFile_memoizes] on [b.proto], asked for by its path. *)
Lemma mod_ReadFile_memoizes_witness :
  modSource.ReadFile String.eqb (module_with "package p;message B")
    (modSource.mk {[ "b.proto"%string := b_mod_file ]}
                  {[ "b.proto"%string := b_mod_file ]})
    "b.proto"
  = (Ok b_mod_file,
     modSource.mk {[ "b.proto"%string := b_mod_file ]}
                  {[ "b.proto"%string := b_mod_file ]}).
Proof.
  destruct (mod_ReadFile_memoizes String.eqb
              (module_with "package p;message A") modSource.NewModSource
              (modSource.mk {[ "b.proto"%string := b_mod_file ]}
                            {[ "b.proto"%string := b_mod_file ]})
              "b.proto" b_mod_file) with (m' := module_with "package p;message B")
    as [Hm _].
  - reflexivity.
  - exact Hm.
Defined.

End lower_more_examples.

(** ** Opening and changing a buffer *)

Section open_more.
Context `{GoLib} `{LowerSources} `{ProtoCompile}.

Lemma internalparse_handle (d : nat) (fm fm' : fileManager.t)
    (stat : ObjectInfo) (h : Handle) (fh : fileHandle) :
  fileManager.internalparse (fileManager.ReadFile d) fm stat h
  = Some (Ok fh, fm') ->
  fh.(handle) = h.
Proof.
  unfold fileManager.internalparse.
  destruct (Parser.Parse _ _ _ _ _) as [[[pf|e] p'] dc']; [|discriminate].
  destruct (fileManager.read_imports _ _ _) as [[[[]|e] fm1]|];
    [|discriminate..].
  intros [= <- _]. reflexivity.
Qed.

(** A [Change] that returns a file handle returns the overlay it has
    stored, with the text and the version it was given. *)
Theorem Change_returns_the_buffer (depth : nat) (fm : fileManager.t)
    (ol : Overlay.t) :
  returned_ok (fileManager.Change depth fm ol) = true ->
  exists fh fm' o',
    fileManager.Change depth fm ol = Some (Ok fh, fm') /\
    fh.(handle) = HOverlay o' /\
    Handle.Content fh.(handle) = Ok ol.(Overlay.content) /\
    Handle.Version fh.(handle) = ol.(Overlay.version).
Proof.
  destruct (fileManager.Change depth fm ol) as [[[fh|e] fm']|] eqn:E;
    [|discriminate..].
  intros _. exists fh, fm'. revert E.
  unfold fileManager.Change.
  destruct (filesystem.Open _ ol) as [[h|e] fs'] eqn:Eo; [|discriminate].
  destruct (filesystem_Open_ok _ _ _ _ Eo) as (f & o' & ofs' & Hopen & ->).
  destruct (Source_Stat _ _) as [stat|e]; [|discriminate].
  intros Hp. apply internalparse_handle in Hp. exists o'.
  destruct (Open_registers _ _ _ _ Hopen) as (_ & Hc & Hv & _).
  rewrite Hp. cbn. rewrite Hc, Hv. auto.
Qed.

(** With an empty URI, or with no folder in the workspace, [DidOpen] and
    [DidChange] fail with [os.ErrNotExist] under their prefixes, at any
    depth, and leave the state as it was. *)
Lemma DidOpen_rejected (depth : nat) (s : fileManager.t) (uri text : string)
    (version : Z) (more : list string) :
  uri = ""%string \/ s.(fileManager.fs).(filesystem.folders) = [] ->
  server.DidOpen depth s (mkDidOpen uri text version)
  = Some (Err (ErrWrap "file manager open" (ErrWrap "fs open" ErrNotExist)), s) /\
  server.DidChange depth s (mkDidChange uri version (text :: more))
  = Some (Err (ErrWrap "file manager change" (ErrWrap "fs open" ErrNotExist)), s).
Proof.
  intros Hrej.
  assert (Ho : filesystem.Open s.(fileManager.fs)
                 (Overlay.NewOverlay uri text version)
               = (Err ErrNotExist, s.(fileManager.fs))).
  { destruct s as [[folders] p dc]. unfold filesystem.Open. cbn in *.
    destruct Hrej as [-> | ->]; [|reflexivity].
    assert (filesystem.open_in folders (Overlay.NewOverlay "" text version)
            = (Err ErrNotExist, folders)) as ->; [|reflexivity].
    induction folders as [|f rest IH]; [reflexivity|].
    cbn [filesystem.open_in]. unfold OverlayFS_Open at 1. cbn.
    rewrite IH. reflexivity. }
  unfold server.DidOpen, server.DidChange, fileManager.Open, fileManager.Change.
  cbn [OpenURI OpenText OpenVersion ContentChanges TextDocumentURI
       TextDocumentVersion].
  rewrite Ho. destruct s. auto.
Qed.

End open_more.

Section open_more_examples.
Import example.

(** [DidOpen_rejected] on the example workspace, with an empty URI. *)
Lemma DidOpen_rejected_witness :
  server.DidOpen 0 fm (mkDidOpen "" "package p" 1)
  = Some (Err (ErrWrap "file manager open" (ErrWrap "fs open" ErrNotExist)),
          fm).
Proof.
  destruct (DidOpen_rejected 0 fm "" "package p" 1 []) as [Ho _].
  - left. reflexivity.
  - exact Ho.
Defined.

(** [Change_returns_the_buffer] on the example workspace: a change of the
    buffer of [b.proto]. *)
Lemma Change_returns_the_buffer_witness :
  exists fh fm' o',
    fileManager.Change 1 fm
      (Overlay.NewOverlay "file:///w/b.proto" "package p;message B" 2)
    = Some (Ok fh, fm') /\
    fh.(handle) = HOverlay o' /\
    Handle.Content fh.(handle) = Ok "package p;message B"%string /\
    Handle.Version fh.(handle) = 2.
Proof.
  apply (Change_returns_the_buffer 1 fm
           (Overlay.NewOverlay "file:///w/b.proto" "package p;message B" 2)).
  vm_compute. reflexivity.
Defined.

End open_more_examples.

(** ** Files that only the delegate holds *)

Section delegate_more.
Context `{GoLib} `{LowerSources} `{ProtoCompile}.

(** [Stat] of an overlay file system knows the overlays only, [ReadFile]
    goes on to the delegate. A file that neither an overlay nor a module
    holds, and that the delegate (the disk) reads, is therefore read by the
    source of the file system and yet not found by its [Stat]: [Get] and
    [ReadFile] of the file manager, which stat first, fail on it with
    [os.ErrNotExist] and change nothing. *)
Theorem delegate_file_is_not_found (name furi root : string)
    (delegate mods : Source) (overlays : gmap string Overlay.t)
    (u : string) (h : Handle) :
  overlays !! checkURI (mkOverlayFS root delegate overlays) u = None ->
  Source_ReadFile delegate (checkURI (mkOverlayFS root delegate overlays) u)
  = Ok h ->
  is_Err (Source_Stat mods u) = true ->
  Source_ReadFile
    (filesystem.Source
       (filesystem.mk
          [folder.mk name furi (mkOverlayFS root delegate overlays) mods])) u
  = Ok h /\
  forall p dc depth,
    fileManager.Get
      (fileManager.mk
         (filesystem.mk
            [folder.mk name furi (mkOverlayFS root delegate overlays) mods])
         p dc) u
    = (Err (ErrWrap "fs stat file" ErrNotExist),
       fileManager.mk
         (filesystem.mk
            [folder.mk name furi (mkOverlayFS root delegate overlays) mods])
         p dc) /\
    fileManager.ReadFile (S depth)
      (fileManager.mk
         (filesystem.mk
            [folder.mk name furi (mkOverlayFS root delegate overlays) mods])
         p dc) u
    = Some (Err (ErrWrap "fs stat file" ErrNotExist),
            fileManager.mk
              (filesystem.mk
                 [folder.mk name furi (mkOverlayFS root delegate overlays)
                    mods])
              p dc).
Proof.
  intros Hov Hread Hmods.
  set (fs := filesystem.mk
               [folder.mk name furi (mkOverlayFS root delegate overlays) mods]).
  assert (Hst : Source_Stat (filesystem.Source fs) u = Err ErrNotExist).
  { unfold fs. rewrite filesystem_Source_Stat. cbn [folder.overlayfs].
    unfold OverlayFS_Stat. cbn [OverlayFS_overlays]. rewrite Hov.
    cbn [folder.modssource]. destruct (Source_Stat mods u); [discriminate|].
    reflexivity. }
  split.
  - unfold fs. rewrite filesystem_Source_ReadFile. cbn [folder.overlayfs].
    rewrite OverlayFS_ReadFile_unfold. cbn [OverlayFS_overlays OverlayFS_delegate].
    rewrite Hov, Hread. reflexivity.
  - intros p dc depth. unfold fileManager.Get. cbn [fileManager.ReadFile].
    cbn [fileManager.fs]. rewrite Hst. auto.
Qed.

End delegate_more.

Section delegate_more_examples.
Import example.

(** [delegate_file_is_not_found] on the folder [/w] without modules: the
    file [b.proto] of the directory is read, and [Get] does not find it. *)
Lemma delegate_file_is_not_found_witness :
  Source_ReadFile
    (filesystem.Source
       (filesystem.mk
          [folder.mk "w" "file:///w" (mkOverlayFS "/w" dir_source ∅)
             (SMulti [])]))
    "file:///w/b.proto"
  = Ok (HFile (simplefile.mk "file:///w/b.proto" "package p;message A" None)) /\
  is_Err
    (fileManager.Get
       (fileManager.newFileManager
          (filesystem.mk
             [folder.mk "w" "file:///w" (mkOverlayFS "/w" dir_source ∅)
                (SMulti [])]))
       "file:///w/b.proto").1 = true.
Proof.
  destruct (delegate_file_is_not_found "w" "file:///w" "/w" dir_source
              (SMulti []) ∅ "file:///w/b.proto"
              (HFile (simplefile.mk "file:///w/b.proto"
                        "package p;message A" None)))
    as [Hr Hg].
  - apply lookup_empty.
  - reflexivity.
  - reflexivity.
  - split; [exact Hr|]. unfold fileManager.newFileManager.
    destruct (Hg Parser.NewParser DiagnosticClient.NewDiagnosticClient 0%nat)
      as [-> _].
    reflexivity.
Defined.

End delegate_more_examples.
